(* ===== verification/_CoqProject ===== *)
-Q . S2P
Prelude.v
PyText.v
OsPath.v
Utf8.v
PyFloat.v
FloatText.v
FloatRepr.v
Response.v
Normalize.v
Parser.v
Json.v
Publisher.v
Scheduler.v
Worker.v
Startup.v
Logs.v
