(* ===== verification/Prelude.v ===== *)
(** * A verification development of benningsolarvalues

    The program ([src/app.py]) polls a Benning Solar photovoltaic inverter
    over HTTP, parses the semicolon-separated metrics table it returns,
    normalises the unit of every row and publishes the whole table as one
    JSON document to an MQTT topic, at a fixed interval.

    ** The program's parts and how they interact

    - The [__main__] block (lines 226-236) parses the arguments
      ([parse_arguments], 48-57, whose default configuration path is
      [config.yaml] beside the script, [find_default_config_path], 60-62,
      through [os.path]), sets up logging ([set_up_logging], 75-113),
      reads the YAML configuration ([read_config], 65-72, which exits
      with 254 when the file is missing) and calls [main()], which
      builds the worker.
    - [BenningSolarMetricsWorker.__init__] (lines 120-122) connects to the
      broker ([mqtt_connect], 124-137) and then runs [every] (141-152)
      forever with [do_repeat] (154-221) as its task.
    - [every] sleeps until the next fire time, runs the task, catches and
      logs every [Exception] the task raises, and advances the fire time by
      the skip-ahead formula of line 152; the sleep and the update are
      outside the [try], so what they raise ends the worker.
    - [do_repeat] builds the device URL (155), performs the HTTP GET (159,
      in which requests takes the response's encoding from its
      [Content-Type]), treats a [ConnectionError] as a logged, finished
      cycle (160-162), raises [Error] with the body decoded by requests
      on a non-200 status (221), and otherwise decodes the body as UTF-8
      (165, 174), splits it into lines (174), parses every line (176-209: float scaling,
      unit normalisation, description unquoting), and publishes the list
      of metrics as the JSON text [json.dumps(allmetrics)] when the
      connected flag is set, or reconnects (214-218).  Since no network
      loop of paho-mqtt runs, [publish] writes the packet itself and
      calls the [on_publish] callback of [mqtt_connect] (125-127), which
      logs.

    ** Files, in dependency order

    - [Prelude] (this file): the Python exception values the code raises
      ([exn]), a result type with its monad notation ([result], scope
      [py_scope]), the shared Ltac ([inv_result]), the hint database
      [pyhints], and generic lemmas on results and lists.
    - [PyText]: Python [str] as a list of code points, with the built-ins
      the parser calls: [str.split] ([split]), [str.splitlines]
      ([splitlines]) and [str.strip] with an argument ([strip]).
    - [OsPath]: CPython's [posixpath] as [find_default_config_path]
      calls it ([PosixPath]: [join], [dirname], [basename], [abspath],
      [normpath]), and [find_default_config_path] itself.
    - [Utf8]: [res.text] after [res.encoding = 'UTF-8'] (lines 165, 174),
      CPython's UTF-8 decoder with [errors='replace'] ([Utf8.decode]).
    - [PyFloat]: Python [float] as IEEE-754 binary64, using the Standard
      Library's executable [SpecFloat] model: [float(s)] on a string
      ([py_float]: Unicode whitespace and the decimal digits of every
      script (Unicode 14.0, as CPython 3.11), underscores, sign,
      decimal digits, exponent, inf/nan, correctly rounded), and float
      multiplication.
    - [FloatText]: what [float(s)] reads, as functional facts on
      [py_float] (whitespace around the number, the minus sign).
    - [FloatRepr]: [float.__repr__], which [json.dumps] uses for the
      values: the shortest decimal digit string that reads back
      ([search] over the candidates of n = 1..17 digits, with the exact
      expansion as a fallback) laid out by [format_float_short]
      ([render]).
    - [Response]: requests' [get_encoding_from_headers] (the
      [Content-Type] parameters in a [gmap]) and [Response.text], with
      Python's codec lookup for UTF-8, Latin-1 and ASCII
      ([Requests.codec_lookup]).
    - [Normalize]: lines 186-206, the unit normalisation of one row.
    - [Parser]: lines 172-211, one row ([parse_line]) and the whole body
      ([parse_body]), all-or-nothing as the code is.
    - [Json]: [json.dumps(allmetrics)] of line 215 ([Json.dumps], after
      CPython's C encoder: [ensure_ascii] escapes, separators, key order,
      floats by [FloatRepr.repr]), and, as the reference reader of the
      payload, the subscriber's [json.loads] ([Json.loads], after the C
      scanner), which is not code of the repository.
    - [Publisher]: [mqtt_connect] (124-137) and the publish-or-reconnect
      branch (213-218), with the connected flag as state; a publish
      event carries the JSON text, and is followed by the [on_publish]
      records of the packets paho-mqtt finishes writing.
    - [Scheduler]: [every] (141-152), generic in its task through the
      type class [Task]; [time.sleep] as CPython 3.11 does it on Linux
      ([py_sleep]), the update of line 152 with the [int] to [float]
      conversion of the interval ([advance], [int_to_float_overflows]),
      one iteration ([every_iter]), runs of n iterations ([every_run]),
      and its transition relation.
    - [Worker]: [do_repeat] (154-221) as an instance of [Task], and the
      whole worker ([worker_init], the loop) composed from the above.
    - [Startup]: the root logger of the [logging] module ([Logging]:
      [basicConfig], handlers, filters, the module-level [logging.info]
      and [logging.error]), and the start-up ([Startup]) as a state and
      exit monad over the global [loglevel] and the root logger:
      [parse_arguments], [set_up_logging], [read_config], the [__main__]
      block ([startup]) and the whole process ([process]), which runs
      the worker of [Worker].  What the process reads from outside (the
      outcome of [argparse], the current directory, [__file__], the
      platform, [isatty], [os.path.isfile], [yaml.load]) is an
      [environ].
    - [Logs]: the worker's log calls (the events of [Worker] that stand
      for [logging.info], [warning], [error] and [exception], the
      [on_publish] callback's included) handed to
      the root logger configured at start-up ([event_log],
      [log_events]), and everything the process logs ([process_log]).

    ** What the theorems show (groups)

    - Text ([PyText.StrFacts]): [split]/[join] round trip and the number of
      pieces; [splitlines] yields no line containing a boundary, loses
      only the boundaries, and inverts writing lines ended or separated
      by newlines; [strip] removes exactly the surrounding characters.
    - UTF-8 ([Utf8]): decoding inverts encoding; any byte string decodes
      to Unicode scalar values only, never longer than the bytes; ASCII
      passes through; an invalid lead byte and a truncated sequence each
      give one U+FFFD, after which decoding resumes.
    - Floats ([PyFloat]): SpecFloat's rounding ([binary_round_aux]) of
      an aligned mantissa is a valid binary64 value, hence so is every
      result of [float()], of [float_of_int] and of [fmul] on valid
      operands ([FloatFacts]); multiplying a valid value by
      [float("1.000000")] returns it ([fmul_one]); [float()] raises
      nothing but ValueError.  [FloatText]: Unicode whitespace around
      the text changes nothing, except U+001C-U+001F, which [float]
      rejects although [str.isspace] accepts them ([py_float_spaces]);
      [float('-' + s)] is [-float(s)] bit for bit ([py_float_minus]).
    - Float text ([FloatRepr]): [repr] reads back to the same value bit
      for bit ([repr_roundtrip]) and is made of digits, signs, the point
      and [e] ([repr_printable]).
    - JSON ([Json]): [json.loads] of the payload gives back the metric
      dictionaries in order, every string and float as built
      ([loads_dumps]); the payload is printable ASCII ([dumps_ascii]);
      the decoder terminates within its fuel ([loads_terminates]).
    - Paths ([OsPath]): the default configuration path has the
      directory of [abspath(__file__)] and the file name as base name
      ([default_config_beside_script]), is absolute
      ([default_config_absolute]); [normpath] is idempotent
      ([normpath_idempotent]).
    - Start-up ([StartupFacts]): the root logger always ends with one
      console handler at [DEBUG] or [INFO], never with syslog
      ([startup_logs_to_console]); a missing configuration file exits
      with 254 after three log records ([missing_config_exits]); a
      configuration that loads starts the worker on it
      ([process_runs_worker]).
    - Log ([Logs]): once the configuration loads, the process logs the
      two start-up messages and then one console record per log call of
      the worker, the [on_publish] callback's included, in order, at
      its level, the same with or without [--debug]
      ([process_log_console]).
    - Normalisation ([Normalize]): the code's independent [if]s equal
      the specification's else-if chain ([normalize_else_if], a
      refinement of [normalize_spec]) and normalisation is idempotent.
    - Parser ([Parser]): the loop yields one metric per line in order or
      the exception of the first failing line; a well-formed row parses
      to its fields; the legacy branch for the multiplier 1.000000 agrees
      with the general formula for every raw value ([scale_legacy]);
      every reading in mA is published in A multiplied by 1000
      ([scenario_milliampere]); short rows and empty lines fail.
    - Publisher ([Publisher]): publish when the flag is set; otherwise
      warn, reconnect once, drop the cycle's data.
    - Scheduler ([Scheduler]): the next fire time is the first grid point
      after the clock reading, within one interval; overrun fires are
      skipped; a negative interval puts it in the past; an [int]
      interval no [float] holds raises OverflowError on line 152 after
      every task ([every_overflow_delay]); with a non-zero interval a
      [float] holds, the loop never raises on a clock that does not go
      back ([every_run_never_raises]) and has an infinite run
      ([every_forever], [infseq] below); its step relation is well
      founded, so every run ends, exactly when the interval is 0 or no
      [float] holds it ([every_terminates], with [acc_not_infseq]
      below).
    - Worker ([Worker]): a cycle publishes at most once, exactly on a 200
      response that parses while the flag is set; from the bytes of N
      encoded rows to the publication of their N metrics in order
      ([do_repeat_rows]); whatever bytes the device sends, a published
      payload reads back as the metrics parsed from the decoded body
      ([published_payload_reads_back]); a non-200 response is
      caught by [every]; its message holds the body read as ISO-8859-1
      when the type is [text] without charset ([non200_text_latin1]); a
      bare [charset] parameter loses the cycle whatever the status
      ([bare_charset_raises]); once set, the flag is never cleared and no
      reconnect ever happens; every reachable state has a client; on a
      clock that does not go back, the worker never stops unless
      [repeat] is 0, when it dies after one cycle, or too large for
      [time.sleep] (9223372037 seconds or more) or for a [float], when
      it dies with OverflowError ([worker_huge_repeat]).

    ** Abstractions, bounds and what is not modelled

    - The readings of [time.time()] are whole seconds, and [repeat] an
      [int]; the binary64 rounding of the time arithmetic of line 152
      is not modelled (it only matters for readings or intervals beyond
      2^53 seconds, where the next sleep fails anyway).  [time.sleep]
      fails as CPython 3.11 on Linux: OverflowError from 2^63
      nanoseconds, OSError when that count added to CLOCK_MONOTONIC
      (an input of the iteration) passes 2^63 - 1 (both checked
      against CPython).  The [int] to [float] conversion of the
      interval fails from 2^1024 - 2^970 on.  Runs of the infinite
      loop are given by a list of iterations, and its non-termination
      by [infseq].
    - Fuel: the program's definitions are structural ([list_length_ind]
      below handles the scanners' multi-character steps), except two
      bounded searches.  [FloatRepr.search] tries at most 17 digit
      counts, the number after which a binary64 value always reads back
      (the exact expansion is the fallback, so [repr] is total; the
      differential test against CPython never reached it).  The
      reference reader [Json.parse_value] runs on fuel [2 n + 1] for a
      text of length [n]; [loads_terminates] shows more fuel changes
      nothing.
    - Text is a list of Unicode code points ([Z]), bytes are integers in
      [0, 255].  [res.text] is modelled for the UTF-8, Latin-1 and ASCII
      codecs in any spelling Python accepts; the statistical guess of
      charset_normalizer ([apparent_encoding]) and what any other codec
      makes of the bytes are inputs of the iteration
      ([Requests.text_env] in [Worker.fetch_outcome]).  The HTTP
      transport itself (sockets, redirects, authentication) is the
      environment.
    - At start-up, [argparse], [os.getcwd()], [os.path.isfile],
      [yaml.load] and [sys.stdin.isatty()] are inputs ([Startup.environ]);
      the text of a formatted log record and the syslog socket are not
      modelled, a record is its handler, level and message; the
      traceback [logging.exception] prints is formatting.
    - The network (requests, paho-mqtt 1.x) is the environment: each
      iteration receives the outcome of the HTTP GET, of a connect
      attempt, and the message ids of the PUBLISH packets paho-mqtt
      finishes writing during a publish, for each of which it calls
      [on_publish] (a packet of an earlier publish still queued, or
      none when the connection is lost), as inputs ([Worker.tick]).
      paho-mqtt's [ValueError] on an empty or wildcard topic (line
      215) is not modelled: the configured topic is taken as valid.

    ** Plan for the next steps

    Done since the first version: validity of [float()]'s results
    (which removed the hypothesis of [scale_legacy]), the UTF-8
    decoding of the body, the JSON payload with [float.__repr__], the
    process start-up with [os.path] and the logging module, the Unicode
    digits of [float()] with its whitespace and sign, the termination
    of the loop, the worker's log calls as records of the root
    logger, the encoding requests takes from the Content-Type header
    with [res.text] for every codec spelling Python accepts, the
    failures of [time.sleep] and of line 152 on huge intervals, and
    paho-mqtt's [on_publish] callback.

    1. [repr] is the shortest string that reads back, and 17 digits
       always suffice (the fallback of [FloatRepr.search] is never
       used).
    2. The binary64 time arithmetic of line 152 with fractional
       readings of [time.time()]. *)

From stdpp Require Export base list strings.
From Stdlib Require Export ZArith Lia.

Declare Scope py_scope.
Delimit Scope py_scope with py.
Open Scope Z_scope.

(** ** Python exceptions raised on the paths the code takes *)

(** [IndexError]: [v[k]] out of range; [ValueError]: [float(s)] on a
    string that is not a float; [ZeroDivisionError]: [x // 0];
    [AppError]: the application's [Error] of line 221, with the body;
    [RequestError]: an exception of [requests.get] other than
    [ConnectionError] (a read timeout, an invalid URL); [AttributeError]:
    [True.strip] in requests' [get_encoding_from_headers] on a bare
    [charset] parameter; [UnicodeError]: a codec that refuses
    [errors='replace'] in [res.text]; [OverflowError]: a [time.sleep]
    of 2^63 nanoseconds or more, or an [int] too large for a [float];
    [OSError]: a [time.sleep] whose deadline on CLOCK_MONOTONIC passes
    2^63 nanoseconds ([clock_nanosleep] answers EINVAL). *)
Inductive exn :=
| IndexError
| ValueError
| ZeroDivisionError
| AppError (body : list Z)
| RequestError
| AttributeError
| UnicodeError
| OverflowError
| OSError.

(** A computation that returns a value or raises. *)
Inductive result (A : Type) :=
| Ok (a : A)
| Raise (e : exn).
Arguments Ok {A} a.
Arguments Raise {A} e.

Definition rbind {A B} (c : result A) (k : A -> result B) : result B :=
  match c with
  | Ok a => k a
  | Raise e => Raise e
  end.

Notation "x <- c ;; k" := (rbind c (fun x => k))
  (at level 60, c at next level, right associativity) : py_scope.

Definition is_ok {A} (r : result A) : bool :=
  match r with Ok _ => true | Raise _ => false end.

(** ** Generic lemmas on results *)

Create HintDb pyhints discriminated.
Create Rewrite HintDb pyrw.

Section ResultLemmas.
Context {A B : Type}.

Lemma rbind_Ok (a : A) (k : A -> result B) : rbind (Ok a) k = k a.
Proof. reflexivity. Qed.

Lemma rbind_Raise (e : exn) (k : A -> result B) : rbind (Raise e) k = Raise e.
Proof. reflexivity. Qed.

Lemma rbind_eq_Ok (c : result A) (k : A -> result B) (b : B) :
  rbind c k = Ok b -> exists a, c = Ok a /\ k a = Ok b.
Proof. destruct c; simpl; [eauto | discriminate]. Qed.

Lemma rbind_eq_Raise (c : result A) (k : A -> result B) (e : exn) :
  rbind c k = Raise e -> c = Raise e \/ exists a, c = Ok a /\ k a = Raise e.
Proof. destruct c; simpl; [eauto | intros [= ->]; auto]. Qed.

Lemma rbind_ext (c : result A) (k1 k2 : A -> result B) :
  (forall a, c = Ok a -> k1 a = k2 a) -> rbind c k1 = rbind c k2.
Proof. destruct c; simpl; auto. Qed.
End ResultLemmas.

#[export] Hint Rewrite @rbind_Ok @rbind_Raise : pyrw.
#[export] Hint Resolve rbind_ext : pyhints.

(** Destructs the binds and result equalities of the hypotheses. *)
Ltac inv_result :=
  repeat match goal with
  | H : rbind ?c ?k = Ok _ |- _ =>
      let a := fresh "a" in let Ha := fresh "Ha" in
      apply rbind_eq_Ok in H as (a & Ha & H)
  | H : Ok _ = Ok _ |- _ => injection H as H
  | H : Raise _ = Raise _ |- _ => injection H as H
  | H : Ok _ = Raise _ |- _ => discriminate H
  | H : Raise _ = Ok _ |- _ => discriminate H
  end; subst.

(** ** Generic lemmas on lists *)

(** Induction on the length of a list, for the scanners that consume two
    characters in one step. *)
Lemma list_length_ind {T} (P : list T -> Prop) :
  (forall s, (forall s', (length s' < length s)%nat -> P s') -> P s) ->
  forall s, P s.
Proof.
  intros H s. remember (length s) as n eqn:E. revert s E.
  induction (lt_wf n) as [n _ IH]. intros s ->. apply H.
  intros s' Hs'. eapply IH; [exact Hs' | reflexivity].
Qed.

(** [v[k]] on a Python list, [k >= 0]: [IndexError] out of range. *)
Definition index {A} (v : list A) (k : nat) : result A :=
  match v !! k with Some x => Ok x | None => Raise IndexError end.

Lemma index_lt {A} (v : list A) (k : nat) :
  (k < length v)%nat -> exists x, v !! k = Some x /\ index v k = Ok x.
Proof.
  intros Hk. destruct (lookup_lt_is_Some_2 v k Hk) as [x Hx].
  exists x. unfold index. by rewrite Hx.
Qed.

Lemma index_ge {A} (v : list A) (k : nat) :
  (length v <= k)%nat -> index v k = Raise IndexError.
Proof. intros Hk. unfold index. by rewrite lookup_ge_None_2. Qed.

Lemma forallb_Forall {A} (p : A -> bool) (l : list A) : forallb p l = true -> Forall (fun x => p x = true) l.
Proof. induction l as [|x l IH]; cbn [forallb]; [done|]. intros [? ?]%andb_prop. by constructor; [|apply IH]. Qed.

Lemma Forall_forallb {A} (p : A -> bool) (l : list A) : Forall (fun x => p x = true) l -> forallb p l = true.
Proof. induction 1 as [|x l Hx _ IH]; cbn [forallb]; [done|]. by rewrite Hx, IH. Qed.

Lemma forallb_false_Exists {A} (p : A -> bool) (l : list A) :
  forallb p l = false -> Exists (fun x => p x = false) l.
Proof.
  induction l as [|x l IH]; cbn [forallb]; [discriminate|].
  destruct (p x) eqn:E; cbn [andb]; [intros H; right; auto|intros _; by left].
Qed.

Lemma index_Forall {A} (P : A -> Prop) (v : list A) (k : nat) (x : A) :
  Forall P v -> index v k = Ok x -> P x.
Proof.
  unfold index. intros Hv Hx. destruct (v !! k) eqn:E; [|discriminate].
  injection Hx as <-. by eapply Forall_lookup_1.
Qed.

(** ** Tactics for the comparisons of machine-level code

    [zbool] case-splits on every integer comparison of the goal and of
    the hypotheses and discards the contradictory cases; [zdecide]
    rewrites only the comparisons the context decides, and leaves the
    others alone, which keeps the unfolding of a decoder step small. *)
Ltac zbool :=
  repeat match goal with
  | |- context [?a <? ?b] => destruct (Z.ltb_spec a b); try (exfalso; lia)
  | |- context [?a <=? ?b] => destruct (Z.leb_spec a b); try (exfalso; lia)
  | |- context [?a =? ?b] => destruct (Z.eqb_spec a b); try (exfalso; lia)
  | H : context [?a <? ?b] |- _ => destruct (Z.ltb_spec a b); try (exfalso; lia)
  | H : context [?a <=? ?b] |- _ => destruct (Z.leb_spec a b); try (exfalso; lia)
  end; cbn [andb orb negb] in *.

Ltac zdecide :=
  repeat (match goal with
  | |- context [?a <? ?b] =>
      first [rewrite (proj2 (Z.ltb_lt a b)) by lia | rewrite (proj2 (Z.ltb_ge a b)) by lia]
  | |- context [?a <=? ?b] =>
      first [rewrite (proj2 (Z.leb_le a b)) by lia | rewrite (proj2 (Z.leb_gt a b)) by lia]
  | |- context [?a =? ?b] =>
      first [rewrite (proj2 (Z.eqb_eq a b)) by lia | rewrite (proj2 (Z.eqb_neq a b)) by lia]
  end; cbn [andb orb negb]).

(** ** The configuration dictionary

    [config] is the YAML document [read_config] loads (lines 65-72), as
    far as the worker reads it: [config['benning']['host']],
    [['username']], [['password']] (lines 155-156), [config['mqtt']['host']]
    (line 131), [config['mqtt']['topic']] (line 215) and
    [config['repeat']] (line 122). *)
Record config := mkConfig {
  benning_host : list Z;
  benning_username : list Z;
  benning_password : list Z;
  mqtt_host : list Z;
  mqtt_topic : list Z;
  cfg_repeat : Z
}.

(** ** Infinite runs of a transition relation

    [infseq R a]: there is an infinite sequence of [R] steps from [a],
    given as a set of states that contains [a] and from each of whose
    members some step stays in the set. *)
Definition infseq {A} (R : A -> A -> Prop) (a : A) : Prop :=
  exists X : A -> Prop, X a /\ forall a1, X a1 -> exists a2, R a1 a2 /\ X a2.

Lemma infseq_total {A} (R : A -> A -> Prop) (a : A) :
  (forall a1, exists a2, R a1 a2) -> infseq R a.
Proof.
  intros H. exists (fun _ => True). split; [done|].
  intros a1 _. destruct (H a1) as [a2 ?]. eauto.
Qed.

(** A state from which the converse of [R] is accessible has no
    infinite run: a well-founded step relation terminates. *)
Lemma acc_not_infseq {A} (R : A -> A -> Prop) (a : A) :
  Acc (fun x y => R y x) a -> ~ infseq R a.
Proof.
  induction 1 as [a _ IH]. intros (X & Ha & HX).
  destruct (HX a Ha) as (a2 & Hr & H2). apply (IH a2 Hr). by exists X.
Qed.

(** A computable check that a code point does not occur in a list. *)
Lemma not_elem_of_forallb (c : Z) (l : list Z) :
  forallb (fun x => negb (Z.eqb x c)) l = true -> c ∉ l.
Proof.
  induction l as [|x l IH]; simpl; [intros _; apply not_elem_of_nil|].
  intros [Hx Hl]%andb_prop. rewrite elem_of_cons.
  apply negb_true_iff, Z.eqb_neq in Hx. intros [-> | H]; [done | by apply IH].
Qed.
