(* ===== verification/PyText.v ===== *)
(** * Python [str] and the string methods the parser calls

    A Python [str] is a sequence of Unicode code points, modelled as
    [list Z].  [lit] turns an ASCII literal of the source into such a list.
    [Module Str] holds the three methods [src/app.py] calls on the
    response text: [str.splitlines()] (line 174), [str.split(';')]
    (line 176) and [str.strip] with the double-quote character (line 208), after CPython's
    [Objects/stringlib/split.h] and [unicodeobject.c] ([do_xstrip]).
    [join] is [sep.join], used only to state round trips. *)

From S2P Require Import Prelude.

(** The code points of an ASCII literal. *)
Definition lit (s : string) : list Z :=
  map (fun a => Z.of_nat (Ascii.nat_of_ascii a)) (String.list_ascii_of_string s).

(** The characters of a literal are below 256. *)
Lemma lit_chars (s : string) : Forall (fun c => 0 <= c < 256) (lit s).
Proof.
  unfold lit. apply Forall_map, Forall_forall. intros a _.
  pose proof (Ascii.nat_ascii_bounded a). lia.
Qed.

(** Python's [a == b] on two strings. *)
Definition str_eqb (a b : list Z) : bool := bool_decide (a = b).

Lemma str_eqb_true (a b : list Z) : str_eqb a b = true <-> a = b.
Proof. unfold str_eqb. apply bool_decide_eq_true. Qed.

Lemma str_eqb_refl (a : list Z) : str_eqb a a = true.
Proof. by apply str_eqb_true. Qed.

Lemma str_eqb_false (a b : list Z) : a <> b -> str_eqb a b = false.
Proof. intros H. unfold str_eqb. by apply bool_decide_eq_false. Qed.

Lemma str_eqb_spec (a b : list Z) : reflect (a = b) (str_eqb a b).
Proof. apply iff_reflect. symmetry. apply str_eqb_true. Qed.

#[export] Hint Rewrite str_eqb_refl : pyrw.

(** Case analysis on every string comparison of the goal: comparisons of
    two literals are computed, the others are split. *)
Ltac str_cases :=
  repeat (match goal with
  | |- context [str_eqb ?a ?b] =>
      let v := eval vm_compute in (str_eqb a b) in
      match v with
      | true => change (str_eqb a b) with true
      | false => change (str_eqb a b) with false
      end
  | |- context [str_eqb ?a ?b] =>
      destruct (str_eqb_spec a b) as [?|?]; subst
  end; cbn [orb andb negb] in *).

Module Str.

(** [s.split(sep)] with a one-character separator and no [maxsplit]:
    the pieces between the separators, empty pieces included. *)
Fixpoint split (sep : Z) (s : list Z) : list (list Z) :=
  match s with
  | [] => [[]]
  | c :: s' =>
      let rest := split sep s' in
      if Z.eqb c sep then [] :: rest
      else match rest with
           | f :: fs => (c :: f) :: fs
           | [] => [[c]]
           end
  end.

(** [sep.join(l)] with a one-character separator. *)
Fixpoint join (sep : Z) (l : list (list Z)) : list Z :=
  match l with
  | [] => []
  | [x] => x
  | x :: xs => x ++ sep :: join sep xs
  end.

(** The line boundaries of [str.splitlines]: \n, \v, \f, \r, the
    separators \x1c, \x1d, \x1e, NEL \x85, and U+2028, U+2029. *)
Definition is_linebreak (c : Z) : bool :=
  existsb (Z.eqb c) [10; 11; 12; 13; 28; 29; 30; 133; 8232; 8233].

(** [s.splitlines()]: [cur] is the reversed current line; "\r\n" is one
    boundary; a final boundary does not start an empty line. *)
Fixpoint splitlines_go (s : list Z) (cur : list Z) : list (list Z) :=
  match s with
  | [] => match cur with [] => [] | _ => [rev cur] end
  | c :: s' =>
      if is_linebreak c then
        if Z.eqb c 13 then
          match s' with
          | d :: s'' =>
              if Z.eqb d 10 then rev cur :: splitlines_go s'' []
              else rev cur :: splitlines_go s' []
          | [] => [rev cur]
          end
        else rev cur :: splitlines_go s' []
      else splitlines_go s' (c :: cur)
  end.

Definition splitlines (s : list Z) : list (list Z) := splitlines_go s [].

(** [s.strip(ch)] with a one-character argument: drop [ch] from the
    left, then from the right of what is left. *)
Fixpoint lstrip (ch : Z) (s : list Z) : list Z :=
  match s with
  | c :: s' => if Z.eqb c ch then lstrip ch s' else s
  | [] => []
  end.

Definition rstrip (ch : Z) (s : list Z) : list Z := rev (lstrip ch (rev s)).

Definition strip (ch : Z) (s : list Z) : list Z := rstrip ch (lstrip ch s).

End Str.

(** ** Properties of the string methods *)

Module StrFacts.
Import Str.

Section Split.
Context (sep : Z).

Lemma split_not_nil (s : list Z) : split sep s <> [].
Proof.
  induction s as [|c s IH]; simpl; [discriminate|].
  destruct (Z.eqb c sep); [discriminate|].
  destruct (split sep s); discriminate.
Qed.

Lemma join_cons (x : list Z) (xs : list (list Z)) :
  xs <> [] -> join sep (x :: xs) = x ++ sep :: join sep xs.
Proof. destruct xs; [congruence | reflexivity]. Qed.

Lemma join_cons_char (c : Z) (f : list Z) (fs : list (list Z)) :
  join sep ((c :: f) :: fs) = c :: join sep (f :: fs).
Proof. destruct fs; reflexivity. Qed.

(** Joining the pieces of [s.split(sep)] with [sep] gives [s] back. *)
Lemma split_join (s : list Z) : join sep (split sep s) = s.
Proof.
  induction s as [|c s IH]; [reflexivity|]. simpl.
  destruct (Z.eqb_spec c sep) as [->|Hne].
  - rewrite join_cons by apply split_not_nil. simpl. by rewrite IH.
  - destruct (split sep s) as [|f fs] eqn:E; [by destruct (split_not_nil s)|].
    rewrite join_cons_char. by rewrite IH.
Qed.

(** The number of pieces is one more than the number of separators. *)
Lemma split_length (s : list Z) :
  length (split sep s) = S (length (List.filter (fun c => Z.eqb c sep) s)).
Proof.
  induction s as [|c s IH]; [reflexivity|]. simpl.
  destruct (Z.eqb c sep); simpl; [by rewrite IH|].
  destruct (split sep s) as [|f fs]; simpl in *; lia.
Qed.

(** No piece contains the separator. *)
Lemma split_pieces_sep_free (s : list Z) :
  Forall (fun f => sep ∉ f) (split sep s).
Proof.
  induction s as [|c s IH]; simpl.
  - repeat constructor. apply not_elem_of_nil.
  - destruct (Z.eqb_spec c sep); [constructor; [apply not_elem_of_nil | done]|].
    destruct (split sep s) as [|f fs] eqn:E; [by destruct (split_not_nil s)|].
    inversion IH as [|? ? Hf Hfs]; subst. constructor; [|done].
    rewrite elem_of_cons. intros [-> | ?]; auto.
Qed.

Lemma split_sep_free (x : list Z) : sep ∉ x -> split sep x = [x].
Proof.
  induction x as [|c x IH]; [reflexivity|]. rewrite elem_of_cons. simpl.
  destruct (Z.eqb_spec c sep); [intros []; auto|]. intros Hx. rewrite IH; auto.
Qed.

Lemma split_app_sep (x t : list Z) :
  sep ∉ x -> split sep (x ++ sep :: t) = x :: split sep t.
Proof.
  induction x as [|c x IH]; simpl; [by rewrite Z.eqb_refl|].
  rewrite elem_of_cons. destruct (Z.eqb_spec c sep); [intros []; auto|].
  intros Hx. rewrite IH; auto.
Qed.

(** Splitting the join of separator-free pieces gives the pieces. *)
Lemma join_split (l : list (list Z)) :
  l <> [] -> Forall (fun f => sep ∉ f) l -> split sep (join sep l) = l.
Proof.
  induction l as [|x xs IH]; [congruence|]. intros _ Hf.
  inversion Hf as [|? ? Hx Hxs]; subst.
  destruct xs as [|y ys]; [by apply split_sep_free|].
  rewrite join_cons, split_app_sep, IH by (done || discriminate). done.
Qed.
End Split.

(** A line that contains no line boundary. *)
Definition no_linebreak (l : list Z) : Prop :=
  Forall (fun c => is_linebreak c = false) l.

Section Splitlines.

Lemma app_cons_not_nil_len (cur l : list Z) (c : Z) : rev (c :: cur) ++ l <> [].
Proof.
  intros Habs. apply (f_equal length) in Habs.
  rewrite length_app, length_rev in Habs. simpl in Habs. lia.
Qed.

Lemma splitlines_go_clean (s cur : list Z) :
  no_linebreak cur -> Forall no_linebreak (splitlines_go s cur).
Proof.
  unfold no_linebreak. revert cur.
  induction s as [[|c s] IH] using list_length_ind; intros cur Hc; simpl.
  { destruct cur; repeat constructor; by apply Forall_rev. }
  destruct (is_linebreak c) eqn:Hb; [|apply IH; simpl; [lia | by constructor]].
  assert (Hr : Forall (fun c => is_linebreak c = false) (rev cur)) by by apply Forall_rev.
  destruct (Z.eqb c 13); [destruct s as [|d s']; [|destruct (Z.eqb d 10)]|].
  all: repeat constructor; try done.
  all: apply IH; simpl; [lia | constructor].
Qed.

(** No line of [s.splitlines()] contains a line boundary. *)
Lemma splitlines_clean (s : list Z) : Forall no_linebreak (splitlines s).
Proof. apply splitlines_go_clean. constructor. Qed.

(** Only the line boundaries are lost. *)
Lemma splitlines_go_concat (s cur : list Z) :
  concat (splitlines_go s cur)
  = rev cur ++ List.filter (fun c => negb (is_linebreak c)) s.
Proof.
  revert cur.
  induction s as [[|c s] IH] using list_length_ind; intros cur; simpl.
  { destruct cur; simpl; [done | by rewrite !app_nil_r]. }
  destruct (is_linebreak c) eqn:Hb; simpl.
  - destruct (Z.eqb_spec c 13) as [->|]; [destruct s as [|d s']; [|destruct (Z.eqb_spec d 10) as [->|]]|].
    all: cbn [concat]; rewrite ?IH by (simpl; lia); simpl; by rewrite ?app_nil_r.
  - rewrite IH by (simpl; lia). simpl. by rewrite <- app_assoc.
Qed.

Lemma splitlines_go_line (l t cur : list Z) :
  no_linebreak l ->
  splitlines_go (l ++ 10 :: t) cur = (rev cur ++ l) :: splitlines_go t [].
Proof.
  revert cur. induction l as [|c l IH]; intros cur Hl; simpl.
  - by rewrite app_nil_r.
  - inversion Hl as [|? ? Hc Hl']; subst. rewrite Hc, IH by done.
    simpl. by rewrite <- app_assoc.
Qed.

Lemma splitlines_go_last (l cur : list Z) :
  no_linebreak l -> rev cur ++ l <> [] -> splitlines_go l cur = [rev cur ++ l].
Proof.
  revert cur. induction l as [|c l IH]; intros cur Hl Hne; simpl.
  - rewrite app_nil_r in *. destruct cur; [done | reflexivity].
  - inversion Hl as [|? ? Hc Hl']; subst. rewrite Hc, IH by (done || apply app_cons_not_nil_len).
    simpl. by rewrite <- app_assoc.
Qed.

(** [splitlines] inverts the writing of lines each ended by a
    newline: the lines come back in order, none added or dropped. *)
Lemma splitlines_terminated (ls : list (list Z)) :
  Forall no_linebreak ls ->
  splitlines (concat (map (fun l => l ++ [10]) ls)) = ls.
Proof.
  unfold splitlines. induction ls as [|l ls IH]; intros Hls; [done|].
  inversion Hls; subst. simpl. rewrite <- app_assoc. simpl.
  rewrite splitlines_go_line by done. simpl. by rewrite IH.
Qed.

(** The same for lines joined by newlines, the last one not empty. *)
Lemma splitlines_join (ls : list (list Z)) :
  Forall no_linebreak ls -> last ls <> Some [] -> ls <> [] ->
  splitlines (join 10 ls) = ls.
Proof.
  unfold splitlines. induction ls as [|l ls IH]; intros Hls Hlast Hne; [done|].
  inversion Hls; subst. destruct ls as [|l' ls'].
  - simpl. apply splitlines_go_last; [done|]. simpl. intros ->. done.
  - rewrite StrFacts.join_cons by discriminate.
    rewrite splitlines_go_line, IH by (done || discriminate). done.
Qed.
End Splitlines.

Section Strip.
Context (ch : Z).

Lemma lstrip_repeat_app (a : nat) (m : list Z) :
  head m <> Some ch -> lstrip ch (repeat ch a ++ m) = m.
Proof.
  intros Hm. induction a as [|a IH]; simpl; [|rewrite Z.eqb_refl; exact IH].
  destruct m as [|c m]; [done|]. simpl in *.
  destruct (Z.eqb_spec c ch); [congruence | done].
Qed.

Lemma head_rev (m : list Z) : head (rev m) = last m.
Proof.
  induction m as [|c m IH]; [done|]. destruct m as [|d m]; [done|].
  change (last (c :: d :: m)) with (last (d :: m)). rewrite <- IH.
  cbn [rev]. destruct (rev m ++ [d]) as [|x y] eqn:E; [|done].
  apply (f_equal length) in E. rewrite length_app in E. simpl in E. lia.
Qed.

(** [s.strip(ch)] removes exactly the [ch] characters around the
    part [m] that neither starts nor ends with [ch]. *)
Lemma strip_spec (a b : nat) (m : list Z) :
  head m <> Some ch -> last m <> Some ch ->
  strip ch (repeat ch a ++ m ++ repeat ch b) = m.
Proof.
  intros Hh Hl. unfold strip, rstrip.
  destruct m as [|c m'].
  - rewrite app_nil_l, <- repeat_app, <- (app_nil_r (repeat ch (a + b))).
    rewrite (lstrip_repeat_app _ []) by done. reflexivity.
  - rewrite (lstrip_repeat_app _ ((c :: m') ++ _)) by done.
    rewrite rev_app_distr, rev_repeat, lstrip_repeat_app by (by rewrite head_rev).
    apply rev_involutive.
Qed.
End Strip.

(** ** The methods keep the characters of the text

    Every character of a piece, a line or a stripped string is a
    character of the text it comes from: a property of all the
    characters of the text holds of all the characters of the results. *)
Section Chars.
Context (P : Z -> Prop).

Lemma split_chars (sep : Z) (s : list Z) : Forall P s -> Forall (Forall P) (split sep s).
Proof.
  induction 1 as [|c s Hc Hs IH]; cbn [split]; [by repeat constructor|].
  destruct (Z.eqb c sep); [by constructor|].
  destruct (split sep s) as [|f fs]; [by repeat constructor|].
  apply Forall_cons in IH as [Hf Hfs]. by repeat constructor.
Qed.

Lemma splitlines_go_chars (s cur : list Z) :
  Forall P s -> Forall P cur -> Forall (Forall P) (splitlines_go s cur).
Proof.
  revert cur. induction s as [[|c s] IH] using list_length_ind; intros cur Hs Hc; cbn [splitlines_go].
  { destruct cur; repeat constructor; by apply Forall_rev. }
  apply Forall_cons in Hs as [Hc0 Hs].
  assert (Hr : Forall P (rev cur)) by by apply Forall_rev.
  destruct (is_linebreak c); [|apply IH; [cbn [length]; lia|done|by constructor]].
  destruct (Z.eqb c 13); [destruct s as [|d s']; [|destruct (Z.eqb d 10)]|].
  all: repeat constructor; try done.
  all: apply IH; [cbn [length]; lia| |constructor].
  all: first [done|by apply Forall_cons in Hs as [_ ?]].
Qed.

Lemma splitlines_chars (s : list Z) : Forall P s -> Forall (Forall P) (splitlines s).
Proof. intros Hs. by apply splitlines_go_chars. Qed.

Lemma lstrip_chars (ch : Z) (s : list Z) : Forall P s -> Forall P (lstrip ch s).
Proof. induction 1 as [|c s Hc Hs IH]; cbn [lstrip]; [done|]. by destruct (Z.eqb c ch); [|constructor]. Qed.

Lemma strip_chars (ch : Z) (s : list Z) : Forall P s -> Forall P (strip ch s).
Proof. intros Hs. unfold strip, rstrip. apply Forall_rev, lstrip_chars, Forall_rev, lstrip_chars, Hs. Qed.
End Chars.
End StrFacts.

