(* ===== verification/OsPath.v ===== *)
(** * [os.path] on POSIX, as [find_default_config_path] uses it (src/app.py, lines 60-62)

    [find_default_config_path] joins the directory of the absolute path
    of the script with a file name.  The functions of CPython's
    [posixpath] it calls are modelled on paths as lists of code points:
    [isabs], [join] (two arguments), [dirname], [basename] (also used by
    [set_up_logging], line 109), [normpath] (with [splitroot]) and
    [abspath], which reads the current directory ([os.getcwd()], an
    input). *)

From S2P Require Import Prelude PyText.

Module PosixPath.
Import Str.

(** The separator [/]. *)
Definition sep : Z := 47.

Definition is_sep (c : Z) : bool := Z.eqb c sep.

(** [isabs(s)]: [s.startswith('/')]. *)
Definition isabs (s : list Z) : bool :=
  match s with c :: _ => is_sep c | [] => false end.

(** [join(a, b)]. *)
Definition join (a b : list Z) : list Z :=
  if isabs b then b
  else if (match a with [] => true | _ => bool_decide (last a = Some sep) end) then a ++ b
  else a ++ sep :: b.

(** On the reversed text: from the first separator on, and before it. *)
Fixpoint from_sep (r : list Z) : list Z :=
  match r with [] => [] | c :: r' => if is_sep c then r else from_sep r' end.

Fixpoint before_sep (r : list Z) : list Z :=
  match r with [] => [] | c :: r' => if is_sep c then [] else c :: before_sep r' end.

(** [p[:p.rfind('/') + 1]] and [p[p.rfind('/') + 1:]]: the text up to
    and including the last separator, and the text after it. *)
Definition head_part (p : list Z) : list Z := rev (from_sep (rev p)).
Definition tail_part (p : list Z) : list Z := rev (before_sep (rev p)).

(** [dirname(p)]: the head without its trailing separators, unless it
    is made of separators only. *)
Definition dirname (p : list Z) : list Z :=
  let head := head_part p in
  if (match head with [] => false | _ => negb (forallb is_sep head) end) then rstrip sep head else head.

(** [basename(p)]. *)
Definition basename (p : list Z) : list Z := tail_part p.

(** [splitroot(p)] for POSIX: the root ([''], ['/'] or exactly ['//'])
    and the rest. *)
Definition splitroot (p : list Z) : list Z * list Z :=
  match p with
  | a :: r =>
      if negb (is_sep a) then ([], p)
      else match r with
           | b :: r' => if negb (is_sep b) then ([sep], r)
                        else match r' with
                             | c :: _ => if is_sep c then ([sep], r) else ([sep; sep], r')
                             | [] => ([sep; sep], r')
                             end
           | [] => ([sep], r)
           end
  | [] => ([], [])
  end.

Definition dot : list Z := [46].
Definition dotdot : list Z := [46; 46].

(** The loop of [normpath] over the components: [acc] is [new_comps]
    reversed, [rooted] is [initial_slashes] being non-empty. *)
Fixpoint norm_comps (rooted : bool) (acc : list (list Z)) (comps : list (list Z)) : list (list Z) :=
  match comps with
  | [] => rev acc
  | comp :: rest =>
      if str_eqb comp [] || str_eqb comp dot then norm_comps rooted acc rest
      else if negb (str_eqb comp dotdot) || (negb rooted && match acc with [] => true | _ => false end)
              || (match acc with last :: _ => str_eqb last dotdot | [] => false end)
      then norm_comps rooted (comp :: acc) rest
      else norm_comps rooted (List.tl acc) rest
  end.

(** [normpath(path)]. *)
Definition normpath (path : list Z) : list Z :=
  match path with
  | [] => dot
  | _ =>
      let '(root, rest) := splitroot path in
      let comps := norm_comps (negb (str_eqb root [])) [] (split sep rest) in
      match root ++ Str.join sep comps with [] => dot | p => p end
  end.

(** [abspath(path)] with the current directory [cwd]. *)
Definition abspath (cwd path : list Z) : list Z :=
  normpath (if isabs path then path else join cwd path).

End PosixPath.

(** Lines 60-62: [__file__] is the path of the script as it was run,
    [cwd] the current directory. *)
Definition find_default_config_path (cwd file config_file_name : list Z) : list Z :=
  PosixPath.join (PosixPath.dirname (PosixPath.abspath cwd file)) config_file_name.

Module PathFacts.
Import Str PosixPath.

(** ** Splitting at the last separator *)

Lemma before_from_sep (r : list Z) : r = before_sep r ++ from_sep r.
Proof. induction r as [|c r IH]; cbn [before_sep from_sep]; [done|]. destruct (is_sep c); cbn; congruence. Qed.

Lemma before_sep_free (r : list Z) : Forall (fun c => is_sep c = false) (before_sep r).
Proof. induction r as [|c r IH]; cbn [before_sep]; [done|]. destruct (is_sep c) eqn:E; by constructor. Qed.

Lemma before_sep_app (n r : list Z) :
  Forall (fun c => is_sep c = false) n -> before_sep (n ++ r) = n ++ before_sep r.
Proof. induction 1 as [|c n Hc _ IH]; [done|]. cbn [app before_sep]. by rewrite Hc, IH. Qed.

Lemma from_sep_app (n r : list Z) :
  Forall (fun c => is_sep c = false) n -> from_sep (n ++ r) = from_sep r.
Proof. induction 1 as [|c n Hc _ IH]; [done|]. cbn [app from_sep]. by rewrite Hc, IH. Qed.

(** A text that is empty or ends with a separator. *)
Definition sep_ended (x : list Z) : Prop := x = [] \/ last x = Some sep.

Lemma sep_ended_rev (x : list Z) :
  sep_ended x -> before_sep (rev x) = [] /\ from_sep (rev x) = rev x.
Proof.
  intros [->|Hl]; [done|]. destruct (rev x) as [|c r] eqn:E; [done|].
  assert (c = sep) as ->.
  { rewrite <- (rev_involutive x), E in Hl. cbn [rev] in Hl. rewrite last_snoc in Hl. congruence. }
  by cbn.
Qed.

Lemma parts_app (x n : list Z) :
  sep_ended x -> Forall (fun c => is_sep c = false) n ->
  head_part (x ++ n) = x /\ tail_part (x ++ n) = n.
Proof.
  intros Hx Hn. destruct (sep_ended_rev x Hx) as [Hb Hf]. apply Forall_rev in Hn.
  unfold head_part, tail_part. rewrite rev_app_distr, before_sep_app, from_sep_app, Hb, Hf by done.
  by rewrite app_nil_r, !rev_involutive.
Qed.

Lemma head_part_sep_ended (p : list Z) : sep_ended (head_part p).
Proof.
  unfold head_part, sep_ended. induction (rev p) as [|c r IH]; cbn [from_sep]; [by left|].
  destruct (is_sep c) eqn:E; [|done]. right. cbn [rev]. rewrite last_snoc. f_equal. by apply Z.eqb_eq.
Qed.

(** ** [rstrip] and [dirname] *)

Lemma lstrip_non_sep (r : list Z) :
  Exists (fun c => is_sep c = false) r -> exists c r', lstrip sep r = c :: r' /\ is_sep c = false.
Proof.
  induction 1 as [c r Hc|c r _ IH]; cbn [lstrip].
  - unfold is_sep in Hc. rewrite Hc. eauto.
  - destruct (Z.eqb c sep) eqn:E; [done|]. eauto.
Qed.

Lemma rstrip_non_sep (s : list Z) :
  Exists (fun c => is_sep c = false) s ->
  rstrip sep s <> [] /\ last (rstrip sep s) <> Some sep.
Proof.
  intros H. apply Exists_rev in H. destruct (lstrip_non_sep _ H) as (c & r' & E & Hc).
  unfold rstrip. rewrite E. cbn [rev]. split; [by destruct (rev r')|].
  rewrite last_snoc. intros [= ->]. unfold is_sep in Hc. by rewrite Z.eqb_refl in Hc.
Qed.

Lemma rstrip_snoc_sep (d : list Z) : last d <> Some sep -> rstrip sep (d ++ [sep]) = d.
Proof.
  intros Hd. unfold rstrip. rewrite rev_app_distr. cbn [rev app lstrip]. rewrite Z.eqb_refl.
  destruct (rev d) as [|c r] eqn:E; [by rewrite <- (rev_involutive d), E|].
  cbn [lstrip]. destruct (Z.eqb_spec c sep) as [->|]; [|by rewrite <- E, rev_involutive].
  exfalso. apply Hd. rewrite <- (rev_involutive d), E. cbn [rev]. by rewrite last_snoc.
Qed.

(** The three forms of a directory name: empty, made of separators
    only, or not ending with a separator. *)
Lemma dirname_cases (p : list Z) :
  dirname p = [] \/
  (sep_ended (dirname p) /\ forallb is_sep (dirname p) = true /\ dirname p <> []) \/
  (dirname p <> [] /\ last (dirname p) <> Some sep).
Proof.
  unfold dirname. pose proof (head_part_sep_ended p) as He.
  destruct (head_part p) as [|c h] eqn:E; [by left|].
  destruct (forallb is_sep (c :: h)) eqn:Hs; cbn [negb].
  - right; left. rewrite <- E. by rewrite E, Hs.
  - right; right. apply rstrip_non_sep.
    by apply forallb_false_Exists.
Qed.

Lemma last_forallb_sep (d : list Z) : d <> [] -> last d <> Some sep -> forallb is_sep d = false.
Proof.
  intros Hne Hl. destruct (forallb is_sep d) eqn:E; [exfalso|done].
  destruct (last d) as [x|] eqn:Ex; [|by apply last_None in Ex].
  apply last_Some_elem_of in Ex. apply Hl. f_equal.
  apply Z.eqb_eq. change (is_sep x = true). rewrite forallb_forall in E. apply E. by apply list_elem_of_In.
Qed.

(** Joining a directory name with a plain file name and taking the
    directory name again gives the same directory, and the file name
    back. *)
Lemma dirname_join (p n : list Z) :
  n <> [] -> Forall (fun c => is_sep c = false) n ->
  dirname (join (dirname p) n) = dirname p /\ basename (join (dirname p) n) = n.
Proof.
  intros Hne Hn. assert (Ha : isabs n = false) by (destruct n as [|c n']; [done|by apply Forall_cons in Hn as [? _]]).
  unfold join, basename. rewrite Ha.
  destruct (dirname_cases p) as [Hd|[(He & Hs & Hne')|(Hne' & Hl)]].
  - rewrite Hd. destruct (parts_app [] n (or_introl eq_refl) Hn) as [Hh Ht].
    unfold dirname. rewrite Hh. split; [done|exact Ht].
  - destruct He as [|He]; [done|]. destruct (dirname p) as [|c d] eqn:Ed; [done|].
    rewrite bool_decide_eq_true_2 by done.
    destruct (parts_app (c :: d) n (or_intror He) Hn) as [Hh Ht].
    unfold dirname at 1. rewrite Hh, Hs. split; [done|exact Ht].
  - destruct (dirname p) as [|c d] eqn:Ed; [done|].
    rewrite bool_decide_eq_false_2 by done.
    assert (Hse : sep_ended ((c :: d) ++ [sep])) by (right; apply last_snoc).
    replace ((c :: d) ++ sep :: n) with (((c :: d) ++ [sep]) ++ n) by (by rewrite <- app_assoc).
    destruct (parts_app ((c :: d) ++ [sep]) n Hse Hn) as [Hh Ht].
    unfold dirname at 1. rewrite Hh. rewrite forallb_app, (last_forallb_sep (c :: d)) by done.
    cbn [andb negb]. destruct ((c :: d) ++ [sep]) eqn:E; [by destruct d|].
    rewrite <- E in Ht |- *. split; [by apply rstrip_snoc_sep|exact Ht].
Qed.
(** ** [normpath] *)

(** A component [normpath] keeps: not empty, not [.], without
    separator. *)
Definition comp_ok (c : list Z) : Prop := c <> [] /\ c <> dot /\ sep ∉ c.

(** [new_comps] reversed: kept components, the [..] that could not be
    cancelled first (none under a root). *)
Definition acc_ok (rooted : bool) (acc : list (list Z)) : Prop :=
  Forall comp_ok acc /\
  exists r k, acc = r ++ repeat dotdot k /\ Forall (fun c => c <> dotdot) r /\ (rooted = true -> k = 0%nat).

Lemma str_eqb_eq (a b : list Z) : str_eqb a b = bool_decide (a = b).
Proof. done. Qed.

Lemma acc_ok_push (rooted : bool) (acc : list (list Z)) (c : list Z) :
  acc_ok rooted acc -> comp_ok c ->
  (c <> dotdot \/ (rooted = false /\ acc = []) \/ head acc = Some dotdot) ->
  acc_ok rooted (c :: acc).
Proof.
  intros [Hf (r & k & -> & Hr & Hk)] Hc Hcase. split; [by constructor|].
  destruct (decide (c = dotdot)) as [->|Hne].
  - destruct Hcase as [|[[-> Hacc]|Hh]]; [done| |].
    + apply app_eq_nil in Hacc as [-> Hk0]. destruct k; [|done].
      exists [], 1%nat. split; [done|]. split; [done|discriminate].
    + destruct r as [|x r].
      * exists [], (S k). split; [done|]. split; [done|]. intros Hrt. specialize (Hk Hrt). subst k. done.
      * exfalso. injection Hh as ->. by apply Forall_cons in Hr as [? _].
  - exists (c :: r), k. split; [done|]. split; [by constructor|done].
Qed.

Lemma acc_ok_pop (rooted : bool) (acc : list (list Z)) : acc_ok rooted acc -> acc_ok rooted (List.tl acc).
Proof.
  intros [Hf (r & k & -> & Hr & Hk)]. split; [by destruct r, k; cbn in *; try apply Forall_cons in Hf as [_ ?]|].
  destruct r as [|x r].
  - exists [], (Nat.pred k). destruct k; [done|]. split; [done|]. split; [done|]. intros Hrt. specialize (Hk Hrt). lia.
  - exists r, k. split; [done|]. split; [by apply Forall_cons in Hr as [_ ?]|done].
Qed.

(** The loop keeps [acc] in shape. *)
Lemma norm_comps_ok (rooted : bool) (acc : list (list Z)) (comps : list (list Z)) :
  acc_ok rooted acc -> Forall (fun f => sep ∉ f) comps -> acc_ok rooted (rev (norm_comps rooted acc comps)).
Proof.
  revert acc. induction comps as [|c comps IH]; intros acc Hacc Hc; cbn [norm_comps].
  { by rewrite rev_involutive. }
  apply Forall_cons in Hc as [Hc Hcs].
  rewrite !str_eqb_eq. case_bool_decide as H1; [by apply IH|]. case_bool_decide as H2; [by apply IH|].
  cbn [orb negb]. case_bool_decide as H3; cbn [negb orb].
  - destruct rooted; cbn [negb andb orb].
    + destruct acc as [|x acc]; [by apply IH; [apply acc_ok_pop|]|].
      rewrite str_eqb_eq. case_bool_decide; [apply IH; [apply acc_ok_push; [| |right; right; cbn; congruence]|]|apply IH; [apply acc_ok_pop|]]; done.
    + destruct acc as [|x acc].
      * apply IH; [apply acc_ok_push; [done|done|right; left; done]|done].
      * rewrite str_eqb_eq. case_bool_decide; [apply IH; [apply acc_ok_push; [| |right; right; cbn; congruence]|]|apply IH; [apply acc_ok_pop|]]; done.
  - apply IH; [apply acc_ok_push; [done|done|by left]|done].
Qed.
(** In the shape of [acc_ok], everything after a [..] is [..]. *)
Lemma dotdot_tail (pre acc r : list (list Z)) (k : nat) :
  Forall (fun c => c <> dotdot) r -> pre ++ dotdot :: acc = r ++ repeat dotdot k ->
  Forall (fun c => c = dotdot) acc /\ k <> 0%nat.
Proof.
  intros Hr E. apply app_eq_inv in E as [(m & -> & Hm)|(m & -> & Hm)].
  - destruct k as [|k]; [by destruct m|]. split; [|done].
    apply repeat_eq_app in Hm as [_ Hm]. cbn [length repeat] in Hm. injection Hm as Hm.
    rewrite <- Hm. apply Forall_forall. intros x Hx%list_elem_of_In. by apply repeat_spec in Hx.
  - destruct m as [|x m].
    + cbn in Hm. symmetry in Hm. destruct k; [done|]. injection Hm as Hm.
      split; [|done]. rewrite <- Hm. apply Forall_forall. intros y Hy%list_elem_of_In. by apply repeat_spec in Hy.
    + injection Hm as <- _. apply Forall_app in Hr as [_ Hr]. by apply Forall_cons in Hr as [? _].
Qed.

(** On components already in shape the loop changes nothing. *)
Lemma norm_comps_id (rooted : bool) (acc post : list (list Z)) :
  acc_ok rooted (rev post ++ acc) -> norm_comps rooted acc post = rev acc ++ post.
Proof.
  revert acc. induction post as [|c post IH]; intros acc Hok; cbn [norm_comps]; [by rewrite app_nil_r|].
  destruct Hok as [Hf Hshape]. cbn [rev] in Hf, Hshape. rewrite <- app_assoc in Hf, Hshape. cbn [app] in Hf, Hshape.
  apply Forall_app in Hf as [Hf1 Hf2]. apply Forall_cons in Hf2 as [(Hc1 & Hc2 & Hc3) Hf2].
  rewrite (str_eqb_false c []), (str_eqb_false c dot) by done. cbn [orb].
  assert (Hpush : negb (str_eqb c dotdot) || (negb rooted && match acc with [] => true | _ => false end)
                  || match acc with last :: _ => str_eqb last dotdot | [] => false end = true).
  { rewrite str_eqb_eq. case_bool_decide as Hd; [subst c|done]. cbn [negb orb].
    destruct Hshape as (r & k & E & Hr & Hk). destruct (dotdot_tail _ _ _ _ Hr E) as [Ha Hk0].
    destruct rooted; [by specialize (Hk eq_refl)|]. destruct acc as [|a acc]; [done|].
    cbn [negb andb orb]. apply Forall_cons in Ha as [-> _]. by rewrite str_eqb_refl. }
  rewrite Hpush. rewrite IH.
  - cbn [rev]. by rewrite <- app_assoc.
  - split; [apply Forall_app; split; [done|by constructor]|]. done.
Qed.
Definition root_ok (root : list Z) : Prop := root = [] \/ root = [sep] \/ root = [sep; sep].

Lemma splitroot_root (p : list Z) : root_ok (fst (splitroot p)).
Proof. unfold splitroot, root_ok. repeat case_match; cbn [fst]; auto. Qed.

(** What [normpath] returns: [.], or a root and components in shape. *)
Lemma normpath_shape (p : list Z) :
  normpath p = dot \/
  exists root comps, normpath p = root ++ Str.join sep comps /\ root_ok root /\
    acc_ok (negb (str_eqb root [])) (rev comps) /\ root ++ Str.join sep comps <> [].
Proof.
  destruct p as [|c p']; [by left|]. unfold normpath.
  pose proof (splitroot_root (c :: p')) as Hr.
  destruct (splitroot (c :: p')) as [root rest]. cbn [fst] in Hr.
  set (comps := norm_comps (negb (str_eqb root [])) [] (split sep rest)).
  assert (Hok : acc_ok (negb (str_eqb root [])) (rev comps)).
  { apply norm_comps_ok; [|apply StrFacts.split_pieces_sep_free].
    split; [done|]. exists [], 0%nat. done. }
  destruct (root ++ Str.join sep comps) as [|x q] eqn:E; [by left|].
  right. exists root, comps. rewrite E. done.
Qed.

Lemma splitroot_shape (root : list Z) (comps : list (list Z)) :
  root_ok root -> Forall comp_ok comps -> root ++ Str.join sep comps <> [] ->
  splitroot (root ++ Str.join sep comps) = (root, Str.join sep comps).
Proof.
  intros Hr Hc Hne. destruct comps as [|[|x c] cs].
  - rewrite app_nil_r in Hne |- *. destruct Hr as [->|[->| ->]]; done.
  - by apply Forall_cons in Hc as [(? & _) _].
  - apply Forall_cons in Hc as [(_ & _ & Hx) _].
    assert (Hxs : is_sep x = false).
    { apply Z.eqb_neq. intros ->. apply Hx. constructor. }
    rewrite StrFacts.join_cons_char.
    destruct Hr as [->|[->| ->]]; cbn [app splitroot]; rewrite ?Hxs; cbn [negb]; try done.
Qed.

(** [normpath] changes nothing on a path in its own shape. *)
Lemma normpath_of_shape (root : list Z) (comps : list (list Z)) :
  root_ok root -> acc_ok (negb (str_eqb root [])) (rev comps) -> root ++ Str.join sep comps <> [] ->
  normpath (root ++ Str.join sep comps) = root ++ Str.join sep comps.
Proof.
  intros Hr Hok Hne. pose proof Hok as [Hf _]. apply Forall_rev in Hf. rewrite rev_involutive in Hf.
  unfold normpath. destruct (root ++ Str.join sep comps) as [|y q] eqn:E; [done|]. rewrite <- E.
  rewrite splitroot_shape by first [exact Hf|rewrite E; done|done].
  assert (Hs : norm_comps (negb (str_eqb root [])) [] (split sep (Str.join sep comps)) = comps).
  { destruct comps as [|c cs]; [done|].
    rewrite StrFacts.join_split; [|done|by eapply Forall_impl; [exact Hf|]; intros f (_ & _ & ?)].
    rewrite norm_comps_id; [done|by rewrite app_nil_r]. }
  rewrite Hs, E. done.
Qed.
(** ** Absolute paths *)

Lemma from_sep_snoc (l : list Z) : exists t, from_sep (l ++ [sep]) = t ++ [sep].
Proof.
  induction l as [|c l IH]; [by exists []|]. cbn [app from_sep].
  destruct (is_sep c); [by exists (c :: l)|done].
Qed.

Lemma lstrip_app (l m : list Z) :
  Exists (fun c => is_sep c = false) l -> lstrip sep (l ++ m) = lstrip sep l ++ m.
Proof.
  induction 1 as [c l Hc|c l _ IH]; cbn [app lstrip]; unfold is_sep in *.
  - by rewrite Hc.
  - by destruct (Z.eqb c sep).
Qed.

Lemma isabs_cons (p : list Z) : isabs p = true -> exists r, p = sep :: r.
Proof. destruct p as [|c r]; [done|]. cbn. intros ->%Z.eqb_eq. by exists r. Qed.

Lemma isabs_join (a b : list Z) : isabs a = true -> isabs (join a b) = true.
Proof.
  intros (r & ->)%isabs_cons. unfold join. destruct (isabs b) eqn:E; [done|].
  case_match; done.
Qed.

Lemma isabs_normpath (p : list Z) : isabs p = true -> isabs (normpath p) = true.
Proof.
  intros (r & ->)%isabs_cons. unfold normpath.
  assert (Hr : exists r', fst (splitroot (sep :: r)) = sep :: r').
  { cbn [splitroot]. repeat case_match; eauto; done. }
  destruct (splitroot (sep :: r)) as [root rest]. destruct Hr as (r' & Hr). cbn [fst] in Hr. subst root.
  reflexivity.
Qed.

Lemma isabs_dirname (p : list Z) : isabs p = true -> isabs (dirname p) = true.
Proof.
  intros (r & ->)%isabs_cons. unfold dirname, head_part. cbn [rev].
  destruct (from_sep_snoc (rev r)) as (t & ->). rewrite rev_app_distr. cbn [rev app].
  destruct (forallb is_sep (sep :: rev t)) eqn:E; cbn [negb]; [reflexivity|].
  unfold rstrip. cbn [rev]. rewrite lstrip_app.
  - rewrite rev_app_distr. reflexivity.
  - apply Exists_rev. cbn [forallb] in E. change (is_sep sep) with true in E.
    by apply forallb_false_Exists.
Qed.

End PathFacts.

(** C39: The default configuration file is the named file in the
    directory of the running script: the directory of the default path is
    the directory of [abspath(__file__)] and its last component is the
    name, for any current directory and any script path. *)
Theorem default_config_beside_script (cwd file name : list Z) :
  name <> [] -> Forall (fun c => c <> 47) name ->
  PosixPath.dirname (find_default_config_path cwd file name) = PosixPath.dirname (PosixPath.abspath cwd file) /\
  PosixPath.basename (find_default_config_path cwd file name) = name.
Proof.
  intros Hne Hn. apply PathFacts.dirname_join; [done|].
  eapply Forall_impl; [exact Hn|]. intros c Hc. by apply Z.eqb_neq.
Qed.

(** C34: Whatever the script path, the default configuration path is
    absolute when the current directory is (as [os.getcwd()] always is):
    [read_config] is given an absolute path. *)
Theorem default_config_absolute (cwd file name : list Z) :
  PosixPath.isabs cwd = true -> PosixPath.isabs (find_default_config_path cwd file name) = true.
Proof.
  intros Hc. unfold find_default_config_path. apply PathFacts.isabs_join, PathFacts.isabs_dirname.
  unfold PosixPath.abspath. apply PathFacts.isabs_normpath.
  destruct (PosixPath.isabs file) eqn:E; [done|]. by apply PathFacts.isabs_join.
Qed.

(** [os.path.normpath] is idempotent: normalising a normalised path
    changes nothing, so [abspath(__file__)] is already in the form
    [dirname] expects. *)
Theorem normpath_idempotent (p : list Z) :
  PosixPath.normpath (PosixPath.normpath p) = PosixPath.normpath p.
Proof.
  destruct (PathFacts.normpath_shape p) as [->|(root & comps & -> & Hr & Hok & Hne)]; [done|].
  by apply PathFacts.normpath_of_shape.
Qed.

Lemma default_config_beside_script_witness :
  lit "config.yaml" <> [] /\ Forall (fun c => c <> 47) (lit "config.yaml") /\
  PosixPath.basename (find_default_config_path (lit "/srv") (lit "bsv/./app.py") (lit "config.yaml"))
    = lit "config.yaml" /\
  find_default_config_path (lit "/srv") (lit "bsv/./app.py") (lit "config.yaml") = lit "/srv/bsv/config.yaml".
Proof.
  split; [vm_compute; discriminate|]. split; [vm_compute; repeat constructor; discriminate|].
  split; [|vm_compute; reflexivity].
  apply (default_config_beside_script (lit "/srv") (lit "bsv/./app.py") (lit "config.yaml"));
    [vm_compute; discriminate|vm_compute; repeat constructor; discriminate].
Defined.

Lemma default_config_absolute_witness :
  PosixPath.isabs (lit "/home/pi") = true /\
  PosixPath.isabs (find_default_config_path (lit "/home/pi") (lit "../../opt/bsv/app.py") (lit "config.yaml")) = true.
Proof.
  split; [vm_compute; reflexivity|]. apply default_config_absolute. vm_compute. reflexivity.
Defined.
