(* ===== verification/Utf8.v ===== *)
(** * UTF-8 decoding of the response body (src/app.py, lines 165 and 174)

    On a 200 response the code sets [res.encoding = 'UTF-8'] (line 165)
    before reading [res.text] (line 174); requests then computes
    [str(res.content, 'UTF-8', errors='replace')].  [Utf8.decode] is that
    decoder as CPython implements it ([Objects/stringlib/codecs.h] with
    the [replace] handler): a well-formed sequence of one to four bytes
    (no overlong form, no surrogate, nothing above U+10FFFF) gives its
    code point; otherwise the maximal ill-formed subpart (the longest
    prefix of a well-formed sequence, or a single byte) gives one U+FFFD
    and decoding resumes after it.  No byte-order mark is removed.
    Bytes are integers in [0, 255].

    [encode] (what the device sends when it writes UTF-8) is not code of
    the program; it serves to state the round trip. *)

From S2P Require Import Prelude.

Module Utf8.

(** A continuation byte, 0x80-0xBF. *)

Definition cont (b : Z) : bool := (128 <=? b) && (b <=? 191).

(** The second byte allowed after the lead byte [b0] of a three- or
    four-byte sequence: no overlong form (E0, F0), no surrogate (ED),
    nothing above U+10FFFF (F4). *)
Definition second_ok (b0 b1 : Z) : bool :=
  if b0 =? 224 then (160 <=? b1) && (b1 <=? 191)
  else if b0 =? 237 then (128 <=? b1) && (b1 <=? 159)
  else if b0 =? 240 then (144 <=? b1) && (b1 <=? 191)
  else if b0 =? 244 then (128 <=? b1) && (b1 <=? 143)
  else cont b1.

(** [bytes.decode('utf-8', 'replace')]; 65533 is U+FFFD. *)
Fixpoint decode (bs : list Z) : list Z :=
  match bs with
  | [] => []
  | b0 :: tl =>
      if b0 <? 128 then b0 :: decode tl
      else if (b0 <? 194) || (244 <? b0) then 65533 :: decode tl
      else if b0 <? 224 then
        match tl with
        | b1 :: tl1 =>
            if cont b1 then (64 * (b0 - 192) + (b1 - 128)) :: decode tl1
            else 65533 :: decode tl
        | [] => [65533]
        end
      else if b0 <? 240 then
        match tl with
        | b1 :: tl1 =>
            if second_ok b0 b1 then
              match tl1 with
              | b2 :: tl2 =>
                  if cont b2 then (4096 * (b0 - 224) + 64 * (b1 - 128) + (b2 - 128)) :: decode tl2
                  else 65533 :: decode tl1
              | [] => [65533]
              end
            else 65533 :: decode tl
        | [] => [65533]
        end
      else
        match tl with
        | b1 :: tl1 =>
            if second_ok b0 b1 then
              match tl1 with
              | b2 :: tl2 =>
                  if cont b2 then
                    match tl2 with
                    | b3 :: tl3 =>
                        if cont b3 then
                          (262144 * (b0 - 240) + 4096 * (b1 - 128) + 64 * (b2 - 128) + (b3 - 128))
                            :: decode tl3
                        else 65533 :: decode tl2
                    | [] => [65533]
                    end
                  else 65533 :: decode tl1
              | [] => [65533]
              end
            else 65533 :: decode tl
        | [] => [65533]
        end
  end.

(** A Unicode scalar value: a code point that is not a surrogate. *)
Definition is_scalar (c : Z) : bool :=
  (0 <=? c) && (c <? 1114112) && negb ((55296 <=? c) && (c <=? 57343)).

(** The UTF-8 encoding of one scalar value. *)
Definition encode_char (c : Z) : list Z :=
  if c <? 128 then [c]
  else if c <? 2048 then [192 + c / 64; 128 + c mod 64]
  else if c <? 65536 then [224 + c / 4096; 128 + (c / 64) mod 64; 128 + c mod 64]
  else [240 + c / 262144; 128 + (c / 4096) mod 64; 128 + (c / 64) mod 64; 128 + c mod 64].

Definition is_byte (b : Z) : bool := (0 <=? b) && (b <=? 255).

(** Whether a byte string starts with a continuation byte. *)
Definition starts_cont (bs : list Z) : bool :=
  match bs with b :: _ => cont b | [] => false end.

Definition encode (s : list Z) : list Z := flat_map encode_char s.

Lemma cont_spec (b : Z) : cont b = true <-> 128 <= b <= 191.
Proof. unfold cont. rewrite andb_true_iff, Z.leb_le, Z.leb_le. done. Qed.

Lemma decode_1 (b : Z) (bs : list Z) : b < 128 -> decode (b :: bs) = b :: decode bs.
Proof. intros. cbn [decode]. by zdecide. Qed.

Lemma decode_2 (b0 b1 : Z) (bs : list Z) :
  194 <= b0 < 224 -> cont b1 = true ->
  decode (b0 :: b1 :: bs) = (64 * (b0 - 192) + (b1 - 128)) :: decode bs.
Proof.
  intros ? Hb. remember (b1 :: bs) as tl eqn:Etl. cbn [decode]. zdecide.
  subst tl. cbv beta iota. by rewrite Hb.
Qed.

Lemma decode_3 (b0 b1 b2 : Z) (bs : list Z) :
  224 <= b0 < 240 -> second_ok b0 b1 = true -> cont b2 = true ->
  decode (b0 :: b1 :: b2 :: bs) = (4096 * (b0 - 224) + 64 * (b1 - 128) + (b2 - 128)) :: decode bs.
Proof.
  intros ? Hb1 Hb2. remember (b1 :: b2 :: bs) as tl eqn:Etl. cbn [decode]. zdecide.
  subst tl. cbv beta iota. by rewrite Hb1, Hb2.
Qed.

Lemma decode_4 (b0 b1 b2 b3 : Z) (bs : list Z) :
  240 <= b0 <= 244 -> second_ok b0 b1 = true -> cont b2 = true -> cont b3 = true ->
  decode (b0 :: b1 :: b2 :: b3 :: bs)
  = (262144 * (b0 - 240) + 4096 * (b1 - 128) + 64 * (b2 - 128) + (b3 - 128)) :: decode bs.
Proof.
  intros ? Hb1 Hb2 Hb3. remember (b1 :: b2 :: b3 :: bs) as tl eqn:Etl. cbn [decode]. zdecide.
  subst tl. cbv beta iota. by rewrite Hb1, Hb2, Hb3.
Qed.

Lemma is_scalar_spec (c : Z) :
  is_scalar c = true <-> 0 <= c < 1114112 /\ ~ (55296 <= c <= 57343).
Proof.
  unfold is_scalar.
  destruct (Z.leb_spec 0 c), (Z.ltb_spec c 1114112), (Z.leb_spec 55296 c), (Z.leb_spec c 57343);
    cbn; split; intros; (lia || done).
Qed.

Lemma is_byte_spec (b : Z) : is_byte b = true <-> 0 <= b <= 255.
Proof. unfold is_byte. rewrite andb_true_iff, !Z.leb_le. done. Qed.

Lemma second_ok_spec (b0 b1 : Z) :
  second_ok b0 b1 = true ->
  128 <= b1 <= 191 /\ (b0 = 224 -> 160 <= b1) /\ (b0 = 237 -> b1 <= 159) /\
  (b0 = 240 -> 144 <= b1) /\ (b0 = 244 -> b1 <= 143).
Proof. unfold second_ok, cont. zbool; rewrite ?andb_true_iff, ?Z.leb_le; lia. Qed.

(** The bytes [encode_char] writes for a scalar value, by its length. *)
Lemma encode_char_shape (c : Z) :
  is_scalar c = true ->
  (0 <= c < 128 /\ encode_char c = [c]) \/
  (exists b0 b1, encode_char c = [b0; b1] /\ 194 <= b0 < 224 /\ cont b1 = true /\
     c = 64 * (b0 - 192) + (b1 - 128)) \/
  (exists b0 b1 b2, encode_char c = [b0; b1; b2] /\ 224 <= b0 < 240 /\
     second_ok b0 b1 = true /\ cont b2 = true /\
     c = 4096 * (b0 - 224) + 64 * (b1 - 128) + (b2 - 128)) \/
  (exists b0 b1 b2 b3, encode_char c = [b0; b1; b2; b3] /\ 240 <= b0 <= 244 /\
     second_ok b0 b1 = true /\ cont b2 = true /\ cont b3 = true /\
     c = 262144 * (b0 - 240) + 4096 * (b1 - 128) + 64 * (b2 - 128) + (b3 - 128)).
Proof.
  rewrite is_scalar_spec. intros [Hc Hsur]. unfold encode_char.
  destruct (Z.ltb_spec c 128); [left; split; [lia|reflexivity]|right].
  assert (E : c = 262144 * (c / 262144) + 4096 * ((c / 4096) mod 64) + 64 * ((c / 64) mod 64) + c mod 64
               /\ 64 * (c / 64) = 4096 * (c / 4096) + 64 * ((c / 64) mod 64)
               /\ 4096 * (c / 4096) = 262144 * (c / 262144) + 4096 * ((c / 4096) mod 64)
               /\ 0 <= (c / 4096) mod 64 < 64 /\ 0 <= (c / 64) mod 64 < 64 /\ 0 <= c mod 64 < 64)
    by (Z.div_mod_to_equations; lia).
  set (r0 := c mod 64) in *. set (r1 := (c / 64) mod 64) in *. set (r2 := (c / 4096) mod 64) in *.
  set (q1 := c / 64) in *. set (q2 := c / 4096) in *. set (q3 := c / 262144) in *.
  clearbody r0 r1 r2 q1 q2 q3. destruct E as (E & E1 & E2 & B2 & B1 & B0).
  destruct (Z.ltb_spec c 2048); [|destruct (Z.ltb_spec c 65536)]; cbv beta iota.
  - left. eexists _, _. split; [reflexivity|]. rewrite cont_spec. lia.
  - right; left. eexists _, _, _. split; [reflexivity|]. rewrite cont_spec.
    unfold second_ok, cont. split; [lia|]. split; [zbool; done|lia].
  - right; right. eexists _, _, _, _. split; [reflexivity|]. rewrite !cont_spec.
    unfold second_ok, cont. split; [lia|]. split; [zbool; done|lia].
Qed.

Lemma decode_encode_char (c : Z) (bs : list Z) :
  is_scalar c = true -> decode (encode_char c ++ bs) = c :: decode bs.
Proof.
  intros H.
  destruct (encode_char_shape c H) as [[? ->]|[(b0 & b1 & -> & ? & ? & ->)
    |[(b0 & b1 & b2 & -> & ? & ? & ? & ->)|(b0 & b1 & b2 & b3 & -> & ? & ? & ? & ? & ->)]]];
    cbn [app].
  - apply decode_1; lia.
  - by apply decode_2.
  - by apply decode_3.
  - by apply decode_4.
Qed.

Lemma decode_encode_app (s bs : list Z) :
  Forall (fun c => is_scalar c = true) s -> decode (encode s ++ bs) = s ++ decode bs.
Proof.
  intros Hs. induction Hs as [|c s Hc _ IH]; [done|].
  change (encode (c :: s)) with (encode_char c ++ encode s).
  rewrite <- app_assoc, decode_encode_char by done. by rewrite IH.
Qed.

(** C30: Decoding gives back any text of Unicode scalar values that was
    encoded as UTF-8: the device's table reaches the parser unchanged. *)
Theorem decode_encode (s : list Z) :
  Forall (fun c => is_scalar c = true) s -> decode (encode s) = s.
Proof. intros Hs. pose proof (decode_encode_app s [] Hs) as H. by rewrite !app_nil_r in H. Qed.

(** Turns the decoder's boolean facts into arithmetic ones. *)
Ltac byte_facts :=
  repeat match goal with
  | H : (_ <? _) = true |- _ => apply Z.ltb_lt in H
  | H : (_ <? _) = false |- _ => apply Z.ltb_ge in H
  | H : (_ <=? _) = true |- _ => apply Z.leb_le in H
  | H : (_ <=? _) = false |- _ => apply Z.leb_gt in H
  | H : _ || _ = false |- _ => apply orb_false_iff in H as [? ?]
  | H : _ && _ = true |- _ => apply andb_true_iff in H as [? ?]
  | H : cont _ = true |- _ => apply cont_spec in H
  | H : second_ok _ _ = true |- _ => apply second_ok_spec in H
  | H : is_byte _ = true |- _ => apply is_byte_spec in H
  | H : Forall _ (_ :: _) |- _ => apply Forall_cons in H as [? ?]
  end.

(** One step of the decoder: one character, after consuming the lead
    byte and at most three more. *)
Lemma decode_step (b0 : Z) (tl : list Z) :
  exists c k, (k <= 3)%nat /\ decode (b0 :: tl) = c :: decode (drop k tl) /\
    (is_byte b0 = true -> Forall (fun b => is_byte b = true) tl -> is_scalar c = true).
Proof.
  cbn [decode]. repeat case_match; subst; simplify_eq;
    match goal with
    | |- exists c k, _ /\ ?c0 :: _ = _ /\ _ =>
        exists c0;
        first [exists 0%nat; split; [lia|split; [reflexivity|]]
              |exists 1%nat; split; [lia|split; [reflexivity|]]
              |exists 2%nat; split; [lia|split; [reflexivity|]]
              |exists 3%nat; split; [lia|split; [reflexivity|]]]
    end;
    intros Hb0 Hbs; rewrite is_scalar_spec; byte_facts; lia.
Qed.


Lemma decode_scalar_chars (bs : list Z) :
  Forall (fun b => is_byte b = true) bs -> Forall (fun c => is_scalar c = true) (decode bs).
Proof.
  induction bs as [[|b0 tl] IH] using list_length_ind; intros Hbs; [constructor|].
  destruct (decode_step b0 tl) as (c & k & Hk & -> & Hc).
  apply Forall_cons in Hbs as [Hb0 Htl]. constructor; [by apply Hc|].
  apply IH; [rewrite length_drop; simpl; lia|]. by apply Forall_drop.
Qed.

(** C31: [res.text] holds only Unicode scalar values: whatever bytes the
    device sends, decoding never fails and never yields a surrogate or a
    value above U+10FFFF. *)
Theorem decode_scalar (bs : list Z) :
  Forall (fun b => is_byte b = true) bs -> Forall (fun c => is_scalar c = true) (decode bs).
Proof. apply decode_scalar_chars. Qed.

(** Decoding never yields more characters than there are bytes. *)
Theorem decode_length (bs : list Z) : (length (decode bs) <= length bs)%nat.
Proof.
  induction bs as [[|b0 tl] IH] using list_length_ind; [done|].
  destruct (decode_step b0 tl) as (c & k & Hk & -> & _). simpl.
  assert (length (decode (drop k tl)) <= length (drop k tl))%nat
    by (apply IH; rewrite length_drop; simpl; lia).
  rewrite length_drop in *. lia.
Qed.

(** Bytes below 128 decode to themselves, one character each. *)
Theorem decode_ascii (bs : list Z) : Forall (fun b => b < 128) bs -> decode bs = bs.
Proof. induction 1; [done|]. rewrite decode_1 by done. congruence. Qed.

(** A byte that cannot start a sequence (a continuation byte, C0,
    C1, F5-FF) becomes one U+FFFD, and decoding resumes at the next
    byte. *)
Theorem decode_invalid_lead (b : Z) (bs : list Z) :
  128 <= b < 194 \/ 244 < b -> decode (b :: bs) = 65533 :: decode bs.
Proof. intros [Hb|Hb]; cbn [decode]; by zdecide. Qed.

(** A sequence cut short before a byte that does not continue it. *)
Lemma decode_trunc2 (b0 : Z) (bs : list Z) :
  194 <= b0 < 224 -> starts_cont bs = false -> decode (b0 :: bs) = 65533 :: decode bs.
Proof.
  intros ? Hs. cbn [decode]. zdecide.
  destruct bs as [|b bs']; [done|]. cbv beta iota. cbn [starts_cont] in Hs. by rewrite Hs.
Qed.

Lemma decode_trunc3 (b0 b1 : Z) (bs : list Z) :
  224 <= b0 < 240 -> second_ok b0 b1 = true -> starts_cont bs = false ->
  decode (b0 :: b1 :: bs) = 65533 :: decode bs.
Proof.
  intros ? Hb1 Hs. remember (b1 :: bs) as tl eqn:Etl. cbn [decode]. zdecide.
  subst tl. cbv beta iota. rewrite Hb1.
  destruct bs as [|b bs']; [done|]. cbv beta iota. cbn [starts_cont] in Hs. by rewrite Hs.
Qed.

Lemma decode_trunc4 (b0 b1 b2 : Z) (bs : list Z) :
  240 <= b0 <= 244 -> second_ok b0 b1 = true -> cont b2 = true -> starts_cont bs = false ->
  decode (b0 :: b1 :: b2 :: bs) = 65533 :: decode bs.
Proof.
  intros ? Hb1 Hb2 Hs. remember (b1 :: b2 :: bs) as tl eqn:Etl. cbn [decode]. zdecide.
  subst tl. cbv beta iota. rewrite Hb1, Hb2.
  destruct bs as [|b bs']; [done|]. cbv beta iota. cbn [starts_cont] in Hs. by rewrite Hs.
Qed.

(** C32: A multi-byte character whose last byte is missing, followed by the
    end of the body or by a byte that is not a continuation byte, decodes
    to one U+FFFD (the maximal ill-formed subpart is replaced once), and
    decoding resumes after it. *)
Theorem decode_truncated (c : Z) (bs : list Z) :
  is_scalar c = true -> 128 <= c -> starts_cont bs = false ->
  decode (removelast (encode_char c) ++ bs) = 65533 :: decode bs.
Proof.
  intros H Hc Hs.
  destruct (encode_char_shape c H) as [[? ->]|[(b0 & b1 & -> & ? & ? & ->)
    |[(b0 & b1 & b2 & -> & ? & ? & ? & ->)|(b0 & b1 & b2 & b3 & -> & ? & ? & ? & ? & ->)]]];
    cbn [removelast app].
  - lia.
  - by apply decode_trunc2.
  - by apply decode_trunc3.
  - by apply decode_trunc4.
Qed.

(** ** Witnesses *)

(** h, e with acute accent, the euro sign and an emoji (U+1F600). *)
Definition sample_text : list Z := [104; 233; 8364; 128512].

Lemma decode_encode_witness :
  Forall (fun c => is_scalar c = true) sample_text /\ decode (encode sample_text) = sample_text.
Proof.
  assert (H : Forall (fun c => is_scalar c = true) sample_text) by (repeat constructor).
  split; [exact H | exact (decode_encode sample_text H)].
Defined.

(** ED A0 80 would be the surrogate U+D800: it gives three U+FFFD. *)
Lemma decode_scalar_witness :
  Forall (fun b => is_byte b = true) [237; 160; 128; 65; 255] /\
  Forall (fun c => is_scalar c = true) (decode [237; 160; 128; 65; 255]).
Proof.
  assert (H : Forall (fun b => is_byte b = true) [237; 160; 128; 65; 255]) by (repeat constructor).
  split; [exact H | exact (decode_scalar _ H)].
Defined.


Lemma decode_invalid_lead_witness :
  (128 <= 192 < 194 \/ 244 < 192) /\ decode [192; 65] = 65533 :: decode [65].
Proof.
  assert (H : 128 <= 192 < 194 \/ 244 < 192) by lia.
  split; [exact H | exact (decode_invalid_lead 192 [65] H)].
Defined.

(** The euro sign E2 82 AC without its last byte, before an A. *)
Lemma decode_truncated_witness :
  is_scalar 8364 = true /\ 128 <= 8364 /\ starts_cont [65] = false /\
  decode (removelast (encode_char 8364) ++ [65]) = 65533 :: decode [65].
Proof.
  split; [reflexivity|]. split; [lia|]. split; [reflexivity|].
  apply decode_truncated; [reflexivity | lia | reflexivity].
Defined.
End Utf8.
