(* ===== verification/PyFloat.v ===== *)
(** * Python [float]: IEEE-754 binary64 and [float(s)]

    Floats are the Standard Library's [spec_float] at binary64
    ([prec] = 53, [emax] = 1024), whose operations ([SFmul],
    [binary_normalize], [binary_round_aux]) are executable and round to
    nearest, ties to even, as CPython's C doubles do.

    [py_float] is CPython's [float(s)] for a [str] ([PyFloat_FromString]
    in [Objects/floatobject.c]): non-ASCII whitespace becomes a space, a
    decimal digit of any script the ASCII digit of its value, and any
    other non-ASCII character makes it fail
    ([_PyUnicode_TransformDecimalAndSpaceToASCII]); underscores are
    accepted only between digits ([_Py_string_to_number_with_underscores]);
    surrounding ASCII whitespace is stripped ([float_from_string_inner]);
    the rest must be, in full, a decimal literal ([_Py_dg_strtod]: sign,
    digits with an optional point, optional exponent) or [inf],
    [infinity], [nan] in any case with a sign ([_Py_parse_inf_or_nan]).
    The decimal value m * 10^e is rounded once, correctly, to binary64.

    [fmul] is [float.__mul__]; [float_of_int] is the conversion of a
    Python [int] operand ([value * 1000] on line 190). *)

From S2P Require Import Prelude PyText.
From Stdlib Require Import SpecFloat.

Abbreviation float := spec_float.

Definition prec : Z := 53.
Definition emax : Z := 1024.

(** [x * y] on two floats. *)
Definition fmul (x y : float) : float := SFmul prec emax x y.

(** [float(n)] for a Python [int] [n], as [x * n] converts it. *)
Definition float_of_int (n : Z) : float := binary_normalize prec emax n 0 false.

(** A binary64 value as a (valid) float of the model. *)
Definition valid (x : float) : bool := valid_binary prec emax x.

Module FloatParse.

(** The character classes of CPython's parser. *)
Definition is_digit (c : Z) : bool := (48 <=? c) && (c <=? 57).

(** [Py_ISSPACE]: ASCII whitespace. *)
Definition is_ascii_space (c : Z) : bool := existsb (Z.eqb c) [9; 10; 11; 12; 13; 32].

(** [Py_UNICODE_ISSPACE]: the Unicode whitespace code points. *)
Definition is_unicode_space (c : Z) : bool :=
  existsb (Z.eqb c)
    [9; 10; 11; 12; 13; 28; 29; 30; 31; 32; 133; 160; 5760;
     8192; 8193; 8194; 8195; 8196; 8197; 8198; 8199; 8200; 8201; 8202;
     8232; 8233; 8239; 8287; 12288].

(** The first code point of each run of ten decimal digits (general
    category Nd, Numeric_Type Decimal) of Unicode 14.0, the database of
    CPython 3.11: the ASCII digits, Arabic-Indic, Devanagari, ..., the
    fullwidth digits (65296), the mathematical digits (120782-120822),
    ... . *)
Definition decimal_zeros : list Z :=
  [48; 1632; 1776; 1984; 2406; 2534; 2662; 2790; 2918; 3046; 3174; 3302;
   3430; 3558; 3664; 3792; 3872; 4160; 4240; 6112; 6160; 6470; 6608; 6784;
   6800; 6992; 7088; 7232; 7248; 42528; 43216; 43264; 43472; 43504; 43600;
   44016; 65296; 66720; 68912; 69734; 69872; 69942; 70096; 70384; 70736;
   70864; 71248; 71360; 71472; 71904; 72016; 72784; 73040; 73120; 92768;
   92864; 93008; 120782; 120792; 120802; 120812; 120822; 123200; 123632;
   125264; 130032].

(** [Py_UNICODE_TODECIMAL]: the decimal value of a digit, if it is one. *)
Definition to_decimal (c : Z) : option Z :=
  match find (fun z => (z <=? c) && (c <=? z + 9)) decimal_zeros with
  | Some z => Some (c - z)
  | None => None
  end.

(** [_PyUnicode_TransformDecimalAndSpaceToASCII]: characters below 127
    are kept, Unicode whitespace becomes a space, a decimal digit becomes
    the ASCII digit of its value; at any other character the function
    writes ['?'] and stops, which no literal accepts, so [float] fails. *)
Definition to_ascii (c : Z) : option Z :=
  if c <? 127 then Some c
  else if is_unicode_space c then Some 32
  else match to_decimal c with
       | Some d => Some (48 + d)
       | None => None
       end.

Fixpoint transform (s : list Z) : option (list Z) :=
  match s with
  | [] => Some []
  | c :: s' =>
      match to_ascii c, transform s' with
      | Some a, Some t => Some (a :: t)
      | _, _ => None
      end
  end.

(** [_Py_string_to_number_with_underscores]: an underscore must follow a
    digit and be followed by a digit; the underscores are dropped.
    [prev] is the previous character, 0 at the start. *)
Fixpoint drop_underscores (prev : Z) (s : list Z) : option (list Z) :=
  match s with
  | [] => if Z.eqb prev 95 then None else Some []
  | c :: s' =>
      if Z.eqb c 95 then
        if is_digit prev then drop_underscores c s' else None
      else if Z.eqb prev 95 && negb (is_digit c) then None
      else option_map (cons c) (drop_underscores c s')
  end.

(** Leading and trailing [Py_ISSPACE] characters stripped. *)
Fixpoint lstrip_space (s : list Z) : list Z :=
  match s with
  | c :: s' => if is_ascii_space c then lstrip_space s' else s
  | [] => []
  end.

Definition strip_space (s : list Z) : list Z :=
  rev (lstrip_space (rev (lstrip_space s))).

(** What a complete literal denotes. *)
Inductive literal :=
| LDec (neg : bool) (m : Z) (e : Z)   (** (-1)^neg * m * 10^e *)
| LInf (neg : bool)
| LNan.

Definition scan_sign (s : list Z) : bool * list Z :=
  match s with
  | c :: s' => if Z.eqb c 45 then (true, s') else if Z.eqb c 43 then (false, s') else (false, s)
  | [] => (false, [])
  end.

Fixpoint take_digits (s : list Z) : list Z * list Z :=
  match s with
  | c :: s' =>
      if is_digit c then let '(ds, r) := take_digits s' in (c :: ds, r) else ([], s)
  | [] => ([], [])
  end.

Definition digits_value (ds : list Z) : Z :=
  fold_left (fun acc c => acc * 10 + (c - 48)) ds 0.

(** The exponent part, which must end the string: an [e] or [E], an
    optional sign and at least one digit; an empty rest is exponent 0. *)
Definition scan_exponent (s : list Z) : option Z :=
  match s with
  | [] => Some 0
  | c :: s' =>
      if Z.eqb c 101 || Z.eqb c 69 then
        let '(neg, s'') := scan_sign s' in
        match take_digits s'' with
        | ((_ :: _) as ds, []) => Some (if neg then - digits_value ds else digits_value ds)
        | _ => None
        end
      else None
  end.

(** [_Py_dg_strtod] on the whole string: sign, integer digits, an
    optional point with fraction digits, at least one digit in all. *)
Definition scan_decimal (s : list Z) : option literal :=
  let '(neg, s1) := scan_sign s in
  let '(ip, s2) := take_digits s1 in
  let '(fp, s3) :=
    match s2 with
    | c :: s2' => if Z.eqb c 46 then take_digits s2' else ([], s2)
    | [] => ([], [])
    end in
  if (length ip + length fp =? 0)%nat then None
  else match scan_exponent s3 with
       | Some e => Some (LDec neg (digits_value (ip ++ fp)) (e - Z.of_nat (length fp)))
       | None => None
       end.

Definition to_lower (c : Z) : Z := if (65 <=? c) && (c <=? 90) then c + 32 else c.

(** [_Py_parse_inf_or_nan] on the whole string. *)
Definition scan_inf_nan (s : list Z) : option literal :=
  let '(neg, s1) := scan_sign s in
  let w := map to_lower s1 in
  if str_eqb w (lit "inf") || str_eqb w (lit "infinity") then Some (LInf neg)
  else if str_eqb w (lit "nan") then Some LNan
  else None.

(** M * 10^e rounded to nearest even: exactly scaled when e >= 0, by a
    correctly rounded division by 10^-e otherwise. *)
Definition round_decimal (neg : bool) (m e : Z) : float :=
  match m with
  | Zpos p =>
      if 0 <=? e then binary_normalize prec emax (cond_Zopp neg (Zpos p * 10 ^ e)) 0 neg
      else let '(q, ez, loc) := SFdiv_core_binary prec emax (Zpos p) 0 (10 ^ (- e)) 0 in
           binary_round_aux prec emax neg q ez loc
  | _ => S754_zero neg
  end.

Definition literal_value (l : literal) : float :=
  match l with
  | LDec neg m e => round_decimal neg m e
  | LInf neg => S754_infinity neg
  | LNan => S754_nan
  end.

End FloatParse.

Import FloatParse.

(** [float(s)] for a [str] [s]; [ValueError] when it is not a float. *)
Definition py_float (s : list Z) : result float :=
  match transform s with
  | None => Raise ValueError
  | Some t =>
      match drop_underscores 0 t with
      | None => Raise ValueError
      | Some u =>
          match strip_space u with
          | [] => Raise ValueError
          | v =>
              match scan_decimal v with
              | Some l => Ok (literal_value l)
              | None =>
                  match scan_inf_nan v with
                  | Some l => Ok (literal_value l)
                  | None => Raise ValueError
                  end
              end
          end
      end
  end.

(** [float(s)] raises nothing but ValueError. *)
Lemma py_float_error (s : list Z) (e : exn) : py_float s = Raise e -> e = ValueError.
Proof. unfold py_float. repeat case_match; congruence. Qed.

(** ** Exact scaling by powers of two *)

Module FloatFacts.

Lemma digits2_pos_shift (m : positive) (k : nat) :
  Zpos (digits2_pos (Nat.iter k xO m)) = Zpos (digits2_pos m) + Z.of_nat k.
Proof.
  induction k as [|k IH]; simpl; [lia|].
  rewrite Pos2Z.inj_succ, IH. lia.
Qed.

Lemma iter_pos_nat {A} (f : A -> A) (p : positive) (x : A) :
  iter_pos f p x = Nat.iter (Pos.to_nat p) f x.
Proof.
  revert x. induction p as [p IH|p IH|]; intros x; cbn [iter_pos].
  - rewrite Pos2Nat.inj_xI, !IH, <- Nat.iter_add, Nat.iter_succ_r.
    f_equal. lia.
  - rewrite Pos2Nat.inj_xO, !IH, <- Nat.iter_add. f_equal. lia.
  - reflexivity.
Qed.

Lemma shr_1_iter_shift (m : positive) (k : nat) :
  Nat.iter k shr_1 (Build_shr_record (Zpos (Nat.iter k xO m)) false false)
  = Build_shr_record (Zpos m) false false.
Proof.
  revert m. induction k as [|k IH]; intros m; [reflexivity|].
  rewrite Nat.iter_succ_r. simpl. rewrite IH. reflexivity.
Qed.

Lemma shr_shift (m : positive) (e : Z) (k : nat) :
  shr (Build_shr_record (Zpos (Nat.iter k xO m)) false false) (e - Z.of_nat k) (Z.of_nat k)
  = (Build_shr_record (Zpos m) false false, e).
Proof.
  destruct k as [|k]; [simpl; f_equal; lia|].
  unfold shr. change (Z.of_nat (S k)) with (Zpos (Pos.of_succ_nat k)). cbv beta iota.
  rewrite iter_pos_nat, SuccNat2Pos.id_succ, shr_1_iter_shift. f_equal. lia.
Qed.

(** Rounding a valid float's mantissa shifted left by k bits, at the
    exponent lowered by k, gives the float back. *)
Lemma round_aux_shift (s : bool) (m : positive) (e : Z) (k : nat) :
  bounded prec emax m e = true ->
  binary_round_aux prec emax s (Zpos (Nat.iter k xO m)) (e - Z.of_nat k) loc_Exact
  = S754_finite s m e.
Proof.
  unfold bounded, canonical_mantissa. intros [Hc He]%andb_prop.
  apply Z.eqb_eq in Hc. apply Z.leb_le in He.
  unfold binary_round_aux, shr_fexp, Zdigits2.
  rewrite digits2_pos_shift.
  replace (Zpos (digits2_pos m) + Z.of_nat k + (e - Z.of_nat k))
    with (Zpos (digits2_pos m) + e) by lia.
  rewrite Hc. replace (e - (e - Z.of_nat k)) with (Z.of_nat k) by lia.
  cbn [shr_record_of_loc]. rewrite shr_shift.
  cbn [shr_m loc_of_shr_record round_nearest_even].
  rewrite Hc, Z.sub_diag. cbn. by rewrite (proj2 (Z.leb_le _ _) He).
Qed.

Lemma mul_2_52 (m : positive) : (m * 4503599627370496)%positive = Nat.iter 52 xO m.
Proof. rewrite Pos.mul_comm. reflexivity. Qed.

(** ** Digits, shifts and the validity of rounded results *)

Lemma pow2_succ (d : Z) : 0 <= d -> 2 ^ (d + 1) = 2 * 2 ^ d.
Proof. intros. rewrite Z.pow_add_r by lia. lia. Qed.

Lemma digits2_bounds (p : positive) :
  2 ^ (Zpos (digits2_pos p) - 1) <= Zpos p < 2 ^ Zpos (digits2_pos p).
Proof.
  induction p as [p IH|p IH|]; cbn [digits2_pos]; [| |cbn; lia];
    rewrite (Pos2Z.inj_succ (digits2_pos p)), ?(Pos2Z.inj_xI p), ?(Pos2Z.inj_xO p);
    assert (1 <= Zpos (digits2_pos p)) by lia;
    generalize dependent (Zpos (digits2_pos p)); intros d IH Hd;
    replace (Z.succ d - 1) with d by lia; replace (Z.succ d) with (d + 1) by lia;
    pose proof (pow2_succ d ltac:(lia)); pose proof (pow2_succ (d - 1) ltac:(lia));
    replace (d - 1 + 1) with d in * by lia; lia.
Qed.

Lemma fexp64 (x : Z) : fexp prec emax x = Z.max (x - 53) (-1074).
Proof. reflexivity. Qed.

Ltac fexp_lia := repeat rewrite fexp64 in *; lia.

Lemma pow2_lt_inv (a b : Z) : 2 ^ a < 2 ^ b -> a < b.
Proof. intros H. destruct (Z.lt_ge_cases a b) as [|Hba]; [done|]. pose proof (Z.pow_le_mono_r 2 b a ltac:(lia) Hba). lia. Qed.

Lemma Zdigits2_bounds (m : Z) : 0 < m -> 2 ^ (Zdigits2 m - 1) <= m < 2 ^ Zdigits2 m.
Proof. destruct m as [|p|p]; [lia| |lia]. intros _. apply digits2_bounds. Qed.

Lemma Zdigits2_nonneg (m : Z) : 0 <= Zdigits2 m.
Proof. by destruct m. Qed.

Lemma Zdigits2_unique (m t : Z) : 1 <= t -> 2 ^ (t - 1) <= m < 2 ^ t -> Zdigits2 m = t.
Proof.
  intros Ht Hm. assert (0 < m) by (pose proof (Z.pow_pos_nonneg 2 (t - 1)); lia).
  pose proof (Zdigits2_bounds m H) as Hd.
  assert (Zdigits2 m - 1 < t) by (apply pow2_lt_inv; lia).
  assert (t - 1 < Zdigits2 m) by (apply pow2_lt_inv; lia). lia.
Qed.

Lemma Zdigits2_lower (m t : Z) : 0 <= t -> 2 ^ t <= m -> t < Zdigits2 m.
Proof.
  intros Ht Hm. pose proof (Z.pow_pos_nonneg 2 t ltac:(lia) Ht).
  pose proof (Zdigits2_bounds m ltac:(lia)). apply pow2_lt_inv. lia.
Qed.

Lemma Zdigits2_mono (a b : Z) : 0 <= a <= b -> Zdigits2 a <= Zdigits2 b.
Proof.
  intros Hab. destruct (Z.eq_dec a 0) as [->|]; [apply Zdigits2_nonneg|].
  pose proof (Zdigits2_bounds a ltac:(lia)). pose proof (Zdigits2_bounds b ltac:(lia)).
  assert (Zdigits2 a - 1 < Zdigits2 b) by (apply pow2_lt_inv; lia). lia.
Qed.

(** Shifting right by k bits a number of d digits, k < d, leaves d - k digits. *)
Lemma Zdigits2_div (m k : Z) : 0 <= m -> 0 <= k -> 0 < m / 2 ^ k -> Zdigits2 (m / 2 ^ k) = Zdigits2 m - k.
Proof.
  intros Hm Hk Hq. pose proof (Z.pow_pos_nonneg 2 k ltac:(lia) Hk).
  assert (2 ^ k <= m).
  { destruct (Z.lt_ge_cases m (2 ^ k)); [|done].
    rewrite Z.div_small in Hq; lia. }
  pose proof (Zdigits2_lower m k Hk H0). pose proof (Zdigits2_bounds m ltac:(lia)).
  apply Zdigits2_unique; [lia|]. split.
  - apply Z.div_le_lower_bound; [lia|]. rewrite <- Z.pow_add_r by lia.
    replace (k + (Zdigits2 m - k - 1)) with (Zdigits2 m - 1) by lia. lia.
  - apply Z.div_lt_upper_bound; [lia|]. rewrite <- Z.pow_add_r by lia.
    replace (k + (Zdigits2 m - k)) with (Zdigits2 m) by lia. lia.
Qed.

Lemma shr_1_m (r : shr_record) : 0 <= shr_m r -> shr_m (shr_1 r) = shr_m r / 2.
Proof.
  destruct r as [[|[p|p|]|p] rr ss]; cbn; intros; try lia;
    rewrite ?(Pos2Z.inj_xI p), ?(Pos2Z.inj_xO p); Z.div_mod_to_equations; lia.
Qed.

Lemma iter_shr_1_m (n : nat) (r : shr_record) :
  0 <= shr_m r -> shr_m (Nat.iter n shr_1 r) = shr_m r / 2 ^ Z.of_nat n.
Proof.
  intros H. induction n as [|n IH]; [by rewrite Z.div_1_r|]. rewrite Nat.iter_succ.
  rewrite shr_1_m, IH by (rewrite IH; apply Z.div_pos; lia).
  rewrite Z.div_div by lia. f_equal. rewrite Nat2Z.inj_succ, Z.pow_succ_r; lia.
Qed.

Lemma shr_spec (r : shr_record) (e n : Z) :
  0 <= shr_m r -> 0 <= n ->
  shr_m (fst (shr r e n)) = shr_m r / 2 ^ n /\ snd (shr r e n) = e + n.
Proof.
  intros Hm Hn. destruct n as [|p|p]; cbn [shr fst snd]; [|split; [|done]|lia].
  - rewrite Z.div_1_r. split; [done|lia].
  - by rewrite iter_pos_nat, iter_shr_1_m, positive_nat_Z.
Qed.

Lemma shr_fexp_spec (m e : Z) (l : location) :
  0 <= m -> e <= fexp prec emax (Zdigits2 m + e) ->
  shr_m (fst (shr_fexp prec emax m e l)) = m / 2 ^ (fexp prec emax (Zdigits2 m + e) - e) /\
  snd (shr_fexp prec emax m e l) = fexp prec emax (Zdigits2 m + e).
Proof.
  intros Hm He. unfold shr_fexp.
  assert (Hr : shr_m (shr_record_of_loc m l) = m) by (destruct l as [|[]]; reflexivity).
  destruct (shr_spec (shr_record_of_loc m l) e (fexp prec emax (Zdigits2 m + e) - e))
    as [H1 H2]; [lia|lia|].
  rewrite H1, H2, Hr. split; [done|lia].
Qed.

Lemma round_nearest_even_cases (x : Z) (l : location) :
  round_nearest_even x l = x \/ round_nearest_even x l = x + 1.
Proof. destruct l as [|[]]; cbn; try destruct (Z.even x); auto. Qed.

(** A shift that leaves nothing happens only in the subnormal range. *)
Lemma shift_zero (m e : Z) :
  0 <= m -> e <= fexp prec emax (Zdigits2 m + e) ->
  m / 2 ^ (fexp prec emax (Zdigits2 m + e) - e) = 0 -> fexp prec emax (Zdigits2 m + e) = -1074.
Proof.
  intros Hm He Hq. set (k := fexp prec emax (Zdigits2 m + e) - e) in *.
  assert (Zdigits2 m <= k).
  { destruct (Z.eq_dec m 0) as [->|]; [cbn; lia|].
    pose proof (Z.pow_pos_nonneg 2 k ltac:(lia) ltac:(lia)).
    assert (m < 2 ^ k).
    { destruct (Z.lt_ge_cases m (2 ^ k)) as [|Hge]; [done|].
      pose proof (Z.div_le_lower_bound m (2 ^ k) 1 ltac:(lia) ltac:(lia)). lia. }
    pose proof (Zdigits2_bounds m ltac:(lia)).
    assert (Zdigits2 m - 1 < k) by (apply pow2_lt_inv; lia). lia. }
  subst k. fexp_lia.
Qed.

Lemma shr_fexp_nonneg (m e : Z) (l : location) :
  0 <= m -> e <= fexp prec emax (Zdigits2 m + e) -> 0 <= shr_m (fst (shr_fexp prec emax m e l)).
Proof.
  intros Hm He. rewrite (proj1 (shr_fexp_spec m e l Hm He)).
  apply Z.div_pos; [lia|]. apply Z.pow_pos_nonneg; lia.
Qed.

(** Rounding an aligned mantissa (its exponent at most the one [fexp]
    chooses for it) gives a valid binary64 value. *)
Lemma round_aux_valid (s : bool) (mx ex : Z) (lx : location) :
  0 <= mx -> ex <= fexp prec emax (Zdigits2 mx + ex) ->
  valid_binary prec emax (binary_round_aux prec emax s mx ex lx) = true.
Proof.
  intros Hm Hal. unfold binary_round_aux.
  pose proof (shr_fexp_nonneg mx ex lx Hm Hal) as H0.
  destruct (shr_fexp_spec mx ex lx Hm Hal) as [Hm1 He1].
  destruct (shr_fexp prec emax mx ex lx) as [r1 e1]; cbn [fst snd] in Hm1, He1, H0.
  set (m2 := round_nearest_even (shr_m r1) (loc_of_shr_record r1)).
  assert (Hm2 : shr_m r1 <= m2 <= shr_m r1 + 1)
    by (destruct (round_nearest_even_cases (shr_m r1) (loc_of_shr_record r1)); unfold m2; lia).
  assert (Hal2 : e1 <= fexp prec emax (Zdigits2 m2 + e1)).
  { destruct (Z.eq_dec (shr_m r1) 0) as [Hz|Hnz].
    - rewrite Hz in Hm1. pose proof (shift_zero mx ex Hm Hal (eq_sym Hm1)).
      fexp_lia.
    - pose proof (Zdigits2_div mx (fexp prec emax (Zdigits2 mx + ex) - ex) Hm ltac:(lia)
                   ltac:(rewrite <- Hm1; lia)) as Hd.
      rewrite <- Hm1 in Hd. pose proof (Zdigits2_mono (shr_m r1) m2 ltac:(lia)).
      fexp_lia. }
  pose proof (shr_fexp_nonneg m2 e1 loc_Exact ltac:(lia) Hal2) as H3.
  destruct (shr_fexp_spec m2 e1 loc_Exact ltac:(lia) Hal2) as [Hm3 He3].
  destruct (shr_fexp prec emax m2 e1 loc_Exact) as [r3 e3]; cbn [fst snd] in Hm3, He3, H3.
  destruct (shr_m r3) as [|p|p] eqn:E3; [done| |lia].
  case_match; [|done]. cbn. unfold bounded, canonical_mantissa.
  apply andb_true_intro; split; [|done]. apply Z.eqb_eq.
  change (Zpos (digits2_pos p)) with (Zdigits2 (Zpos p)).
  rewrite Hm3, Zdigits2_div by lia. subst e3.
  f_equal. lia.
Qed.

Lemma digits2_shl (m d : positive) :
  Zpos (digits2_pos (Pos.iter xO m d)) = Zpos (digits2_pos m) + Zpos d.
Proof.
  apply (Pos.iter_ind _ xO m (fun d r => Zpos (digits2_pos r) = Zpos (digits2_pos m) + Zpos d));
    intros; cbv beta in *; cbn [digits2_pos]; rewrite !Pos2Z.inj_succ; lia.
Qed.

Lemma shl_align_aligned (mx : positive) (ex : Z) :
  let '(mz, ez) := shl_align mx ex (fexp prec emax (Zpos (digits2_pos mx) + ex)) in
  ez <= fexp prec emax (Zpos (digits2_pos mz) + ez).
Proof.
  unfold shl_align. destruct (fexp prec emax (Zpos (digits2_pos mx) + ex) - ex) as [|d|d] eqn:E;
    cbv beta iota; rewrite ?digits2_shl; fexp_lia.
Qed.

Lemma binary_normalize_valid (m e : Z) (sz : bool) :
  valid (binary_normalize prec emax m e sz) = true.
Proof.
  destruct m as [|p|p]; [done| |]; cbn [binary_normalize]; unfold binary_round;
    pose proof (shl_align_aligned p e) as H;
    destruct (shl_align p e _) as [mz ez]; by apply round_aux_valid.
Qed.

(** [SFmul] of two valid values rounds an aligned product: the product
    of two canonical mantissas has at least [d1 + d2 - 1] digits. *)
Lemma mul_aligned (mx my : positive) (ex ey : Z) :
  bounded prec emax mx ex = true -> bounded prec emax my ey = true ->
  ex + ey <= fexp prec emax (Zdigits2 (Zpos (mx * my)) + (ex + ey)).
Proof.
  unfold bounded, canonical_mantissa.
  intros [Hx _]%andb_prop [Hy _]%andb_prop. apply Z.eqb_eq in Hx, Hy.
  pose proof (Zdigits2_bounds (Zpos mx) ltac:(lia)) as Bx.
  pose proof (Zdigits2_bounds (Zpos my) ltac:(lia)) as By.
  pose proof (Zdigits2_lower (Zpos mx) 0 ltac:(lia) ltac:(lia)).
  pose proof (Zdigits2_lower (Zpos my) 0 ltac:(lia) ltac:(lia)).
  change (Zpos (digits2_pos mx)) with (Zdigits2 (Zpos mx)) in Hx.
  change (Zpos (digits2_pos my)) with (Zdigits2 (Zpos my)) in Hy.
  set (dx := Zdigits2 (Zpos mx)) in *. set (dy := Zdigits2 (Zpos my)) in *.
  assert (Hp : 2 ^ (dx - 1 + (dy - 1)) <= Zpos (mx * my)).
  { rewrite Z.pow_add_r, Pos2Z.inj_mul by lia. apply Z.mul_le_mono_nonneg; lia. }
  pose proof (Zdigits2_lower _ (dx - 1 + (dy - 1)) ltac:(lia) Hp). fexp_lia.
Qed.

Lemma div_core_aligned (p : positive) (n : Z) : 0 < n ->
  let '(q, e', l) := SFdiv_core_binary prec emax (Zpos p) 0 n 0 in
  0 <= q /\ e' <= fexp prec emax (Zdigits2 q + e').
Proof.
  intros Hn. unfold SFdiv_core_binary. cbv zeta.
  replace (Zdigits2 (Zpos p) + 0 - (Zdigits2 n + 0)) with (Zdigits2 (Zpos p) - Zdigits2 n) by lia.
  set (e' := Z.min (fexp prec emax (Zdigits2 (Zpos p) - Zdigits2 n)) (0 - 0)).
  assert (He' : e' <= 0) by lia.
  set (s := 0 - 0 - e').
  assert (Hm' : match s with 0 => Zpos p | Zpos _ => Z.shiftl (Zpos p) s | Zneg _ => 0 end
                = Zpos p * 2 ^ s).
  { destruct s as [|k|k] eqn:Es; [lia| |lia]. rewrite <- Es. apply Z.shiftl_mul_pow2. lia. }
  rewrite Hm'. destruct (Z.div_eucl (Zpos p * 2 ^ s) n) as [q r] eqn:Ed.
  assert (Hq : q = Zpos p * 2 ^ s / n) by (unfold Z.div; by rewrite Ed).
  pose proof (Z.pow_pos_nonneg 2 s ltac:(lia) ltac:(lia)).
  split; [rewrite Hq; apply Z.div_pos; lia|].
  destruct (Z.eq_dec e' (-1074)) as [Hmin|Hmin]; [fexp_lia|].
  pose proof (Zdigits2_bounds (Zpos p) ltac:(lia)) as Hp.
  pose proof (Zdigits2_bounds n Hn) as Hb.
  pose proof (Zdigits2_lower (Zpos p) 0 ltac:(lia) ltac:(lia)).
  pose proof (Zdigits2_lower n 0 ltac:(lia) ltac:(lia)).
  set (d1 := Zdigits2 (Zpos p)) in *. set (d2 := Zdigits2 n) in *.
  assert (Ht : 52 <= s + d1 - d2 - 1) by (subst s e'; fexp_lia).
  assert (Hlow : 2 ^ (s + d1 - d2 - 1) <= q).
  { rewrite Hq. apply Z.div_le_lower_bound; [lia|].
    pose proof (Z.pow_pos_nonneg 2 (s + d1 - d2 - 1) ltac:(lia) ltac:(lia)).
    assert (2 ^ d2 * 2 ^ (s + d1 - d2 - 1) = 2 ^ s * 2 ^ (d1 - 1)).
    { rewrite <- !Z.pow_add_r by lia. f_equal. lia. }
    nia. }
  pose proof (Zdigits2_lower q (s + d1 - d2 - 1) ltac:(lia) Hlow).
  subst s e'. fexp_lia.
Qed.

(** ** Exactness on representable values *)

Lemma pos_iter_xO (m : positive) (k : nat) : Zpos (Nat.iter k xO m) = Zpos m * 2 ^ Z.of_nat k.
Proof.
  induction k as [|k IH]; [cbn; lia|].
  rewrite Nat.iter_succ, Pos2Z.inj_xO, IH, Nat2Z.inj_succ, Z.pow_succ_r; lia.
Qed.

Lemma pos_iter_xO' (m d : positive) : Zpos (Pos.iter xO m d) = Zpos m * 2 ^ Zpos d.
Proof.
  rewrite Pos2Nat.inj_iter. change (nat_rect _ m (fun _ => xO) (Pos.to_nat d)) with (Nat.iter (Pos.to_nat d) xO m).
  by rewrite pos_iter_xO, positive_nat_Z.
Qed.

Lemma Zdigits2_shiftl (M : Z) (k : Z) : 0 < M -> 0 <= k -> Zdigits2 (M * 2 ^ k) = Zdigits2 M + k.
Proof.
  intros HM Hk. pose proof (Zdigits2_bounds M HM) as [B1 B2].
  pose proof (Zdigits2_lower M 0 ltac:(lia) ltac:(lia)).
  apply Zdigits2_unique; [lia|].
  replace (Zdigits2 M + k - 1) with ((Zdigits2 M - 1) + k) by lia.
  rewrite !Z.pow_add_r by lia.
  pose proof (Z.pow_pos_nonneg 2 k ltac:(lia) Hk). nia.
Qed.

(** Rounding a value the format represents exactly gives that value. *)
Lemma binary_round_exact (s : bool) (M m : positive) (E e : Z) :
  bounded prec emax m e = true ->
  Zpos M * 2 ^ Z.max (E - e) 0 = Zpos m * 2 ^ Z.max (e - E) 0 ->
  binary_round prec emax s M E = S754_finite s m e.
Proof.
  intros Hb Heq. pose proof Hb as Hb'.
  unfold bounded, canonical_mantissa in Hb'. apply andb_prop in Hb' as [Hc _]. apply Z.eqb_eq in Hc.
  unfold binary_round.
  assert (Hd : Zpos (digits2_pos M) + E = Zpos (digits2_pos m) + e).
  { change (Zpos (digits2_pos M)) with (Zdigits2 (Zpos M)).
    change (Zpos (digits2_pos m)) with (Zdigits2 (Zpos m)).
    destruct (Z.le_ge_cases E e).
    - rewrite Z.max_r, Z.max_l, Z.pow_0_r, Z.mul_1_r in Heq by lia.
      rewrite Heq, Zdigits2_shiftl by lia. lia.
    - rewrite Z.max_l, Z.max_r, Z.pow_0_r, Z.mul_1_r in Heq by lia.
      rewrite <- Heq, Zdigits2_shiftl by lia. lia. }
  rewrite Hd, Hc. unfold shl_align.
  destruct (e - E) as [|d|d] eqn:Ed; cbv beta iota.
  - assert (E = e) as -> by lia. rewrite Z.sub_diag, Z.max_id, Z.pow_0_r, !Z.mul_1_r in Heq.
    injection Heq as ->. replace e with (e - Z.of_nat 0) at 1 by lia.
    by apply (round_aux_shift s m e 0).
  - assert (Zpos M = Zpos (Nat.iter (Pos.to_nat d) xO m)).
    { rewrite pos_iter_xO, positive_nat_Z.
      rewrite Z.max_r, Z.max_l, Z.pow_0_r, Z.mul_1_r in Heq by lia. lia. }
    injection H as ->. replace E with (e - Z.of_nat (Pos.to_nat d)) by (rewrite positive_nat_Z; lia).
    by apply round_aux_shift.
  - assert (Pos.iter xO M d = m) as ->.
    { apply Pos2Z.inj. rewrite pos_iter_xO'.
      rewrite Z.max_l, Z.max_r, Z.pow_0_r, Z.mul_1_r in Heq by lia.
      replace (Zpos d) with (E - e) by lia. lia. }
    replace e with (e - Z.of_nat 0) at 1 by lia. by apply (round_aux_shift s m e 0).
Qed.

Lemma div_eucl_exact (a b : Z) : 0 < b -> Z.div_eucl (b * a) b = (a, 0).
Proof.
  intros Hb. pose proof (Z.div_mul a b ltac:(lia)) as H1. pose proof (Z.mod_mul a b ltac:(lia)) as H2.
  unfold Z.div, Z.modulo in *. rewrite Z.mul_comm. destruct (Z.div_eucl (a * b) b). by subst.
Qed.

(** [v * 10^x] is exactly [m * 2^e], in integers. *)
Definition denotes (v x : Z) (m : positive) (e : Z) : Prop :=
  v * 10 ^ Z.max x 0 * 2 ^ Z.max (- e) 0 = Zpos m * 2 ^ Z.max e 0 * 10 ^ Z.max (- x) 0.

Lemma denotes_scale (v x j : Z) (m : positive) (e : Z) :
  0 <= j -> denotes (v * 10 ^ j) (x - j) m e <-> denotes v x m e.
Proof.
  unfold denotes. intros Hj.
  set (A := 2 ^ Z.max (- e) 0). set (B := Zpos m * 2 ^ Z.max e 0).
  assert (Hp : forall a b, 0 <= a -> 0 <= b -> 10 ^ (a + b) = 10 ^ a * 10 ^ b)
    by (intros; apply Z.pow_add_r; lia).
  pose proof (Z.pow_pos_nonneg 10 j ltac:(lia) Hj) as Hj10.
  destruct (Z.le_gt_cases j x) as [H1|H1]; [|destruct (Z.le_gt_cases 0 x) as [H2|H2]].
  - rewrite !(Z.max_l (x - j) 0), (Z.max_l x 0), !(Z.max_r (- _) 0) by lia.
    replace x with (j + (x - j)) at 2 by lia. rewrite Hp by lia.
    split; intros Heq; lia.
  - rewrite (Z.max_r (x - j) 0), (Z.max_l x 0), (Z.max_l (- (x - j)) 0), (Z.max_r (- x) 0) by lia.
    replace j with (x + (j - x)) at 1 by lia. rewrite Hp, Z.pow_0_r by lia.
    pose proof (Z.pow_pos_nonneg 10 (j - x) ltac:(lia) ltac:(lia)).
    rewrite !Z.mul_1_r.
    replace (v * (10 ^ x * 10 ^ (j - x)) * A) with ((v * 10 ^ x * A) * 10 ^ (j - x)) by ring.
    replace (- (x - j)) with (j - x) by lia. rewrite Z.mul_cancel_r by lia. done.
  - rewrite (Z.max_r (x - j) 0), (Z.max_r x 0), (Z.max_l (- (x - j)) 0), (Z.max_l (- x) 0) by lia.
    replace (- (x - j)) with (- x + j) by lia. rewrite Hp, Z.pow_0_r by lia.
    replace (v * 10 ^ j * 1 * A) with ((v * 1 * A) * 10 ^ j) by ring.
    replace (B * (10 ^ (- x) * 10 ^ j)) with ((B * 10 ^ (- x)) * 10 ^ j) by ring.
    rewrite Z.mul_cancel_r by lia. done.
Qed.

(** A decimal [d * 10^q] that is exactly the binary64 value [m * 2^e]
    reads back as that value: CPython's correctly rounded conversion is
    exact on representable values. *)
Lemma round_decimal_exact (neg : bool) (d : positive) (q : Z) (m : positive) (e : Z) :
  bounded prec emax m e = true -> denotes (Zpos d) q m e ->
  round_decimal neg (Zpos d) q = S754_finite neg m e.
Proof.
  intros Hb Heq. unfold denotes in Heq. unfold round_decimal.
  destruct (Z.leb_spec 0 q) as [Hq|Hq].
  - rewrite (Z.max_l q 0), (Z.max_r (- q) 0), Z.pow_0_r, Z.mul_1_r in Heq by lia.
    assert (0 < Zpos d * 10 ^ q) by (pose proof (Z.pow_pos_nonneg 10 q); lia).
    destruct (Zpos d * 10 ^ q) as [|N|N] eqn:EN; [lia| |lia].
    destruct neg; cbn [cond_Zopp binary_normalize Z.opp];
      apply binary_round_exact; [done| |done|]; rewrite Z.sub_0_l, Z.sub_0_r; lia.
  - pose proof Hb as Hb'. unfold bounded, canonical_mantissa in Hb'.
    apply andb_prop in Hb' as [Hc _]. apply Z.eqb_eq in Hc.
    change (Zpos (digits2_pos m)) with (Zdigits2 (Zpos m)) in Hc.
    rewrite (Z.max_r q 0), (Z.max_l (- q) 0), Z.pow_0_r, Z.mul_1_r in Heq by lia.
    set (k := - q) in *. set (A := Z.max (- e) 0) in *. set (B := Z.max e 0) in *.
    assert (HBA : B - A = e) by lia. assert (HAB : (A = 0 /\ 0 <= e) \/ (A = - e /\ e < 0)) by lia.
    assert (HA : 0 <= A) by lia. assert (HB : 0 <= B) by lia.
    clearbody A B.
    unfold SFdiv_core_binary. cbv zeta.
    replace (Zdigits2 (Zpos d) + 0 - (Zdigits2 (10 ^ k) + 0)) with (Zdigits2 (Zpos d) - Zdigits2 (10 ^ k)) by lia.
    pose proof (Z.pow_pos_nonneg 10 k ltac:(lia) ltac:(lia)) as Hk.
    pose proof (Zdigits2_bounds (Zpos d) ltac:(lia)) as [Pd _].
    pose proof (Zdigits2_bounds (10 ^ k) Hk) as [_ P10].
    pose proof (Zdigits2_bounds (Zpos m) ltac:(lia)) as [_ Pm].
    pose proof (Zdigits2_lower (Zpos d) 0 ltac:(lia) ltac:(lia)).
    pose proof (Zdigits2_nonneg (10 ^ k)). pose proof (Zdigits2_nonneg (Zpos m)).
    set (d1 := Zdigits2 (Zpos d)) in *. set (d2 := Zdigits2 (10 ^ k)) in *.
    set (dm := Zdigits2 (Zpos m)) in *.
    assert (Hlt : 2 ^ (d1 - 1 + A) < 2 ^ (dm + B + d2)).
    { rewrite !Z.pow_add_r by lia.
      pose proof (Z.pow_pos_nonneg 2 A ltac:(lia) HA). pose proof (Z.pow_pos_nonneg 2 B ltac:(lia) HB).
      assert (Zpos m * 10 ^ k < 2 ^ dm * 2 ^ d2) by (apply Z.mul_lt_mono_nonneg; lia).
      nia. }
    apply pow2_lt_inv in Hlt.
    set (e' := Z.min (fexp prec emax (d1 - d2)) (0 - 0)).
    assert (He' : e' <= e /\ e' <= 0) by (subst e'; clear -Hc Hlt HBA; fexp_lia).
    set (s := 0 - 0 - e').
    assert (Hm' : match s with 0 => Zpos d | Zpos _ => Z.shiftl (Zpos d) s | Zneg _ => 0 end
                  = Zpos d * 2 ^ s).
    { destruct s as [|j|j] eqn:Es; [lia| |lia]. rewrite <- Es. apply Z.shiftl_mul_pow2. lia. }
    rewrite Hm'.
    assert (Hquot : Zpos d * 2 ^ s = 10 ^ k * (Zpos m * 2 ^ (e - e'))).
    { replace s with (A + (s - A)) by lia. replace (e - e') with (B + (s - A)) by lia.
      rewrite !Z.pow_add_r by lia. rewrite Z.mul_assoc, Heq. lia. }
    rewrite Hquot, div_eucl_exact by lia.
    replace (new_location (10 ^ k) 0) with loc_Exact
      by (unfold new_location; by destruct (Z.even (10 ^ k))).
    replace (Zpos m * 2 ^ (e - e')) with (Zpos (Nat.iter (Z.to_nat (e - e')) xO m))
      by (rewrite pos_iter_xO, Z2Nat.id; lia).
    replace e' with (e - Z.of_nat (Z.to_nat (e - e'))) at 2 by lia.
    by apply round_aux_shift.
Qed.

End FloatFacts.

(** [float("1.000000")], the multiplier the device sends for unscaled rows. *)
Definition float_one : float := S754_finite false 4503599627370496 (-52).

(** Multiplying any binary64 value by 1.0 returns it unchanged (NaN,
    infinities and signed zeros included). *)
Theorem fmul_one (x : float) : valid x = true -> fmul x float_one = x.
Proof.
  destruct x as [s|s| |s m e]; unfold fmul, float_one; simpl; try by rewrite ?xorb_false_r.
  intros Hb. rewrite xorb_false_r, FloatFacts.mul_2_52.
  replace (e + -52) with (e - Z.of_nat 52) by lia.
  by apply FloatFacts.round_aux_shift.
Qed.

(** [float(s)]'s decimal rounding always yields a valid binary64 value. *)
Lemma round_decimal_valid (neg : bool) (m e : Z) : valid (round_decimal neg m e) = true.
Proof.
  unfold round_decimal. destruct m as [|p|p]; [done| |done].
  case_match; [apply FloatFacts.binary_normalize_valid|].
  pose proof (FloatFacts.div_core_aligned p (10 ^ (- e))
                ltac:(apply Z.pow_pos_nonneg; lia)) as Hal.
  destruct (SFdiv_core_binary prec emax (Zpos p) 0 (10 ^ (- e)) 0) as [[q ez] loc].
  apply FloatFacts.round_aux_valid; tauto.
Qed.

Lemma literal_value_valid (l : literal) : valid (literal_value l) = true.
Proof. destruct l; [apply round_decimal_valid|done|done]. Qed.

(** Whatever string it is given, [float(s)] returns a valid binary64
    value (a canonical finite value, a signed zero, an infinity or NaN)
    when it does not raise. *)
Theorem py_float_valid (s : list Z) (x : float) : py_float s = Ok x -> valid x = true.
Proof.
  unfold py_float. repeat case_match; intros; simplify_eq; apply literal_value_valid.
Qed.

(** [x * y] of two valid values is valid. *)
Lemma fmul_valid (x y : float) : valid x = true -> valid y = true -> valid (fmul x y) = true.
Proof.
  destruct x as [sx|sx| |sx mx ex], y as [sy|sy| |sy my ey]; try done.
  intros Hx Hy. apply FloatFacts.round_aux_valid; [lia|].
  by apply FloatFacts.mul_aligned.
Qed.

Lemma float_of_int_valid (n : Z) : valid (float_of_int n) = true.
Proof. apply FloatFacts.binary_normalize_valid. Qed.
