(* ===== verification/FloatText.v ===== *)
(** * What [float(s)] reads (src/app.py, lines 182-184)

    Functional facts about [py_float], CPython's [float] on a [str]
    (PyFloat.v), for the text the parser hands it ([rawvalue] and
    [multiplier]): whitespace around the number is ignored, except the
    four information separators U+001C-U+001F that [str.isspace] counts
    as whitespace but [float] rejects; a minus sign negates the value,
    bit for bit ([SFopp]); decimal digits of any script are read as
    their ASCII counterparts. *)

From S2P Require Import Prelude PyText PyFloat.
From Stdlib Require Import SpecFloat.

Module FloatText.
Import FloatParse.

(** Whitespace that [float] skips: [Py_UNICODE_ISSPACE] but not
    U+001C-U+001F, which [_PyUnicode_TransformDecimalAndSpaceToASCII]
    keeps (they are below 127) and [Py_ISSPACE] does not strip. *)
Definition float_space (c : Z) : bool :=
  is_unicode_space c && negb ((28 <=? c) && (c <=? 31)).

(** A text that does not start with whitespace or a sign. *)
Definition bare (s : list Z) : bool :=
  match s with
  | c :: _ => negb (is_unicode_space c) && negb (c =? 43) && negb (c =? 45)
  | [] => true
  end.

(** ** The transformation to ASCII *)

Lemma transform_app (a b : list Z) :
  transform (a ++ b) =
  match transform a, transform b with Some x, Some y => Some (x ++ y) | _, _ => None end.
Proof.
  induction a as [|c a IH]; cbn [app transform]; [by destruct (transform b)|].
  rewrite IH. by destruct (to_ascii c), (transform a), (transform b).
Qed.

Lemma float_space_ascii (c : Z) :
  float_space c = true -> exists a, to_ascii c = Some a /\ is_ascii_space a = true.
Proof.
  unfold float_space, to_ascii. intros [Hs Hr]%andb_prop. rewrite Hs.
  destruct (c <? 127) eqn:Hc; [|by exists 32].
  exists c. split; [done|]. apply existsb_exists in Hs as (x & Hx & ->%Z.eqb_eq).
  repeat destruct Hx as [<-|Hx]; try done; exfalso; lia.
Qed.

Lemma transform_spaces (w : list Z) :
  Forall (fun c => float_space c = true) w ->
  exists w', transform w = Some w' /\ Forall (fun c => is_ascii_space c = true) w'.
Proof.
  induction 1 as [|c w Hc _ (w' & Hw & Hf)]; [by exists []|].
  destruct (float_space_ascii c Hc) as (a & Ha & Hs).
  exists (a :: w'). cbn [transform]. rewrite Ha, Hw. by repeat constructor.
Qed.

(** The head of the transformed text of a [bare] text is neither
    whitespace nor a sign. *)
Definition plain_head (t : list Z) : Prop :=
  match t with a :: _ => is_ascii_space a = false /\ a <> 43 /\ a <> 45 | [] => True end.

Lemma ascii_unicode_space (c : Z) : is_ascii_space c = true -> is_unicode_space c = true.
Proof.
  intros H. apply existsb_exists in H as (x & Hx & ->%Z.eqb_eq).
  repeat destruct Hx as [<-|Hx]; done.
Qed.

Lemma to_decimal_range (c d : Z) : to_decimal c = Some d -> 0 <= d <= 9.
Proof.
  unfold to_decimal. destruct (find _ _) as [z|] eqn:E; [|done]. intros [= <-].
  apply find_some in E as [_ [H1 H2]%andb_prop]. apply Z.leb_le in H1, H2. lia.
Qed.

Lemma transform_bare (s t : list Z) : bare s = true -> transform s = Some t -> plain_head t.
Proof.
  destruct s as [|c s']; cbn [transform]; [by intros _ [= <-]|].
  cbn [bare]. intros [[Hs H43]%andb_prop H45]%andb_prop.
  destruct (to_ascii c) as [a|] eqn:Ha; [|done]. destruct (transform s'); [|done]. intros [= <-].
  unfold to_ascii in Ha. apply negb_true_iff in Hs. rewrite Hs in Ha.
  destruct (c <? 127).
  - injection Ha as <-. apply negb_true_iff, Z.eqb_neq in H43, H45. split; [|done].
    destruct (is_ascii_space c) eqn:E; [|done]. by rewrite (ascii_unicode_space c E) in Hs.
  - destruct (to_decimal c) as [d|] eqn:Hd; [|done]. injection Ha as Ha. subst a.
    apply to_decimal_range in Hd. split; [|lia].
    apply not_true_iff_false. intros (x & Hx & Hxe%Z.eqb_eq)%existsb_exists. rewrite <- Hxe in Hx.
    cbn in Hx. lia.
Qed.

(** ** Underscores *)

(** A character that is neither a digit nor an underscore: what comes
    before it does not matter to the underscore rule. *)
Definition neutral (p : Z) : Prop := is_digit p = false /\ p <> 95.

Lemma neutral_0 : neutral 0.
Proof. done. Qed.

Lemma neutral_45 : neutral 45.
Proof. done. Qed.

Lemma ascii_space_neutral (c : Z) : is_ascii_space c = true -> neutral c.
Proof.
  intros (x & Hx & Hxe%Z.eqb_eq)%existsb_exists. subst x.
  repeat destruct Hx as [<-|Hx]; done.
Qed.

Lemma drop_neutral (p p' : Z) (r : list Z) :
  neutral p -> neutral p' -> drop_underscores p r = drop_underscores p' r.
Proof.
  intros [Hd Hp] [Hd' Hp']. apply Z.eqb_neq in Hp, Hp'.
  destruct r as [|c r]; cbn [drop_underscores]; rewrite ?Hp, ?Hp', ?Hd, ?Hd'; done.
Qed.

Lemma drop_spaces_prefix (p : Z) (w r : list Z) :
  neutral p -> Forall (fun c => is_ascii_space c = true) w ->
  drop_underscores p (w ++ r) = option_map (app w) (drop_underscores 0 r).
Proof.
  intros Hp Hw. revert p Hp. induction Hw as [|c w Hc _ IH]; intros p Hp.
  - cbn [app]. rewrite (drop_neutral p 0) by done. by destruct (drop_underscores 0 r).
  - pose proof (ascii_space_neutral c Hc) as [Hcd Hc95].
    destruct Hp as [_ Hp]. apply Z.eqb_neq in Hc95, Hp.
    cbn [app drop_underscores]. rewrite Hc95, Hp. cbn [andb].
    rewrite IH by (split; [done|by apply Z.eqb_neq]). by destruct (drop_underscores 0 r).
Qed.

Lemma drop_spaces_suffix (p : Z) (t w : list Z) :
  Forall (fun c => is_ascii_space c = true) w ->
  drop_underscores p (t ++ w) = option_map (fun u => u ++ w) (drop_underscores p t).
Proof.
  intros Hw. revert p. induction t as [|c t IH]; intros p; cbn [app].
  - destruct Hw as [|c w Hc Hw].
    + cbn. by case_match.
    + pose proof (ascii_space_neutral c Hc) as [Hcd Hc95]. apply Z.eqb_neq in Hc95.
      cbn [drop_underscores]. rewrite Hc95, Hcd. cbn [negb].
      destruct (Z.eqb p 95); [done|]. cbn [andb].
      rewrite <- (app_nil_r w), drop_spaces_prefix; [done|by apply ascii_space_neutral|done].
  - cbn [drop_underscores]. destruct (Z.eqb c 95); [by destruct (is_digit p)|].
    destruct (Z.eqb p 95 && negb (is_digit c)); [done|]. rewrite IH. by destruct (drop_underscores c t).
Qed.

Lemma drop_head (p c : Z) (t u : list Z) :
  neutral p -> drop_underscores p (c :: t) = Some u -> exists u', u = c :: u'.
Proof.
  intros [Hd Hp]. apply Z.eqb_neq in Hp. cbn [drop_underscores].
  destruct (Z.eqb c 95); [by rewrite Hd|]. rewrite Hp. cbn [andb].
  destruct (drop_underscores c t); [|done]. intros [= <-]. eauto.
Qed.

(** ** Stripping *)

Lemma lstrip_spaces (w u : list Z) :
  Forall (fun c => is_ascii_space c = true) w -> lstrip_space (w ++ u) = lstrip_space u.
Proof. induction 1 as [|c w Hc _ IH]; [done|]. cbn [app lstrip_space]. by rewrite Hc. Qed.

Lemma lstrip_space_app (u w : list Z) :
  lstrip_space (u ++ w) = match lstrip_space u with [] => lstrip_space w | v => v ++ w end.
Proof.
  induction u as [|c u IH]; [done|]. cbn [app lstrip_space]. by destruct (is_ascii_space c).
Qed.

Lemma strip_space_around (w1 u w2 : list Z) :
  Forall (fun c => is_ascii_space c = true) w1 -> Forall (fun c => is_ascii_space c = true) w2 ->
  strip_space (w1 ++ u ++ w2) = strip_space u.
Proof.
  intros H1 H2. unfold strip_space. rewrite lstrip_spaces, lstrip_space_app by done.
  destruct (lstrip_space u) as [|z v] eqn:E.
  - rewrite <- (app_nil_r w2), lstrip_spaces by done. done.
  - rewrite rev_app_distr, lstrip_spaces by (by apply Forall_rev). done.
Qed.

Lemma strip_space_cons (c : Z) (u : list Z) :
  is_ascii_space c = false -> plain_head u ->
  strip_space (c :: u) = c :: strip_space u.
Proof.
  intros Hc Hu. unfold strip_space. cbn [lstrip_space]. rewrite Hc.
  assert (Hl : lstrip_space u = u).
  { destruct u as [|a u']; [done|]. destruct Hu as [Ha _]. cbn [lstrip_space]. by rewrite Ha. }
  rewrite Hl. cbn [rev]. rewrite lstrip_space_app.
  destruct (lstrip_space (rev u)) as [|z v] eqn:E; cbn [lstrip_space]; rewrite ?Hc; [done|].
  by rewrite rev_app_distr.
Qed.

(** [strip_space] only removes characters at the ends. *)
Lemma lstrip_suffix (u : list Z) : exists pre, u = pre ++ lstrip_space u.
Proof.
  induction u as [|c u (pre & IH)]; [by exists []|]. cbn [lstrip_space].
  destruct (is_ascii_space c); [exists (c :: pre); cbn; by f_equal|by exists []].
Qed.

Lemma strip_space_prefix (u : list Z) :
  lstrip_space u = u -> exists post, u = strip_space u ++ post.
Proof.
  intros Hl. unfold strip_space. rewrite Hl. destruct (lstrip_suffix (rev u)) as (pre & E).
  exists (rev pre). rewrite <- rev_app_distr, <- E. by rewrite rev_involutive.
Qed.

Lemma lstrip_plain (u : list Z) : plain_head u -> lstrip_space u = u.
Proof. destruct u as [|a u']; [done|]. intros [Ha _]. cbn [lstrip_space]. by rewrite Ha. Qed.

Lemma drop_plain (t u : list Z) : plain_head t -> drop_underscores 0 t = Some u -> plain_head u.
Proof.
  destruct t as [|c t']; [by intros _ [= <-]|].
  intros Ht (u' & ->)%drop_head; [done|apply neutral_0].
Qed.

Lemma drop_minus (t : list Z) :
  drop_underscores 0 (45 :: t) = option_map (cons 45) (drop_underscores 0 t).
Proof. cbn [drop_underscores]. cbn -[drop_underscores]. by rewrite (drop_neutral 45 0). Qed.

(** ** The sign *)

(** The literal with the other sign. *)
Definition flip (l : literal) : literal :=
  match l with
  | LDec neg m e => LDec (negb neg) m e
  | LInf neg => LInf (negb neg)
  | LNan => LNan
  end.

Lemma scan_sign_plain (v : list Z) : plain_head v -> scan_sign v = (false, v).
Proof.
  destruct v as [|b v']; [done|]. intros (_ & H43 & H45). cbn [scan_sign].
  by rewrite (proj2 (Z.eqb_neq b 45) H45), (proj2 (Z.eqb_neq b 43) H43).
Qed.

Lemma scan_decimal_minus (v : list Z) :
  scan_sign v = (false, v) -> scan_decimal (45 :: v) = option_map flip (scan_decimal v).
Proof.
  intros Hv. unfold scan_decimal. rewrite Hv. cbn [scan_sign]. rewrite Z.eqb_refl.
  by repeat case_match.
Qed.

Lemma scan_inf_nan_minus (v : list Z) :
  scan_sign v = (false, v) -> scan_inf_nan (45 :: v) = option_map flip (scan_inf_nan v).
Proof.
  intros Hv. unfold scan_inf_nan. rewrite Hv. cbn [scan_sign]. rewrite Z.eqb_refl.
  by repeat case_match.
Qed.

Lemma binary_round_aux_opp (sx : bool) (mx ex : Z) (lx : location) :
  binary_round_aux prec emax (negb sx) mx ex lx = SFopp (binary_round_aux prec emax sx mx ex lx).
Proof.
  unfold binary_round_aux. destruct (shr_fexp prec emax mx ex lx) as [mrs' e'].
  destruct (shr_fexp prec emax _ e' loc_Exact) as [mrs'' e''].
  destruct (shr_m mrs''); [done| |done]. by destruct (e'' <=? emax - prec).
Qed.

Lemma binary_normalize_opp (x : Z) (sz : bool) :
  binary_normalize prec emax (- x) 0 (negb sz) = SFopp (binary_normalize prec emax x 0 sz).
Proof.
  destruct x as [|p|p]; [done| |];
    [change (- Z.pos p) with (Z.neg p)|change (- Z.neg p) with (Z.pos p)];
    unfold binary_normalize, binary_round; destruct (shl_align _ _ _) as [mz ez].
  - exact (binary_round_aux_opp false _ _ _).
  - rewrite <- (binary_round_aux_opp true). done.
Qed.

Lemma round_decimal_opp (neg : bool) (m e : Z) :
  round_decimal (negb neg) m e = SFopp (round_decimal neg m e).
Proof.
  unfold round_decimal. destruct m as [|p|p]; [done| |done].
  destruct (0 <=? e).
  - rewrite <- binary_normalize_opp. f_equal. destruct neg; cbn [cond_Zopp negb]; lia.
  - destruct (SFdiv_core_binary _ _ _ _ _ _) as [[q ez] loc]. apply binary_round_aux_opp.
Qed.

Lemma literal_value_flip (l : literal) : literal_value (flip l) = SFopp (literal_value l).
Proof. destruct l; cbn [flip literal_value]; [apply round_decimal_opp|done|done]. Qed.

(** ** The claims *)

(** C26: [float()] ignores whitespace around the number: Unicode
    whitespace before and after the text (except U+001C-U+001F) changes
    neither the value nor whether it raises. *)
Theorem py_float_spaces (ws1 s ws2 : list Z) :
  Forall (fun c => float_space c = true) ws1 -> Forall (fun c => float_space c = true) ws2 ->
  py_float (ws1 ++ s ++ ws2) = py_float s.
Proof.
  intros H1 H2. destruct (transform_spaces ws1 H1) as (w1 & Hw1 & Hs1).
  destruct (transform_spaces ws2 H2) as (w2 & Hw2 & Hs2).
  unfold py_float. rewrite !transform_app, Hw1, Hw2.
  destruct (transform s) as [t|]; [|done].
  rewrite drop_spaces_prefix, drop_spaces_suffix by (apply neutral_0 || done).
  destruct (drop_underscores 0 t) as [u|]; [|done]. cbn [option_map].
  by rewrite strip_space_around.
Qed.

(** C35: [float('-' + s)] is the negation of [float(s)], bit for bit
    (the sign of zeros and infinities included; NaN stays NaN), and
    raises exactly when [float(s)] raises, for any [s] that does not
    itself start with whitespace or a sign. *)
Theorem py_float_minus (s : list Z) :
  bare s = true -> py_float (45 :: s) = (x <- py_float s ;; Ok (SFopp x))%py.
Proof.
  intros Hb. unfold py_float. cbn [transform]. change (to_ascii 45) with (Some 45).
  destruct (transform s) as [t|] eqn:Et; [|done].
  pose proof (transform_bare s t Hb Et) as Ht.
  rewrite drop_minus. destruct (drop_underscores 0 t) as [u|] eqn:Eu; [|done]. cbn [option_map].
  pose proof (drop_plain t u Ht Eu) as Hu.
  rewrite strip_space_cons by done.
  destruct (strip_space_prefix u (lstrip_plain u Hu)) as (post & Epost).
  destruct (strip_space u) as [|b v'] eqn:Es; [reflexivity|].
  assert (Hv : plain_head (b :: v')) by (rewrite Epost in Hu; exact Hu).
  rewrite scan_decimal_minus, scan_inf_nan_minus by (by apply scan_sign_plain).
  destruct (scan_decimal (b :: v')) as [l|]; cbn [option_map rbind]; [by rewrite literal_value_flip|].
  destruct (scan_inf_nan (b :: v')) as [l|]; cbn [option_map rbind]; [by rewrite literal_value_flip|done].
Qed.

(** ** Witnesses *)

(** Arabic-Indic [١.٥] between an ideographic space and a no-break space. *)
Lemma py_float_spaces_witness :
  Forall (fun c => float_space c = true) [12288] /\ Forall (fun c => float_space c = true) [32; 160] /\
  py_float ([12288] ++ [1633; 46; 1637] ++ [32; 160]) = py_float [1633; 46; 1637].
Proof.
  split; [repeat constructor|]. split; [repeat constructor|].
  apply py_float_spaces; repeat constructor.
Defined.

Lemma py_float_minus_witness :
  bare (lit "2.5e-3") = true /\
  py_float (45 :: lit "2.5e-3") = (x <- py_float (lit "2.5e-3") ;; Ok (SFopp x))%py.
Proof.
  split; [vm_compute; reflexivity|]. apply py_float_minus. vm_compute. reflexivity.
Defined.

End FloatText.
