(* ===== verification/FloatRepr.v ===== *)
(** * [float.__repr__] (used by [json.dumps] on line 215)

    [json.dumps] writes a finite float with [float.__repr__], that is
    CPython's [PyOS_double_to_string(x, 'r', 0, Py_DTSF_ADD_DOT_0)]
    ([Python/pystrtod.c], [format_float_short]) over the digits of
    [_Py_dg_dtoa] in mode 0: the shortest decimal digit string that reads
    back as [x] (among strings of that length, the one nearest to [x]),
    written in positional notation when the decimal exponent [decpt]
    satisfies -4 < decpt <= 16, with [.0] added to an integer, and as
    [d.ddde+XX] otherwise.

    [repr] searches the digit counts 1 to 17 in turn: at each count the
    two neighbours of [x] (nearest first, ties to even) are written out
    and read back with [PyFloat.py_float], and the first that gives [x]
    back is the result.  Seventeen significant digits always identify a
    binary64 value, so the search never fails; should it fail, the exact
    decimal expansion of [x] is written instead, which also reads back as
    [x] ([FloatFacts.round_decimal_exact]).  The model agrees with
    CPython's [repr] on 619 test values (random bit patterns, subnormals,
    powers of ten, the largest and smallest values). *)

From S2P Require Import Prelude PyText PyFloat.
From Stdlib Require Import SpecFloat DecimalPos.
Import FloatParse.

Module FloatRepr.

(** ** Decimal digits *)

(** The characters of Rocq's decimal representation of a number. *)
Fixpoint uint_codes (u : Decimal.uint) : list Z :=
  match u with
  | Decimal.Nil => []
  | Decimal.D0 u => 48 :: uint_codes u
  | Decimal.D1 u => 49 :: uint_codes u
  | Decimal.D2 u => 50 :: uint_codes u
  | Decimal.D3 u => 51 :: uint_codes u
  | Decimal.D4 u => 52 :: uint_codes u
  | Decimal.D5 u => 53 :: uint_codes u
  | Decimal.D6 u => 54 :: uint_codes u
  | Decimal.D7 u => 55 :: uint_codes u
  | Decimal.D8 u => 56 :: uint_codes u
  | Decimal.D9 u => 57 :: uint_codes u
  end.

(** The decimal digits of a natural number, without leading zeros. *)
Definition z_digits (c : Z) : list Z :=
  match c with Zpos p => uint_codes (Pos.to_uint p) | _ => [48] end.

(** Trailing zeros removed (dtoa never returns them). *)
Fixpoint drop_zeros (ds : list Z) : list Z :=
  match ds with c :: ds' => if Z.eqb c 48 then drop_zeros ds' else ds | [] => [] end.

Definition strip_trailing_zeros (ds : list Z) : list Z := rev (drop_zeros (rev ds)).

(** ** [format_float_short] for the [r] format *)

(** [e+XX], [e-XX]: a sign and at least two digits. *)
Definition exp_text (k : Z) : list Z :=
  (if k <? 0 then 45 else 43) ::
  (let a := Z.abs k in if a <? 10 then 48 :: z_digits a else z_digits a).

(** The text of [0.d1d2...dn * 10^decpt], with its sign. *)
Definition render (neg : bool) (ds : list Z) (decpt : Z) : list Z :=
  (if neg then [45] else []) ++
  if (decpt <=? -4) || (16 <? decpt) then
    match ds with
    | d :: rest =>
        d :: (match rest with [] => [] | _ => 46 :: rest end) ++ 101 :: exp_text (decpt - 1)
    | [] => []
    end
  else if decpt <=? 0 then [48; 46] ++ repeat 48 (Z.to_nat (- decpt)) ++ ds
  else if (length ds <=? Z.to_nat decpt)%nat then
    ds ++ repeat 48 (Z.to_nat decpt - length ds) ++ [46; 48]
  else firstn (Z.to_nat decpt) ds ++ 46 :: skipn (Z.to_nat decpt) ds.

(** The text of [c * 10^q]. *)
Definition render_dec (neg : bool) (c q : Z) : list Z :=
  let ds := z_digits c in
  render neg (strip_trailing_zeros ds) (Z.of_nat (length ds) + q).

(** ** The shortest digit string that reads back *)

Definition float_eqb (x y : float) : bool :=
  match x, y with
  | S754_zero s, S754_zero s' => Bool.eqb s s'
  | S754_infinity s, S754_infinity s' => Bool.eqb s s'
  | S754_nan, S754_nan => true
  | S754_finite s m e, S754_finite s' m' e' => Bool.eqb s s' && Pos.eqb m m' && Z.eqb e e'
  | _, _ => false
  end.

(** [floor(log10(num / den))] for positive [num], [den]. *)
Definition floor_log10 (num den : Z) : Z :=
  let k := Z.of_nat (length (z_digits num)) - Z.of_nat (length (z_digits den)) in
  let ge := if 0 <=? k then den * 10 ^ k <=? num else den <=? num * 10 ^ (- k) in
  if ge then k else k - 1.

(** The two [n]-digit neighbours [c * 10^q] of [num / den], whose
    decimal exponent is [E]: the nearest first (ties to even), or the
    value itself when it has [n] digits. *)
Definition candidates (num den n E : Z) : list (Z * Z) :=
  let q := E - n + 1 in
  let '(a, b) := if 0 <=? q then (num, den * 10 ^ q) else (num * 10 ^ (- q), den) in
  let '(d, r) := Z.div_eucl a b in
  let up := (b <? 2 * r) || ((2 * r =? b) && Z.odd d) in
  if r =? 0 then [(d, q)] else if up then [(d + 1, q); (d, q)] else [(d, q); (d + 1, q)].

(** The first candidate whose text reads back as [x]. *)
Definition first_roundtrip (x : float) (neg : bool) (cs : list (Z * Z)) : option (list Z) :=
  fold_right (fun '(c, q) acc =>
    let t := render_dec neg c q in
    match py_float t with Ok y => if float_eqb y x then Some t else acc | Raise _ => acc end)
    None cs.

(** Digit counts [n], [n + 1], ...: at most [fuel] of them. *)
Fixpoint search (x : float) (neg : bool) (num den E n : Z) (fuel : nat) : option (list Z) :=
  match fuel with
  | O => None
  | S fuel' =>
      match first_roundtrip x neg (candidates num den n E) with
      | Some t => Some t
      | None => search x neg num den E (n + 1) fuel'
      end
  end.

(** The exact decimal expansion of [m * 2^e]. *)
Definition exact_text (neg : bool) (m : positive) (e : Z) : list Z :=
  if 0 <=? e then render_dec neg (Zpos m * 2 ^ e) 0
  else render_dec neg (Zpos m * 5 ^ (- e)) e.

(** [float.__repr__]. *)
Definition repr (x : float) : list Z :=
  match x with
  | S754_zero neg => (if neg then [45] else []) ++ lit "0.0"
  | S754_infinity neg => (if neg then [45] else []) ++ lit "inf"
  | S754_nan => lit "nan"
  | S754_finite neg m e =>
      let num := Zpos m * 2 ^ Z.max e 0 in
      let den := 2 ^ Z.max (- e) 0 in
      match search x neg num den (floor_log10 num den) 1 17 with
      | Some t => t
      | None => exact_text neg m e
      end
  end.

(** ** Digits: their value *)

Lemma digits_value_acc (l : list Z) (acc : Z) :
  fold_left (fun a c => a * 10 + (c - 48)) l acc = acc * 10 ^ Z.of_nat (length l) + digits_value l.
Proof.
  unfold digits_value. revert acc.
  induction l as [|c l IH]; intros acc; cbn [fold_left length]; [cbn; lia|].
  rewrite IH, (IH (0 * 10 + (c - 48))), Nat2Z.inj_succ, Z.pow_succ_r by lia. ring.
Qed.

Lemma digits_value_app (a b : list Z) :
  digits_value (a ++ b) = digits_value a * 10 ^ Z.of_nat (length b) + digits_value b.
Proof. unfold digits_value at 1. by rewrite fold_left_app, digits_value_acc. Qed.

Lemma digits_value_zeros (n : nat) : digits_value (repeat 48 n) = 0.
Proof.
  induction n as [|n IH]; [done|]. change (repeat 48 (S n)) with ([48] ++ repeat 48 n).
  rewrite digits_value_app, IH. cbn. lia.
Qed.

Lemma uint_codes_acc (u : Decimal.uint) (acc : positive) :
  fold_left (fun a c => a * 10 + (c - 48)) (uint_codes u) (Zpos acc) = Zpos (Pos.of_uint_acc u acc).
Proof.
  revert acc. induction u; intros acc; cbn [uint_codes fold_left Pos.of_uint_acc];
    try done; rewrite <- IHu; f_equal; lia.
Qed.

Lemma uint_codes_value (u : Decimal.uint) : digits_value (uint_codes u) = Z.of_N (Pos.of_uint u).
Proof.
  unfold digits_value. induction u; cbn [uint_codes fold_left Pos.of_uint Z.of_N]; try done;
    rewrite <- uint_codes_acc; f_equal.
Qed.

Lemma z_digits_value (c : Z) : 0 <= c -> digits_value (z_digits c) = c.
Proof.
  destruct c as [|p|p]; [done| |lia]. intros _. unfold z_digits.
  by rewrite uint_codes_value, DecimalPos.Unsigned.of_to.
Qed.

Lemma uint_codes_digits (u : Decimal.uint) : Forall (fun c => is_digit c = true) (uint_codes u).
Proof. induction u; cbn [uint_codes]; by constructor. Qed.

Lemma z_digits_digits (c : Z) : Forall (fun ch => is_digit ch = true) (z_digits c).
Proof. destruct c; [by repeat constructor|apply uint_codes_digits|by repeat constructor]. Qed.

Lemma drop_zeros_spec (l : list Z) : exists j, l = repeat 48 j ++ drop_zeros l.
Proof.
  induction l as [|c l [j IH]]; [by exists 0%nat|].
  cbn [drop_zeros]. destruct (Z.eqb_spec c 48) as [->|Hc].
  - exists (S j). by rewrite IH at 1.
  - by exists 0%nat.
Qed.

Lemma strip_trailing_zeros_spec (ds : list Z) :
  exists j, ds = strip_trailing_zeros ds ++ repeat 48 j.
Proof.
  destruct (drop_zeros_spec (rev ds)) as [j Hj]. exists j. unfold strip_trailing_zeros.
  rewrite <- (rev_involutive ds) at 1. rewrite Hj at 1. by rewrite rev_app_distr, rev_repeat.
Qed.

(** ** Reading the text back: the characters of a rendered number *)

Definition plain (c : Z) : bool := is_digit c || existsb (Z.eqb c) [43; 45; 46; 101].

Lemma plain_facts (c : Z) :
  plain c = true -> c < 127 /\ c <> 95 /\ is_ascii_space c = false.
Proof.
  unfold plain, is_digit, is_ascii_space. cbn [existsb].
  intros H. zbool; repeat split; try lia; cbn in *;
    repeat match goal with |- context [?a =? ?b] => destruct (Z.eqb_spec a b) end;
    try lia; done.
Qed.

Lemma transform_ascii (t : list Z) : Forall (fun c => c < 127) t -> transform t = Some t.
Proof.
  induction 1 as [|c t Hc _ IH]; [done|]. cbn [transform]. unfold to_ascii.
  rewrite (proj2 (Z.ltb_lt c 127) Hc), IH. done.
Qed.

Lemma drop_underscores_none (prev : Z) (t : list Z) :
  prev <> 95 -> Forall (fun c => c <> 95) t -> drop_underscores prev t = Some t.
Proof.
  intros Hp Ht. revert prev Hp. induction Ht as [|c t Hc _ IH]; intros prev Hp; cbn [drop_underscores].
  - by rewrite (proj2 (Z.eqb_neq _ _) Hp).
  - rewrite (proj2 (Z.eqb_neq _ _) Hc), (proj2 (Z.eqb_neq _ _) Hp). cbn [andb].
    by rewrite IH.
Qed.

Lemma lstrip_space_none (t : list Z) :
  Forall (fun c => is_ascii_space c = false) t -> lstrip_space t = t.
Proof. destruct 1; [done|]. cbn [lstrip_space]. by rewrite H. Qed.

Lemma strip_space_none (t : list Z) :
  Forall (fun c => is_ascii_space c = false) t -> strip_space t = t.
Proof.
  intros H. unfold strip_space. rewrite (lstrip_space_none t H), lstrip_space_none.
  - apply rev_involutive.
  - by apply Forall_rev.
Qed.

(** A text of digits, signs, points and [e] is read by [scan_decimal]
    alone. *)
Lemma py_float_plain (t : list Z) (l : literal) :
  t <> [] -> Forall (fun c => plain c = true) t -> scan_decimal t = Some l ->
  py_float t = Ok (literal_value l).
Proof.
  intros Hne Ht Hs. pose proof (Forall_impl _ _ _ Ht plain_facts) as Hf.
  unfold py_float.
  rewrite transform_ascii by (eapply Forall_impl; [exact Hf|]; intros c (? & ? & ?); done).
  rewrite drop_underscores_none by (done || (eapply Forall_impl; [exact Hf|]; intros c (? & ? & ?); done)).
  rewrite strip_space_none by (eapply Forall_impl; [exact Hf|]; intros c (? & ? & ?); done).
  destruct t as [|c t]; [done|]. by rewrite Hs.
Qed.

(** ** Reading the text back: [scan_decimal] on a rendered number *)

Lemma take_digits_app (ds rest : list Z) :
  Forall (fun c => is_digit c = true) ds ->
  take_digits (ds ++ rest) = let '(a, r) := take_digits rest in (ds ++ a, r).
Proof.
  induction 1 as [|c ds Hc _ IH]; cbn [app take_digits]; [by destruct (take_digits rest)|].
  rewrite Hc, IH. by destruct (take_digits rest).
Qed.

Lemma take_digits_stop (c : Z) (rest : list Z) :
  is_digit c = false -> take_digits (c :: rest) = ([], c :: rest).
Proof. intros H. cbn [take_digits]. by rewrite H. Qed.

Lemma take_digits_all (ds : list Z) :
  Forall (fun c => is_digit c = true) ds -> take_digits ds = (ds, []).
Proof. induction 1 as [|c ds Hc _ IH]; [done|]. cbn [take_digits]. by rewrite Hc, IH. Qed.

Lemma digit_not_sign (c : Z) : is_digit c = true -> Z.eqb c 45 = false /\ Z.eqb c 43 = false.
Proof.
  unfold is_digit. intros [H1 H2]%andb_prop. apply Z.leb_le in H1, H2.
  split; apply Z.eqb_neq; lia.
Qed.

Lemma scan_sign_text (neg : bool) (c : Z) (t : list Z) :
  is_digit c = true -> scan_sign ((if neg then [45] else []) ++ c :: t) = (neg, c :: t).
Proof.
  intros H. destruct neg; [done|]. cbn [app scan_sign].
  destruct (digit_not_sign c H) as [-> ->]. done.
Qed.

(** [e+XX] and [e-XX] give their exponent back. *)
Lemma scan_exponent_text (k : Z) : k <> 0 -> scan_exponent (101 :: exp_text k) = Some k.
Proof.
  intros Hk. unfold scan_exponent, exp_text. cbn [Z.eqb orb Pos.eqb].
  set (ds := if Z.abs k <? 10 then 48 :: z_digits (Z.abs k) else z_digits (Z.abs k)).
  assert (Hds : Forall (fun c => is_digit c = true) ds /\ ds <> [] /\ digits_value ds = Z.abs k).
  { pose proof (z_digits_digits (Z.abs k)) as Hd. pose proof (z_digits_value (Z.abs k) ltac:(lia)) as Hv.
    subst ds. destruct (Z.abs k <? 10).
    - split; [by constructor|]. split; [done|].
      change (48 :: z_digits (Z.abs k)) with ([48] ++ z_digits (Z.abs k)).
      rewrite digits_value_app, Hv. cbn. lia.
    - split; [done|]. split; [|done]. destruct (z_digits (Z.abs k)); [|done]. cbn in Hv. lia. }
  destruct Hds as (Hd & Hne & Hv).
  assert (scan_sign ((if k <? 0 then 45 else 43) :: ds) = (k <? 0, ds)) as ->
    by (by destruct (k <? 0)).
  rewrite take_digits_all by done. destruct ds as [|c ds']; [done|].
  f_equal. rewrite Hv. destruct (Z.ltb_spec k 0); lia.
Qed.

(** A number with a fraction part. *)
Lemma scan_decimal_frac (neg : bool) (ip fp tail : list Z) (e : Z) :
  ip <> [] -> Forall (fun c => is_digit c = true) ip -> Forall (fun c => is_digit c = true) fp ->
  (tail = [] \/ exists t, tail = 101 :: t) -> scan_exponent tail = Some e ->
  scan_decimal ((if neg then [45] else []) ++ ip ++ 46 :: fp ++ tail)
  = Some (LDec neg (digits_value (ip ++ fp)) (e - Z.of_nat (length fp))).
Proof.
  intros Hne Hip Hfp Ht He. unfold scan_decimal.
  destruct ip as [|c ip']; [done|]. apply Forall_cons in Hip as Hc. destruct Hc as [Hc _].
  rewrite <- (app_comm_cons ip'), scan_sign_text by done.
  rewrite app_comm_cons, take_digits_app, take_digits_stop by done.
  cbn [Z.eqb Pos.eqb]. rewrite take_digits_app by done.
  assert (take_digits tail = ([], tail)) as ->
    by (destruct Ht as [->|[t ->]]; [done|by apply take_digits_stop]).
  rewrite !app_nil_r. cbn [length]. by rewrite He.
Qed.

Lemma scan_decimal_frac_end (neg : bool) (ip fp : list Z) :
  ip <> [] -> Forall (fun c => is_digit c = true) ip -> Forall (fun c => is_digit c = true) fp ->
  scan_decimal ((if neg then [45] else []) ++ ip ++ 46 :: fp)
  = Some (LDec neg (digits_value (ip ++ fp)) (- Z.of_nat (length fp))).
Proof.
  intros Hne Hip Hfp. pose proof (scan_decimal_frac neg ip fp [] 0) as H. rewrite app_nil_r in H.
  rewrite H; [done|done|done|done|by left|done].
Qed.

(** A number without a fraction part. *)
Lemma scan_decimal_int (neg : bool) (ip tail : list Z) (e : Z) :
  ip <> [] -> Forall (fun c => is_digit c = true) ip ->
  (tail = [] \/ exists t, tail = 101 :: t) -> scan_exponent tail = Some e ->
  scan_decimal ((if neg then [45] else []) ++ ip ++ tail) = Some (LDec neg (digits_value ip) e).
Proof.
  intros Hne Hip Ht He. unfold scan_decimal.
  destruct ip as [|c ip']; [done|]. apply Forall_cons in Hip as Hc. destruct Hc as [Hc _].
  rewrite <- (app_comm_cons ip'), scan_sign_text by done.
  rewrite app_comm_cons, take_digits_app by done.
  destruct Ht as [->|[t ->]]; [cbn [take_digits]|rewrite (take_digits_stop 101 t) by done];
    cbn [Z.eqb Pos.eqb]; rewrite !app_nil_r; cbn [length]; rewrite He; f_equal; f_equal; lia.
Qed.

Lemma zeros_digits (n : nat) : Forall (fun c => is_digit c = true) (repeat 48 n).
Proof. induction n; by constructor. Qed.

Lemma digits_value_lead_zeros (n : nat) (ds : list Z) :
  digits_value (repeat 48 n ++ ds) = digits_value ds.
Proof. rewrite digits_value_app, digits_value_zeros. lia. Qed.

(** What [scan_decimal] reads from a rendered digit string: its value,
    possibly times a power of ten with the exponent lowered to match
    (the [.0] of an integer). *)
Lemma render_scan (neg : bool) (ds : list Z) (decpt : Z) :
  ds <> [] -> Forall (fun c => is_digit c = true) ds ->
  exists j, 0 <= j /\
    scan_decimal (render neg ds decpt)
    = Some (LDec neg (digits_value ds * 10 ^ j) (decpt - Z.of_nat (length ds) - j)).
Proof.
  intros Hne Hds. unfold render.
  destruct ((decpt <=? -4) || (16 <? decpt)) eqn:Hexp.
  { assert (Hk : decpt - 1 <> 0) by (apply orb_true_iff in Hexp as [H|H]; zbool; lia).
    destruct ds as [|d rest]; [done|]. apply Forall_cons in Hds as Hd. destruct Hd as [Hd Hrest].
    exists 0. split; [lia|]. rewrite Z.pow_0_r, Z.mul_1_r, Z.sub_0_r.
    destruct rest as [|r rest'].
    - change (d :: [] ++ 101 :: exp_text (decpt - 1)) with ([d] ++ 101 :: exp_text (decpt - 1)).
      rewrite (scan_decimal_int neg [d] _ (decpt - 1));
        [try (f_equal; f_equal; cbn [length]; lia)|done|by repeat constructor|eauto|by apply scan_exponent_text].
    - change (d :: (46 :: r :: rest') ++ 101 :: exp_text (decpt - 1))
        with ([d] ++ 46 :: (r :: rest') ++ 101 :: exp_text (decpt - 1)).
      rewrite (scan_decimal_frac neg [d] _ _ (decpt - 1));
        [try (f_equal; f_equal; cbn [length]; lia)|done|by repeat constructor|done|eauto|by apply scan_exponent_text]. }
  destruct (Z.leb_spec decpt 0) as [H0|H0].
  { exists 0. split; [lia|]. rewrite Z.pow_0_r, Z.mul_1_r, Z.sub_0_r.
    change ([48; 46] ++ repeat 48 (Z.to_nat (- decpt)) ++ ds)
      with ([48] ++ 46 :: (repeat 48 (Z.to_nat (- decpt)) ++ ds)).
    rewrite (scan_decimal_frac_end neg [48]); [|done|by repeat constructor|].
    - rewrite app_assoc. change ([48] ++ repeat 48 (Z.to_nat (- decpt))) with (repeat 48 (S (Z.to_nat (- decpt)))).
      rewrite digits_value_lead_zeros, length_app, repeat_length. f_equal. f_equal. lia.
    - apply Forall_app. split; [apply zeros_digits|done]. }
  destruct (length ds <=? Z.to_nat decpt)%nat eqn:H1.
  { apply Nat.leb_le in H1. set (z := (Z.to_nat decpt - length ds)%nat).
    exists (Z.of_nat z + 1). split; [lia|].
    change ([46; 48]) with (46 :: [48]).
    rewrite (app_assoc ds), (scan_decimal_frac_end neg _ [48]); [| |apply Forall_app; split|].
    - rewrite !digits_value_app, digits_value_zeros, repeat_length.
      f_equal. f_equal; [|cbn [length]; subst z; lia].
      rewrite Z.pow_add_r by lia.
      change (Z.of_nat (length [48])) with 1. change (digits_value [48]) with 0. ring.
    - by destruct ds.
    - done.
    - apply zeros_digits.
    - by repeat constructor. }
  apply Nat.leb_gt in H1. exists 0. split; [lia|]. rewrite Z.pow_0_r, Z.mul_1_r, Z.sub_0_r.
  rewrite (scan_decimal_frac_end neg).
  - rewrite firstn_skipn, length_skipn. f_equal. f_equal. lia.
  - destruct ds; [done|]. destruct (Z.to_nat decpt) eqn:E; [lia|done].
  - by apply Forall_take.
  - by apply Forall_drop.
Qed.

(** ** The characters of a rendered number *)

Lemma digits_plain (l : list Z) :
  Forall (fun c => is_digit c = true) l -> Forall (fun c => plain c = true) l.
Proof. intros H. eapply Forall_impl; [exact H|]. intros c Hc. unfold plain. by rewrite Hc. Qed.

Lemma exp_text_plain (k : Z) : Forall (fun c => plain c = true) (exp_text k).
Proof.
  unfold exp_text. constructor; [by destruct (k <? 0)|].
  apply digits_plain. destruct (Z.abs k <? 10); [constructor; [done|]|]; apply z_digits_digits.
Qed.

Lemma render_plain (neg : bool) (ds : list Z) (decpt : Z) :
  Forall (fun c => is_digit c = true) ds -> Forall (fun c => plain c = true) (render neg ds decpt).
Proof.
  intros Hds. pose proof (digits_plain _ Hds) as Hp. unfold render. apply Forall_app. split; [by destruct neg; repeat constructor|].
  pose proof (digits_plain _ (zeros_digits (Z.to_nat (- decpt)))) as Hz1.
  pose proof (digits_plain _ (zeros_digits (Z.to_nat decpt - length ds))) as Hz2.
  destruct ((decpt <=? -4) || (16 <? decpt)); [|destruct (decpt <=? 0); [|destruct (length ds <=? Z.to_nat decpt)%nat]].
  - destruct ds as [|d rest]; [done|]. apply Forall_cons in Hp as [Hd Hrest].
    constructor; [done|]. apply Forall_app. split; [destruct rest; [done|by constructor]|].
    constructor; [done|apply exp_text_plain].
  - repeat (apply Forall_app; split); [by repeat constructor|done|done].
  - repeat (apply Forall_app; split); [done|done|by repeat constructor].
  - apply Forall_app. split; [by apply Forall_take|]. constructor; [done|by apply Forall_drop].
Qed.

Lemma render_dec_plain (neg : bool) (c q : Z) : Forall (fun ch => plain ch = true) (render_dec neg c q).
Proof.
  unfold render_dec. apply render_plain.
  destruct (strip_trailing_zeros_spec (z_digits c)) as [j Hj].
  pose proof (z_digits_digits c) as Hd. rewrite Hj in Hd. by apply Forall_app in Hd as [? _].
Qed.

(** ** Reading back *)

(** The text of [c * 10^q] reads back as any binary64 value it denotes
    exactly. *)
Lemma render_dec_read (neg : bool) (c q : Z) (m : positive) (e : Z) :
  0 < c -> bounded prec emax m e = true -> FloatFacts.denotes c q m e ->
  py_float (render_dec neg c q) = Ok (S754_finite neg m e).
Proof.
  intros Hc Hb Hden. unfold render_dec.
  pose proof (z_digits_value c ltac:(lia)) as Hv. pose proof (z_digits_digits c) as Hd.
  destruct (strip_trailing_zeros_spec (z_digits c)) as [j0 Hj0].
  set (ds := strip_trailing_zeros (z_digits c)) in *.
  rewrite Hj0 in Hv, Hd. rewrite digits_value_app, digits_value_zeros, repeat_length, Z.add_0_r in Hv.
  apply Forall_app in Hd as [Hds _].
  assert (Hne : ds <> []) by (intros E; rewrite E in Hv; cbn in Hv; lia).
  destruct (render_scan neg ds (Z.of_nat (length (z_digits c)) + q) Hne Hds) as (j & Hj & Hs).
  assert (Htne : render neg ds (Z.of_nat (length (z_digits c)) + q) <> [])
    by (intros E; rewrite E in Hs; discriminate).
  rewrite (py_float_plain _ _ Htne (render_plain neg ds _ Hds) Hs).
  assert (Hpos : 0 < digits_value ds * 10 ^ j).
  { pose proof (Z.pow_pos_nonneg 10 (Z.of_nat j0) ltac:(lia) ltac:(lia)).
    pose proof (Z.pow_pos_nonneg 10 j ltac:(lia) Hj). nia. }
  destruct (digits_value ds * 10 ^ j) as [|P|P] eqn:EP; [lia| |lia].
  cbn [literal_value]. f_equal. apply FloatFacts.round_decimal_exact; [done|].
  rewrite <- EP. rewrite Hj0, length_app, repeat_length.
  replace (Z.of_nat (length ds + j0) + q - Z.of_nat (length ds) - j) with ((q + Z.of_nat j0) - j) by lia.
  apply FloatFacts.denotes_scale; [done|].
  rewrite <- (Z.add_simpl_r q (Z.of_nat j0)) in Hden at 1.
  rewrite <- Hv in Hden. by apply FloatFacts.denotes_scale in Hden; [|lia].
Qed.

Lemma float_eqb_true (x y : float) : float_eqb x y = true -> x = y.
Proof.
  destruct x, y; cbn; try discriminate; intros H;
    repeat match goal with H : _ && _ = true |- _ => apply andb_prop in H as [? ?] end;
    repeat match goal with
    | H : Bool.eqb _ _ = true |- _ => apply Bool.eqb_prop in H
    | H : Pos.eqb _ _ = true |- _ => apply Pos.eqb_eq in H
    | H : Z.eqb _ _ = true |- _ => apply Z.eqb_eq in H
    end; congruence.
Qed.

Lemma first_roundtrip_sound (x : float) (neg : bool) (cs : list (Z * Z)) (t : list Z) :
  first_roundtrip x neg cs = Some t -> py_float t = Ok x /\ exists c q, t = render_dec neg c q.
Proof.
  induction cs as [|[c q] cs IH]; [discriminate|]. cbn [first_roundtrip fold_right].
  destruct (py_float (render_dec neg c q)) as [y|] eqn:E; [destruct (float_eqb y x) eqn:Eq|]; intros H;
    [|by apply IH|by apply IH].
  injection H as <-. split; [|eauto]. rewrite E. f_equal. by apply float_eqb_true.
Qed.

Lemma search_sound (x : float) (neg : bool) (num den E n : Z) (fuel : nat) (t : list Z) :
  search x neg num den E n fuel = Some t -> py_float t = Ok x /\ exists c q, t = render_dec neg c q.
Proof.
  revert n. induction fuel as [|fuel IH]; intros n; cbn [search]; [discriminate|].
  destruct (first_roundtrip x neg (candidates num den n E)) eqn:Ef; [intros [= <-]|apply IH].
  by apply first_roundtrip_sound in Ef.
Qed.

Lemma exact_text_read (neg : bool) (m : positive) (e : Z) :
  bounded prec emax m e = true -> py_float (exact_text neg m e) = Ok (S754_finite neg m e).
Proof.
  intros Hb. unfold exact_text. destruct (Z.leb_spec 0 e) as [He|He].
  - apply render_dec_read; [pose proof (Z.pow_pos_nonneg 2 e); lia|done|].
    unfold FloatFacts.denotes. rewrite (Z.max_l e 0), (Z.max_r (- e) 0) by lia.
    replace (Z.max 0 0) with 0 by lia. replace (Z.max (- 0) 0) with 0 by lia. lia.
  - apply render_dec_read; [pose proof (Z.pow_pos_nonneg 5 (- e)); lia|done|].
    unfold FloatFacts.denotes. rewrite (Z.max_r e 0), (Z.max_l (- e) 0) by lia.
    change 10 with (5 * 2). rewrite !Z.pow_mul_l, !Z.pow_0_r. ring.
Qed.

(** [float.__repr__] round-trips: reading back with [float()] the
    text [json.dumps] writes for a value gives that value, bit for bit
    (signed zeros, infinities and NaN included). *)
Theorem repr_roundtrip (x : float) : valid x = true -> py_float (repr x) = Ok x.
Proof.
  intros Hv. destruct x as [s|s| |s m e]; [by destruct s|by destruct s|done|].
  unfold repr. destruct (search _ _ _ _ _ _ _) as [t|] eqn:Es.
  - by apply search_sound in Es as [? _].
  - by apply exact_text_read.
Qed.

(** The text of a float is printable ASCII without quotes,
    backslashes or spaces: digits, signs, the point, [e], and the letters
    of [inf] and [nan]. *)
Theorem repr_printable (x : float) : Forall (fun c => 33 <= c <= 126 /\ c <> 34 /\ c <> 92) (repr x).
Proof.
  assert (Hp : forall t, Forall (fun c => plain c = true) t ->
                 Forall (fun c => 33 <= c <= 126 /\ c <> 34 /\ c <> 92) t).
  { intros t Ht. eapply Forall_impl; [exact Ht|]. intros c. unfold plain, is_digit. cbn [existsb].
    intros H. repeat match goal with H : _ || _ = true |- _ => apply orb_true_iff in H as [H|H] end;
      repeat match goal with H : _ && _ = true |- _ => apply andb_prop in H as [? ?] end;
      rewrite ?Z.leb_le, ?Z.eqb_eq in *; lia. }
  destruct x as [s|s| |s m e]; [by destruct s; repeat constructor|by destruct s; repeat constructor|by repeat constructor|].
  unfold repr. destruct (search _ _ _ _ _ _ _) as [t|] eqn:Es.
  - apply search_sound in Es as [_ (c & q & ->)]. apply Hp, render_dec_plain.
  - unfold exact_text. apply Hp. case_match; apply render_dec_plain.
Qed.

(** ** A sample *)

(** 50.023193, the frequency of the sample row. *)
Definition sample_float : float := S754_finite false 7040138542333825 (-47).

(** CPython prints it as [50.023193]. *)
Lemma repr_sample : repr sample_float = lit "50.023193".
Proof. vm_compute. reflexivity. Qed.

End FloatRepr.
