(* ===== verification/Response.v ===== *)
(** * The text of a response, as requests decodes it (src/app.py, lines 159, 165, 174 and 221)

    [requests.get] builds the response with
    [response.encoding = get_encoding_from_headers(response.headers)]
    (requests' [utils.py]): the [charset] parameter of [Content-Type],
    else ISO-8859-1 for a [text] type, else UTF-8 for
    [application/json], else none.  [res.text] decodes [res.content]
    with that encoding, or with the statistical guess
    [apparent_encoding] when there is none, and falls back to UTF-8
    when the codec is unknown ([LookupError]) or the name is [None]
    ([TypeError]); errors are replaced.  The code reads [res.text] twice:
    on line 174 after setting [res.encoding = 'UTF-8'] (line 165), and
    on line 221 for the message of [Error] with the encoding requests
    found.

    Python's codec lookup is modelled on the name ([normalize_encoding],
    [codec_lookup], after CPython's [_Py_normalize_encoding] and
    [encodings.search_function] with the alias table of CPython 3.11)
    for the three codecs a device answer meets: UTF-8, Latin-1 and
    ASCII.  What any other codec makes of the bytes, and the guess of
    charset_normalizer, are inputs ([text_env]).  Header values are
    Latin-1 text (http.client decodes them so), so code points are below
    256. *)

From S2P Require Import Prelude PyText Utf8 PyFloat.
From stdpp Require Import gmap.
Open Scope Z_scope.

Module Requests.
Import FloatParse.

(** ** Text helpers *)

(** [str.lower] on Latin-1 text. *)
Definition lower1 (c : Z) : Z :=
  if ((65 <=? c) && (c <=? 90)) || ((192 <=? c) && (c <=? 222) && negb (c =? 215))
  then c + 32 else c.

Fixpoint drop_while (p : Z -> bool) (s : list Z) : list Z :=
  match s with c :: s' => if p c then drop_while p s' else s | [] => [] end.

(** [s.strip(chars)]: the characters satisfying [p] removed at both ends. *)
Definition strip_by (p : Z -> bool) (s : list Z) : list Z :=
  rev (drop_while p (rev (drop_while p s))).

(** [s.find(c)]. *)
Fixpoint find_char (c : Z) (s : list Z) : option nat :=
  match s with
  | [] => None
  | x :: s' => if x =? c then Some O else option_map S (find_char c s')
  end.

Fixpoint is_prefix (p s : list Z) : bool :=
  match p, s with
  | [], _ => true
  | a :: p', b :: s' => (a =? b) && is_prefix p' s'
  | _ :: _, [] => false
  end.

(** [needle in hay] on [str]. *)
Fixpoint contains (needle hay : list Z) : bool :=
  is_prefix needle hay || match hay with [] => false | _ :: hay' => contains needle hay' end.

(** ** [_parse_content_type_header] and [get_encoding_from_headers] *)

(** A parameter's value: the text after [=], or [True] when there is
    no [=]. *)
Inductive param_value :=
| PValue (v : list Z)
| PTrue.

(** [items_to_strip]: double quote, single quote and space. *)
Definition items_to_strip (c : Z) : bool := (c =? 34) || (c =? 39) || (c =? 32).

(** One parameter, already stripped and not empty: key and value. *)
Definition parse_param (param : list Z) : list Z * param_value :=
  match find_char 61 param with
  | Some i => (strip_by items_to_strip (take i param), PValue (strip_by items_to_strip (drop (S i) param)))
  | None => (param, PTrue)
  end.

(** The type and the dictionary of parameters, keys lower-cased; a
    later parameter overwrites an earlier one with the same key. *)
Definition parse_content_type_header (header : list Z) : list Z * gmap (list Z) param_value :=
  match Str.split 59 header with
  | t0 :: params =>
      (strip_by is_unicode_space t0,
       fold_left (fun d param =>
                    match strip_by is_unicode_space param with
                    | [] => d
                    | p => let '(k, v) := parse_param p in <[map lower1 k := v]> d
                    end) params ∅)
  | [] => ([], ∅)
  end.

(** [get_encoding_from_headers], on the [Content-Type] header if any. *)
Definition get_encoding_from_headers (content_type : option (list Z)) : result (option (list Z)) :=
  match content_type with
  | None | Some [] => Ok None
  | Some h =>
      let '(ct, params) := parse_content_type_header h in
      match params !! lit "charset" with
      | Some (PValue v) => Ok (Some (strip_by (fun c => (c =? 39) || (c =? 34)) v))
      | Some PTrue => Raise AttributeError
      | None =>
          if contains (lit "text") ct then Ok (Some (lit "ISO-8859-1"))
          else if contains (lit "application/json") ct then Ok (Some (lit "utf-8"))
          else Ok None
      end
  end.

(** ** Codecs *)

(** The codecs a device answer meets, and any other. *)
Inductive codec := CUtf8 | CLatin1 | CAscii | COther.

Definition is_alnum_ascii (c : Z) : bool :=
  ((48 <=? c) && (c <=? 57)) || ((65 <=? c) && (c <=? 90)) || ((97 <=? c) && (c <=? 122)).

(** [_Py_normalize_encoding]: ASCII letters, digits and dots kept,
    lower-cased; every other run of characters becomes one underscore
    between kept characters. *)
Fixpoint normalize_go (punct : bool) (out : list Z) (s : list Z) : list Z :=
  match s with
  | [] => rev out
  | c :: s' =>
      if is_alnum_ascii c || (c =? 46) then
        normalize_go false (lower1 c :: (if punct && negb (bool_decide (out = [])) then 95 :: out else out)) s'
      else normalize_go true out s'
  end.

Definition normalize_encoding (name : list Z) : list Z := normalize_go false [] name.

(** The keys of [encodings.aliases] for the three codecs (CPython 3.11). *)
Definition utf8_aliases : list (list Z) :=
  map lit ["cp65001"; "u8"; "utf"; "utf8"; "utf8_ucs2"; "utf8_ucs4"].
Definition latin1_aliases : list (list Z) :=
  map lit ["8859"; "cp819"; "csisolatin1"; "ibm819"; "iso8859"; "iso8859_1"; "iso_8859_1";
           "iso_8859_1_1987"; "iso_ir_100"; "l1"; "latin"; "latin1"].
Definition ascii_aliases : list (list Z) :=
  map lit ["646"; "ansi_x3.4_1968"; "ansi_x3.4_1986"; "ansi_x3_4_1968"; "cp367"; "csascii";
           "ibm367"; "iso646_us"; "iso_646.irv_1991"; "iso_ir_6"; "us"; "us_ascii"].

Definition alias_codec (n : list Z) : option codec :=
  if existsb (str_eqb n) utf8_aliases then Some CUtf8
  else if existsb (str_eqb n) latin1_aliases then Some CLatin1
  else if existsb (str_eqb n) ascii_aliases then Some CAscii
  else None.

(** The module [encodings.<n>] the name falls back to. *)
Definition module_codec (n : list Z) : codec :=
  if str_eqb n (lit "utf_8") then CUtf8
  else if str_eqb n (lit "latin_1") then CLatin1
  else if str_eqb n (lit "ascii") then CAscii
  else COther.

(** [encodings.search_function]: [aliases.get(n)], then
    [aliases.get(n.replace('.', '_'))], then the module named [n]. *)
Definition codec_lookup (name : list Z) : codec :=
  let n := normalize_encoding name in
  match alias_codec n with
  | Some k => k
  | None =>
      match alias_codec (map (fun c => if c =? 46 then 95 else c) n) with
      | Some k => k
      | None => module_codec n
      end
  end.

(** The ASCII codec with [errors='replace']. *)
Definition ascii_replace (bs : list Z) : list Z :=
  map (fun b => if b <? 128 then b else 65533) bs.

(** What the environment decides: the guess of [apparent_encoding]
    ([None] when it finds none), and what another codec makes of the
    bytes: a text, [LookupError] (not a text codec, or no codec of that
    name) or an exception it raises (a codec refusing [replace]). *)
Inductive codec_answer :=
| Decoded (text : list Z)
| NoSuchCodec
| DecodeRaises.

Record text_env := mkTextEnv {
  apparent_encoding : option (list Z);
  other_codec : codec_answer
}.

(** [str(content, name, errors='replace')], with requests' fallback to
    UTF-8 on [LookupError]; a name with a NUL character raises
    [ValueError], which requests does not catch. *)
Definition decode_with (name content : list Z) (g : text_env) : result (list Z) :=
  if existsb (Z.eqb 0) name then Raise ValueError
  else match codec_lookup name with
       | CUtf8 => Ok (Utf8.decode content)
       | CLatin1 => Ok content
       | CAscii => Ok (ascii_replace content)
       | COther =>
           match other_codec g with
           | Decoded t => Ok t
           | NoSuchCodec => Ok (Utf8.decode content)
           | DecodeRaises => Raise UnicodeError
           end
       end.

(** [Response.text] with [res.encoding] = [encoding]. *)
Definition response_text (encoding : option (list Z)) (content : list Z) (g : text_env) : result (list Z) :=
  match content with
  | [] => Ok []
  | _ :: _ =>
      match (match encoding with Some e => Some e | None => apparent_encoding g end) with
      | Some name => decode_with name content g
      | None => Ok (Utf8.decode content)
      end
  end.

(** ** Lemmas *)

(** Line 165 then line 174: with [res.encoding = 'UTF-8'], [res.text]
    is the UTF-8 decoder with replacement, whatever the headers, the
    guess and the other codecs. *)
Lemma response_text_utf8 (content : list Z) (g : text_env) :
  response_text (Some (lit "UTF-8")) content g = Ok (Utf8.decode content).
Proof. destruct content; reflexivity. Qed.

(** A last parameter [charset] without [=] has the value [True]. *)
Lemma get_encoding_bare_charset (t : list Z) :
  59 ∉ t -> get_encoding_from_headers (Some (t ++ lit "; charset")) = Raise AttributeError.
Proof.
  intros Ht. unfold get_encoding_from_headers.
  destruct (t ++ lit "; charset") as [|x h] eqn:E; [by destruct t|]. rewrite <- E.
  unfold parse_content_type_header. change (lit "; charset") with (59 :: lit " charset").
  rewrite StrFacts.split_app_sep by done. cbn iota.
  set (P := fold_left _ _ _).
  assert (HP : P !! lit "charset" = Some PTrue) by (subst P; vm_compute; reflexivity).
  by rewrite HP.
Qed.

(** A [Content-Type] without parameters that names a [text] type. *)
Lemma get_encoding_text (t : list Z) :
  59 ∉ t -> contains (lit "text") (strip_by is_unicode_space t) = true ->
  get_encoding_from_headers (Some t) = Ok (Some (lit "ISO-8859-1")).
Proof.
  intros Ht Hc. unfold get_encoding_from_headers.
  destruct t as [|x t']; [done|].
  unfold parse_content_type_header. rewrite StrFacts.split_sep_free by exact Ht. cbn iota.
  change (fold_left _ [] ∅ !! lit "charset") with (@None param_value). by rewrite Hc.
Qed.

(** [ISO-8859-1] reads every byte as the character of that code. *)
Lemma response_text_latin1 (content : list Z) (g : text_env) :
  response_text (Some (lit "ISO-8859-1")) content g = Ok content.
Proof. destruct content; reflexivity. Qed.

End Requests.
