(* ===== verification/Normalize.v ===== *)
(** * Unit normalisation of one row (src/app.py, lines 186-206)

    [normalize] is the block of [do_repeat] that, given the row's
    descriptor [v[1]], its unit [v[6]] and its already scaled value,
    computes the published value, [unit] and [unit_zabbix].  It is written
    as the code is: five independent [if] statements in sequence.
    [normalize_spec] is the else-if chain of the specification (rules 1-5
    of section 4.1); [normalize_else_if] shows that the code implements
    it. *)

From S2P Require Import Prelude PyText PyFloat.

(** The two descriptors whose tag is forced to unixtime (lines 202, 205). *)
Definition backup_ts : list Z :=
  lit "SystemState_persistent.Global.LastSystemBackupTimestamp".
Definition sendproto_ts : list Z :=
  lit "SystemState_persistent.SolarPortal.LastSendProtocolTimestamp".

Record normalized := mkNorm {
  n_value : float;
  n_unit : list Z;
  n_unit_zabbix : list Z
}.

(** Lines 187-206. *)
Definition normalize (descriptor unit : list Z) (value : float) : normalized :=
  let unit_zabbix := unit in
  let '(value, unit, unit_zabbix) :=
    if str_eqb unit (lit "mA")
    then (fmul value (float_of_int 1000), lit "A", lit "A")
    else (value, unit, unit_zabbix) in
  let unit_zabbix := if str_eqb unit (lit "kWh") then lit "!kWh" else unit_zabbix in
  let '(value, unit, unit_zabbix) :=
    if str_eqb unit (lit "h")
    then (fmul value (float_of_int 3600), lit "s", lit "s")
    else (value, unit, unit_zabbix) in
  let unit_zabbix := if str_eqb descriptor backup_ts then lit "unixtime" else unit_zabbix in
  let unit_zabbix := if str_eqb descriptor sendproto_ts then lit "unixtime" else unit_zabbix in
  mkNorm value unit unit_zabbix.

(** ** The specification's rules, first match wins *)

Definition unit_rule (unit : list Z) (value : float) : normalized :=
  if str_eqb unit (lit "mA") then mkNorm (fmul value (float_of_int 1000)) (lit "A") (lit "A")
  else if str_eqb unit (lit "kWh") then mkNorm value unit (lit "!kWh")
  else if str_eqb unit (lit "h") then mkNorm (fmul value (float_of_int 3600)) (lit "s") (lit "s")
  else mkNorm value unit unit.

Definition is_timestamp (descriptor : list Z) : bool :=
  str_eqb descriptor backup_ts || str_eqb descriptor sendproto_ts.

Definition normalize_spec (descriptor unit : list Z) (value : float) : normalized :=
  let n := unit_rule unit value in
  if is_timestamp descriptor then mkNorm (n_value n) (n_unit n) (lit "unixtime") else n.

(** ** Properties *)

(** The code's five [if]s, regrouped: the unit rules, then the override. *)
Lemma normalize_unit_rule (descriptor unit : list Z) (value : float) :
  normalize descriptor unit value =
  let n := unit_rule unit value in
  mkNorm (n_value n) (n_unit n)
    (if is_timestamp descriptor then lit "unixtime" else n_unit_zabbix n).
Proof.
  unfold normalize, unit_rule, is_timestamp.
  str_cases; reflexivity.
Qed.

(** C5: The code's five independent [if] statements compute the
    specification's first-match rules followed by the timestamp
    override: the unit rules exclude each other because the mA rule
    rewrites the unit to A and the h rule runs last. *)
Theorem normalize_else_if (descriptor unit : list Z) (value : float) :
  normalize descriptor unit value = normalize_spec descriptor unit value.
Proof.
  rewrite normalize_unit_rule. unfold normalize_spec.
  destruct (is_timestamp descriptor); [done|]. by destruct (unit_rule unit value).
Qed.

(** The published value is a valid binary64 value when the scaled one is. *)
Lemma normalize_valid (descriptor unit : list Z) (value : float) :
  valid value = true -> valid (n_value (normalize descriptor unit value)) = true.
Proof.
  intros Hv. unfold normalize.
  repeat case_match; simplify_eq; cbn [n_value]; auto using fmul_valid, float_of_int_valid.
Qed.

Lemma unit_rule_other (unit : list Z) (value : float) :
  unit <> lit "mA" -> unit <> lit "kWh" -> unit <> lit "h" ->
  unit_rule unit value = mkNorm value unit unit.
Proof. intros. unfold unit_rule. by rewrite !str_eqb_false by done. Qed.

Lemma unit_rule_idem (unit : list Z) (value : float) :
  let n := unit_rule unit value in unit_rule (n_unit n) (n_value n) = n.
Proof.
  cbv zeta.
  destruct (str_eqb_spec unit (lit "mA")) as [->|H1]; [reflexivity|].
  destruct (str_eqb_spec unit (lit "kWh")) as [->|H2]; [reflexivity|].
  destruct (str_eqb_spec unit (lit "h")) as [->|H3]; [reflexivity|].
  rewrite (unit_rule_other unit value) by done. simpl. by apply unit_rule_other.
Qed.

(** C6: Normalisation is idempotent: normalising the published unit and
    value again (same descriptor) changes nothing, since A, kWh and s are
    not rewritten and the kWh and timestamp tags are recomputed equal. *)
Theorem normalize_idempotent (descriptor unit : list Z) (value : float) :
  let n := normalize descriptor unit value in
  normalize descriptor (n_unit n) (n_value n) = n.
Proof.
  cbv zeta. rewrite !normalize_unit_rule. cbv zeta. simpl.
  rewrite unit_rule_idem. by destruct (is_timestamp descriptor).
Qed.

(** The unit and the tag are the row's unit or a literal of the code:
    a property of the unit's characters that every character below 256
    has holds of them. *)
Lemma normalize_chars (P : Z -> Prop) (descriptor unit : list Z) (value : float) :
  (forall c, 0 <= c < 256 -> P c) -> Forall P unit ->
  Forall P (n_unit (normalize descriptor unit value)) /\
  Forall P (n_unit_zabbix (normalize descriptor unit value)).
Proof.
  intros Ha Hu. assert (Hl : forall s, Forall P (lit s))
    by (intros s; eapply Forall_impl; [apply lit_chars|exact Ha]).
  unfold normalize. repeat case_match; simplify_eq; cbn [n_unit n_unit_zabbix]; auto.
Qed.
