(* ===== verification/Parser.v ===== *)
(** * The parser of the metrics table (src/app.py, lines 172-211)

    [parse_line] is the body of the [for] loop (lines 175-209) on one
    line: split on [;], scale the raw value by the multiplier (lines
    179-184), normalise the unit ([Normalize.normalize], lines 186-206),
    unquote the description and build the metric dictionary (line 208).
    [parse_lines] is the loop, [parse_body] the whole block from
    [res.text.splitlines()] to the line count logged on line 211.  Any
    exception of a line ([IndexError] from [v[k]], [ValueError] from
    [float]) leaves the loop and [do_repeat]: nothing is published. *)

From S2P Require Import Prelude PyText PyFloat Normalize.

(** The dictionary of line 208; [m_type] is the key [type]. *)
Record metric := mkMetric {
  m_id : list Z;
  m_descriptor : list Z;
  m_type : list Z;
  m_value : float;
  m_description : list Z;
  m_unit : list Z;
  m_unit_zabbix : list Z
}.

(** Lines 179-184: the raw value times the multiplier, except that the
    multiplier "1.000000" is not parsed nor applied. *)
Definition scale (rawvalue multiplier : list Z) : result float :=
  if negb (str_eqb multiplier (lit "1.000000")) then
    (x <- py_float rawvalue ;; y <- py_float multiplier ;; Ok (fmul x y))%py
  else py_float rawvalue.

(** Lines 176-208, in the order the code evaluates them. *)
Definition parse_line (line : list Z) : result metric :=
  let v := Str.split 59 line in
  (rawvalue <- index v 3 ;;
   multiplier <- index v 5 ;;
   value <- scale rawvalue multiplier ;;
   unit <- index v 6 ;;
   descriptor <- index v 1 ;;
   let n := normalize descriptor unit value in
   id <- index v 0 ;;
   type <- index v 2 ;;
   description <- index v 4 ;;
   Ok (mkMetric id descriptor type (n_value n) (Str.strip 34 description)
         (n_unit n) (n_unit_zabbix n)))%py.

(** Lines 174-209: [allmetrics] in the order of the lines; the first
    exception ends the loop. *)
Fixpoint parse_lines (ls : list (list Z)) : result (list metric) :=
  match ls with
  | [] => Ok []
  | l :: ls' => (m <- parse_line l ;; ms <- parse_lines ls' ;; Ok (m :: ms))%py
  end.

(** Lines 172-211: the metrics and [linecnt]. *)
Definition parse_body (text : list Z) : result (list metric * nat) :=
  let ls := Str.splitlines text in
  (ms <- parse_lines ls ;; Ok (ms, length ls))%py.

(** ** The loop: one metric per line, in order, or the first exception *)

(** The loop returns metrics exactly when every line parses; the
    metrics are then those of the lines, one per line, in line order. *)
Lemma parse_lines_Forall2 (ls : list (list Z)) (ms : list metric) :
  parse_lines ls = Ok ms <-> Forall2 (fun l m => parse_line l = Ok m) ls ms.
Proof.
  revert ms. induction ls as [|l ls IH]; intros ms; simpl.
  - split; [intros [= <-]; constructor | intros H; inversion H; done].
  - split.
    + intros H. inv_result. constructor; [done | by apply IH].
    + intros H. inversion H as [|? m ? ms' Hl Hls]; subst.
      rewrite Hl. simpl. by rewrite (proj2 (IH ms') Hls).
Qed.

Lemma parse_lines_length (ls : list (list Z)) (ms : list metric) :
  parse_lines ls = Ok ms -> length ms = length ls.
Proof. intros H%parse_lines_Forall2. symmetry. by eapply Forall2_length. Qed.

(** A line that fails after lines that parse makes the loop fail. *)
Lemma parse_lines_raise_at (pre : list (list Z)) (l : list Z) (post : list (list Z))
    (ms : list metric) (e : exn) :
  Forall2 (fun l m => parse_line l = Ok m) pre ms -> parse_line l = Raise e ->
  parse_lines (pre ++ l :: post) = Raise e.
Proof.
  intros Hpre Hl. induction Hpre as [|p m pre' ms' Hp _ IH]; simpl.
  - by rewrite Hl.
  - by rewrite Hp; simpl; rewrite IH.
Qed.

(** C14: The loop raises exactly the exception of its first failing line,
    all lines before it having parsed. *)
Theorem parse_lines_error (ls : list (list Z)) (e : exn) :
  parse_lines ls = Raise e <->
  exists pre l post ms, ls = pre ++ l :: post /\
    Forall2 (fun l m => parse_line l = Ok m) pre ms /\ parse_line l = Raise e.
Proof.
  split; [|intros (pre & l & post & ms & -> & Hpre & Hl); by apply (parse_lines_raise_at pre l post ms)].
  induction ls as [|l ls IH]; simpl; [discriminate|].
  intros H. destruct (parse_line l) as [m|e'] eqn:El; simpl in H.
  - destruct (parse_lines ls) eqn:Els; simpl in H; [discriminate|].
    inversion H; subst.
    destruct (IH eq_refl) as (pre & l' & post & ms & -> & Hpre & Hl').
    exists (l :: pre), l', post, (m :: ms). repeat split; auto.
  - inversion H; subst. exists [], l, ls, []. auto.
Qed.

(** ** One line *)

(** The metric a well-formed row yields once its value is scaled. *)
Definition row_metric (id descriptor type description unit : list Z) (value : float) : metric :=
  let n := normalize descriptor unit value in
  mkMetric id descriptor type (n_value n) (Str.strip 34 description) (n_unit n) (n_unit_zabbix n).

(** A row of at least seven [;]-free fields parses as its value
    scales. *)
Lemma parse_line_fields (id descriptor type raw description mult unit : list Z)
    (rest : list (list Z)) :
  Forall (fun f => 59 ∉ f) ([id; descriptor; type; raw; description; mult; unit] ++ rest) ->
  parse_line (Str.join 59 ([id; descriptor; type; raw; description; mult; unit] ++ rest))
  = (value <- scale raw mult ;; Ok (row_metric id descriptor type description unit value))%py.
Proof.
  intros Hf. unfold parse_line.
  rewrite StrFacts.join_split by (done || discriminate).
  simpl. by destruct (scale raw mult).
Qed.

(** C3: A row of at least seven [;]-free fields whose value scales parses
    to the metric of its fields 0, 1, 2 and 4, its scaled and normalised
    value and unit; further fields are ignored. *)
Theorem parse_line_row (id descriptor type raw description mult unit : list Z)
    (rest : list (list Z)) (value : float) :
  Forall (fun f => 59 ∉ f) ([id; descriptor; type; raw; description; mult; unit] ++ rest) ->
  scale raw mult = Ok value ->
  parse_line (Str.join 59 ([id; descriptor; type; raw; description; mult; unit] ++ rest))
  = Ok (row_metric id descriptor type description unit value).
Proof.
  intros Hf Hs. by rewrite parse_line_fields, Hs.
Qed.

Lemma scale_error (raw mult : list Z) (e : exn) :
  scale raw mult = Raise e -> e = ValueError.
Proof.
  unfold scale. intros H.
  destruct (py_float raw) as [x|e1] eqn:E1, (py_float mult) as [y|e2] eqn:E2;
    case_match; simpl in H; simplify_eq; eauto using py_float_error.
Qed.

(** C15: A line with fewer than seven fields never yields a metric: it
    raises IndexError, or ValueError when its sixth field exists and its
    value is not a float. *)
Theorem parse_line_short (line : list Z) :
  (length (Str.split 59 line) < 7)%nat ->
  exists e, parse_line line = Raise e /\ (e = IndexError \/ e = ValueError).
Proof.
  intros Hlen. unfold parse_line.
  set (v := Str.split 59 line) in *.
  destruct (decide (length v <= 3)%nat) as [H3|H3].
  { rewrite index_ge by done. eauto. }
  destruct (index_lt v 3) as (r & _ & ->); [lia|]. simpl.
  destruct (decide (length v <= 5)%nat) as [H5|H5].
  { rewrite index_ge by done. eauto. }
  destruct (index_lt v 5) as (mu & _ & ->); [lia|]. simpl.
  destruct (scale r mu) as [x|e] eqn:Hs; simpl.
  - rewrite index_ge by lia. eauto.
  - exists e. split; [done|]. right. by apply scale_error in Hs.
Qed.

Lemma py_float_one : py_float (lit "1.000000") = Ok float_one.
Proof. vm_compute. reflexivity. Qed.

(** C4: Skipping the multiplication for the multiplier "1.000000" (line
    181) computes what the general formula [float(rawvalue) *
    float(multiplier)] of line 182 computes, for every raw value: what
    [float] returns is always a valid binary64 value, and multiplying one
    by 1.0 returns it unchanged. *)
Theorem scale_legacy (raw mult : list Z) :
  scale raw mult = (x <- py_float raw ;; y <- py_float mult ;; Ok (fmul x y))%py.
Proof.
  unfold scale.
  destruct (str_eqb_spec mult (lit "1.000000")) as [->|]; [|reflexivity].
  cbn [negb]. rewrite py_float_one.
  destruct (py_float raw) as [x|e] eqn:E; [|reflexivity].
  simpl. rewrite fmul_one; eauto using py_float_valid.
Qed.

(** A scaled value is a valid binary64 value. *)
Lemma scale_valid (raw mult : list Z) (x : float) : scale raw mult = Ok x -> valid x = true.
Proof.
  unfold scale. intros H. case_match; [|eauto using py_float_valid].
  inv_result. eauto using fmul_valid, py_float_valid.
Qed.

Lemma parse_line_valid (line : list Z) (m : metric) :
  parse_line line = Ok m -> valid (m_value m) = true.
Proof.
  unfold parse_line. intros H. inv_result. cbn [m_value].
  eauto using normalize_valid, scale_valid.
Qed.

(** All the strings of a metric satisfy [P]. *)
Definition metric_chars (P : Z -> Prop) (m : metric) : Prop :=
  Forall P (m_id m) /\ Forall P (m_descriptor m) /\ Forall P (m_type m) /\
  Forall P (m_description m) /\ Forall P (m_unit m) /\ Forall P (m_unit_zabbix m).

(** The strings of a metric are made of characters of its line and of
    the code's literals. *)
Lemma parse_line_chars (P : Z -> Prop) (line : list Z) (m : metric) :
  (forall c, 0 <= c < 256 -> P c) -> Forall P line -> parse_line line = Ok m -> metric_chars P m.
Proof.
  unfold parse_line. intros Ha Hl H. inv_result.
  pose proof (StrFacts.split_chars P 59 line Hl) as Hv.
  repeat match goal with H : index _ _ = Ok _ |- _ => apply (index_Forall _ _ _ _ Hv) in H end.
  unfold metric_chars. cbn [m_id m_descriptor m_type m_description m_unit m_unit_zabbix].
  repeat split; try done; [by apply StrFacts.strip_chars|eapply proj1|eapply proj2];
    (apply normalize_chars; [exact Ha|done]).
Qed.

(** ** The whole body *)

(** [linecnt] is the number of lines when the body parses. *)
Lemma parse_body_ok (text : list Z) (ms : list metric) (n : nat) :
  parse_body text = Ok (ms, n) ->
  n = length (Str.splitlines text) /\ Forall2 (fun l m => parse_line l = Ok m) (Str.splitlines text) ms.
Proof.
  unfold parse_body. intros H. inv_result. split; [done|]. by apply parse_lines_Forall2.
Qed.

Lemma parse_body_chars (P : Z -> Prop) (text : list Z) (ms : list metric) (n : nat) :
  (forall c, 0 <= c < 256 -> P c) -> Forall P text -> parse_body text = Ok (ms, n) ->
  Forall (metric_chars P) ms.
Proof.
  intros Ha Ht (_ & Hm)%parse_body_ok.
  pose proof (StrFacts.splitlines_chars P text Ht) as Hl.
  induction Hm as [|l m ls ms Hlm _ IH]; [done|]. apply Forall_cons in Hl as [Hl Hls].
  constructor; [by eapply parse_line_chars|by apply IH].
Qed.

(** Every metric of a parsed body carries a valid binary64 value
    (canonical finite, signed zero, infinity or NaN), whatever the text
    of the response. *)
Theorem parse_body_valid (text : list Z) (ms : list metric) (n : nat) :
  parse_body text = Ok (ms, n) -> Forall (fun m => valid (m_value m) = true) ms.
Proof.
  intros [_ Hms]%parse_body_ok.
  induction Hms; constructor; eauto using parse_line_valid.
Qed.

(** A body of N newline-terminated rows that each parse yields exactly
    N metrics, those of the rows in row order, and a line count of N. *)
Lemma parse_body_rows (rows : list (list Z)) (ms : list metric) :
  Forall StrFacts.no_linebreak rows ->
  Forall2 (fun l m => parse_line l = Ok m) rows ms ->
  parse_body (concat (map (fun l => l ++ [10]) rows)) = Ok (ms, length rows).
Proof.
  intros Hc Hm. unfold parse_body.
  rewrite StrFacts.splitlines_terminated by done.
  by rewrite (proj2 (parse_lines_Forall2 rows ms) Hm).
Qed.

(** C13: An empty line anywhere in the body makes the whole cycle fail with
    IndexError: the loop does not skip it ([v[3]] of [['']]), so no
    metric of the other rows is published. *)
Theorem parse_body_blank_line (pre post : list (list Z)) :
  Forall StrFacts.no_linebreak (pre ++ post) ->
  Forall (fun l => is_ok (parse_line l) = true) pre ->
  parse_body (concat (map (fun l => l ++ [10]) (pre ++ [] :: post))) = Raise IndexError.
Proof.
  intros Hc Hpre. unfold parse_body.
  rewrite StrFacts.splitlines_terminated.
  2:{ apply Forall_app in Hc as [? ?]. apply Forall_app. repeat constructor; done. }
  enough (parse_lines (pre ++ [] :: post) = Raise IndexError) as -> by reflexivity.
  assert (exists ms, Forall2 (fun l m => parse_line l = Ok m) pre ms) as [ms Hms].
  { clear Hc. induction Hpre as [|l pre Hl _ [ms IH]]; [by exists []|].
    destruct (parse_line l) as [m|] eqn:E; [|done]. exists (m :: ms). by constructor. }
  by apply (parse_lines_raise_at pre [] post ms).
Qed.

(** ** The specification's end-to-end scenarios *)

(** The first row of the sample in the comment of line 167. *)
Definition sample_row : list Z :=
  lit "11305;SystemState.Global.Measurement.ACFrequency;F;50.023193;" ++ [34] ++
  lit "AC Netz Frequenz" ++ [34] ++
  lit ";1.000000;Hz;2;1;2;1;0.000000;0.000000;0;0;0".

(** Its metric: 50.023193 rounds to 7040138542333825 * 2^-47. *)
Definition sample_metric : metric :=
  mkMetric (lit "11305") (lit "SystemState.Global.Measurement.ACFrequency") (lit "F")
    (SpecFloat.S754_finite false 7040138542333825 (-47)) (lit "AC Netz Frequenz")
    (lit "Hz") (lit "Hz").

(** The sample row yields the metric of scenario 1: its fields, the
    float of 50.023193 unscaled, the unquoted description, unit Hz and
    tag Hz. *)
Example scenario_frequency :
  exists v, py_float (lit "50.023193") = Ok v /\
  parse_line sample_row =
    Ok (mkMetric (lit "11305") (lit "SystemState.Global.Measurement.ACFrequency") (lit "F")
          v (lit "AC Netz Frequenz") (lit "Hz") (lit "Hz")).
Proof. eexists. split; vm_compute; reflexivity. Qed.

(** C21: Every reading in unit mA with the multiplier 1.000000
    (scenario 2), whatever its row and value, is published in unit A
    with the tag A and the value [float(raw) * 1000] rounded as a
    binary64 product, unless its descriptor is one of the two timestamp
    descriptors, which only change the tag: the code multiplies by 1000
    where a conversion of milliamperes to amperes divides by 1000. *)
Theorem scenario_milliampere (id descriptor type raw description : list Z)
    (rest : list (list Z)) (v : float) :
  Forall (fun f => 59 ∉ f) ([id; descriptor; type; raw; description] ++ rest) ->
  descriptor <> backup_ts -> descriptor <> sendproto_ts -> py_float raw = Ok v ->
  parse_line (Str.join 59 ([id; descriptor; type; raw; description; lit "1.000000"; lit "mA"] ++ rest))
  = Ok (mkMetric id descriptor type (fmul v (float_of_int 1000)) (Str.strip 34 description)
          (lit "A") (lit "A")).
Proof.
  intros Hf Hb Hs Hv. rewrite parse_line_fields.
  - unfold scale. rewrite str_eqb_refl. cbn [negb]. rewrite Hv. cbn.
    unfold row_metric, normalize. rewrite (str_eqb_false descriptor backup_ts Hb).
    by rewrite (str_eqb_false descriptor sendproto_ts Hs).
  - apply Forall_app in Hf as [Hf Hr]. apply Forall_app. split; [|exact Hr].
    apply Forall_cons in Hf as (? & Hf). apply Forall_cons in Hf as (? & Hf).
    apply Forall_cons in Hf as (? & Hf). apply Forall_cons in Hf as (? & Hf).
    apply Forall_cons in Hf as (? & _).
    repeat constructor; try done; by apply not_elem_of_forallb.
Qed.

(** Scenario 2: 5.0 mA is published as 5000.0 A. *)
Lemma scenario_milliampere_witness :
  py_float (lit "5.0") = Ok (float_of_int 5) /\
  parse_line (Str.join 59 ([lit "1"; lit "x"; lit "F"; lit "5.0"; lit "d"; lit "1.000000"; lit "mA"] ++ []))
  = Ok (mkMetric (lit "1") (lit "x") (lit "F") (fmul (float_of_int 5) (float_of_int 1000))
          (Str.strip 34 (lit "d")) (lit "A") (lit "A")) /\
  fmul (float_of_int 5) (float_of_int 1000) = float_of_int 5000.
Proof.
  split; [vm_compute; reflexivity|]. split; [|vm_compute; reflexivity].
  apply scenario_milliampere;
    [repeat constructor; vm_compute; by apply not_elem_of_forallb
    | vm_compute; discriminate | vm_compute; discriminate | vm_compute; reflexivity].
Defined.

(** Hours are published as seconds (scenario 4), and the backup
    timestamp descriptor forces the tag unixtime whatever the unit
    (scenario 5), kWh keeps its unit with tag !kWh (scenario 3). *)
Example scenario_hours_timestamp_kwh :
  (exists m, parse_line (lit "1;x;F;2.0;d;1.000000;h") = Ok m /\
     m_value m = float_of_int 7200 /\ m_unit m = lit "s" /\ m_unit_zabbix m = lit "s") /\
  (exists m, parse_line (lit "2;SystemState_persistent.Global.LastSystemBackupTimestamp;F;1614000000;d;1.000000;h") = Ok m /\
     m_unit m = lit "s" /\ m_unit_zabbix m = lit "unixtime") /\
  (exists m, parse_line (lit "3;y;F;12.5;d;1.000000;kWh") = Ok m /\
     m_unit m = lit "kWh" /\ m_unit_zabbix m = lit "!kWh").
Proof.
  repeat split; eexists; (split; [vm_compute; reflexivity | vm_compute; auto]).
Qed.

(** ** Witnesses *)

Lemma parse_line_short_witness :
  (length (Str.split 59 (lit "1;x;F;5.0;d;1.000000")) < 7)%nat /\
  exists e, parse_line (lit "1;x;F;5.0;d;1.000000") = Raise e /\ (e = IndexError \/ e = ValueError).
Proof.
  assert (H : (length (Str.split 59 (lit "1;x;F;5.0;d;1.000000")) < 7)%nat) by (vm_compute; lia).
  split; [exact H | exact (parse_line_short _ H)].
Defined.

Lemma parse_line_row_witness :
  exists v, scale (lit "50.023193") (lit "1.000000") = Ok v /\
  parse_line (Str.join 59 ([lit "11305"; lit "SystemState.Global.Measurement.ACFrequency"; lit "F";
                            lit "50.023193"; lit "AC Netz Frequenz"; lit "1.000000"; lit "Hz"]
                           ++ [lit "2"; lit "1"]))
  = Ok (row_metric (lit "11305") (lit "SystemState.Global.Measurement.ACFrequency") (lit "F")
          (lit "AC Netz Frequenz") (lit "Hz") v).
Proof.
  destruct (scale (lit "50.023193") (lit "1.000000")) as [v|e] eqn:E;
    [|vm_compute in E; discriminate].
  exists v. split; [reflexivity|].
  apply parse_line_row; [|exact E].
  simpl. repeat constructor. all: apply not_elem_of_forallb; reflexivity.
Defined.

Lemma parse_body_blank_line_witness :
  parse_body (concat (map (fun l => l ++ [10]) ([sample_row] ++ [] :: [sample_row])))
  = Raise IndexError.
Proof.
  apply parse_body_blank_line.
  - unfold StrFacts.no_linebreak. repeat constructor.
  - constructor; [vm_compute; reflexivity | constructor].
Defined.

