(* ===== verification/Json.v ===== *)
(** * The MQTT payload: [json.dumps(allmetrics)] (src/app.py, line 215)

    [dumps] is [json.dumps] with its defaults, as CPython runs it (the C
    encoder of [Modules/_json.c]): [ensure_ascii=True], separators
    [", "] and [": "], [allow_nan=True], keys in insertion order.  A
    metric is the dictionary of line 208, with its keys [id],
    [descriptor], [type], [value], [description], [unit] and
    [unit_zabbix] in that order; strings are written by
    [ascii_escape_unichar] (short escapes for the quote, the backslash
    and [\b \f \n \r \t], [\uXXXX] in lower-case hexadecimal for the
    other characters outside the printable ASCII range, a surrogate pair
    above U+FFFF); a finite float by [float.__repr__]
    ([FloatRepr.repr]), the others as [NaN], [Infinity], [-Infinity].

    [loads] is the consumer's [json.loads] (the C scanner of
    [Modules/_json.c]) on the values such a payload can hold: it is not
    code of the program and serves to state what the broker's
    subscribers read. *)

From S2P Require Import Prelude PyText Utf8 PyFloat FloatRepr Normalize Parser.
From Stdlib Require Import SpecFloat.

Module Json.
Import FloatParse FloatRepr.

(** ** The encoder *)

(** [Py_hexdigits]: lower case. *)
Definition hexdigit (n : Z) : Z := if n <? 10 then 48 + n else 87 + n.

(** [\uXXXX] for a 16-bit value. *)
Definition u_escape (n : Z) : list Z :=
  [92; 117; hexdigit (n / 4096 mod 16); hexdigit (n / 256 mod 16);
   hexdigit (n / 16 mod 16); hexdigit (n mod 16)].

(** [ascii_escape_unichar], and the test [S_CHAR] that keeps a
    character as it is. *)
Definition escape_char (c : Z) : list Z :=
  if (32 <=? c) && (c <=? 126) && negb (c =? 92) && negb (c =? 34) then [c]
  else if c =? 92 then [92; 92]
  else if c =? 34 then [92; 34]
  else if c =? 8 then [92; 98]
  else if c =? 12 then [92; 102]
  else if c =? 10 then [92; 110]
  else if c =? 13 then [92; 114]
  else if c =? 9 then [92; 116]
  else if 65536 <=? c then
    u_escape (55232 + Z.shiftr c 10) ++ u_escape (56320 + Z.land c 1023)
  else u_escape c.

(** [encoder_encode_string]: the quoted, escaped string. *)
Definition encode_string (s : list Z) : list Z := 34 :: flat_map escape_char s ++ [34].

(** [encoder_encode_float]. *)
Definition encode_float (x : float) : list Z :=
  match x with
  | S754_nan => lit "NaN"
  | S754_infinity false => lit "Infinity"
  | S754_infinity true => lit "-Infinity"
  | _ => FloatRepr.repr x
  end.

(** The items of a list or a dictionary, with their separator. *)
Fixpoint join_with (sep : list Z) (xs : list (list Z)) : list Z :=
  match xs with
  | [] => []
  | [x] => x
  | x :: xs' => x ++ sep ++ join_with sep xs'
  end.

(** One [key: value] item of a dictionary. *)
Definition encode_item (k v : list Z) : list Z := encode_string k ++ lit ": " ++ v.

(** The dictionary of line 208. *)
Definition encode_metric (m : metric) : list Z :=
  [123] ++ join_with (lit ", ")
    [encode_item (lit "id") (encode_string (m_id m));
     encode_item (lit "descriptor") (encode_string (m_descriptor m));
     encode_item (lit "type") (encode_string (m_type m));
     encode_item (lit "value") (encode_float (m_value m));
     encode_item (lit "description") (encode_string (m_description m));
     encode_item (lit "unit") (encode_string (m_unit m));
     encode_item (lit "unit_zabbix") (encode_string (m_unit_zabbix m))] ++ [125].

(** [json.dumps(allmetrics)]. *)
Definition dumps (ms : list metric) : list Z :=
  [91] ++ join_with (lit ", ") (map encode_metric ms) ++ [93].

(** ** The consumer's decoder, [json.loads] *)

Inductive jvalue :=
| JNull
| JBool (b : bool)
| JInt (n : Z)
| JFloat (x : float)
| JStr (s : list Z)
| JArr (vs : list jvalue)
| JObj (kvs : list (list Z * jvalue)).

(** [IS_WHITESPACE]: space, tab, newline, carriage return. *)
Definition is_ws (c : Z) : bool := (c =? 32) || (c =? 9) || (c =? 10) || (c =? 13).

Fixpoint skip_ws (s : list Z) : list Z :=
  match s with c :: s' => if is_ws c then skip_ws s' else s | [] => [] end.

Definition hexval (c : Z) : option Z :=
  if (48 <=? c) && (c <=? 57) then Some (c - 48)
  else if (97 <=? c) && (c <=? 102) then Some (c - 87)
  else if (65 <=? c) && (c <=? 70) then Some (c - 55)
  else None.

Definition hex4 (a b c d : Z) : option Z :=
  match hexval a, hexval b, hexval c, hexval d with
  | Some a, Some b, Some c, Some d => Some (4096 * a + 256 * b + 16 * c + d)
  | _, _, _, _ => None
  end.

(** The one-character escapes of a quote, a backslash, a slash and
    [b f n r t]. *)
Definition simple_escape (e : Z) : option Z :=
  if e =? 34 then Some 34 else if e =? 92 then Some 92 else if e =? 47 then Some 47
  else if e =? 98 then Some 8 else if e =? 102 then Some 12 else if e =? 110 then Some 10
  else if e =? 114 then Some 13 else if e =? 116 then Some 9 else None.

Definition cons_char (c : Z) (r : option (list Z * list Z)) : option (list Z * list Z) :=
  match r with Some (str, rest) => Some (c :: str, rest) | None => None end.

(** [scanstring_unicode] in strict mode, after the opening quote: the
    string and the text after its closing quote.  A high surrogate
    escape followed by a low one (and at least one more character) is
    one character; control characters must be escaped. *)
Fixpoint scan_string (s : list Z) : option (list Z * list Z) :=
  match s with
  | [] => None
  | c :: tl =>
      if c =? 34 then Some ([], tl)
      else if c =? 92 then
        match tl with
        | [] => None
        | e :: tl1 =>
            if e =? 117 then
              match tl1 with
              | a :: b :: c1 :: d :: tl2 =>
                  match hex4 a b c1 d with
                  | None => None
                  | Some u =>
                      if (55296 <=? u) && (u <=? 56319) then
                        match tl2 with
                        | x :: y :: a2 :: b2 :: c2 :: d2 :: ((_ :: _) as tl3) =>
                            if (x =? 92) && (y =? 117) then
                              match hex4 a2 b2 c2 d2 with
                              | None => None
                              | Some u2 =>
                                  if (56320 <=? u2) && (u2 <=? 57343)
                                  then cons_char (65536 + (u - 55296) * 1024 + (u2 - 56320)) (scan_string tl3)
                                  else cons_char u (scan_string tl2)
                              end
                            else cons_char u (scan_string tl2)
                        | _ => cons_char u (scan_string tl2)
                        end
                      else cons_char u (scan_string tl2)
                  end
              | _ => None
              end
            else match simple_escape e with
                 | Some ch => cons_char ch (scan_string tl1)
                 | None => None
                 end
        end
      else if c <? 32 then None
      else cons_char c (scan_string tl)
  end.

(** The integer part of [_match_number_unicode]: a non-zero digit and
    the digits after it, or a single [0]. *)
Definition scan_int (s : list Z) : option (list Z * list Z) :=
  match s with
  | c :: r =>
      if (49 <=? c) && (c <=? 57) then let '(ds, r1) := take_digits r in Some (c :: ds, r1)
      else if c =? 48 then Some ([48], r)
      else None
  | [] => None
  end.

(** The fraction: a point followed by a digit, and the digits after. *)
Definition scan_frac (s : list Z) : list Z * list Z :=
  match s with
  | p :: d :: r =>
      if (p =? 46) && is_digit d then let '(ds, r1) := take_digits r in (46 :: d :: ds, r1)
      else ([], s)
  | _ => ([], s)
  end.

(** The exponent: [e] or [E], an optional sign and at least one digit;
    without a digit the scanner backtracks to the [e]. *)
Definition scan_exp (s : list Z) : list Z * list Z :=
  match s with
  | e :: r =>
      if (e =? 101) || (e =? 69) then
        let '(sg, r1) :=
          match r with
          | x :: r2 => if (x =? 45) || (x =? 43) then ([x], r2) else ([], r)
          | [] => ([], [])
          end in
        match take_digits r1 with
        | ((_ :: _) as ds, r3) => (e :: sg ++ ds, r3)
        | _ => ([], s)
        end
      else ([], s)
  | [] => ([], [])
  end.

(** [_match_number_unicode]: an optional minus, the integer part, the
    fraction and the exponent; with a fraction or an exponent the text
    goes through [float()], otherwise it is an [int]. *)
Definition scan_number (s : list Z) : option (jvalue * list Z) :=
  let '(sign, s1) :=
    match s with c :: s' => if c =? 45 then ([45], s') else ([], s) | [] => ([], []) end in
  match scan_int s1 with
  | None => None
  | Some (ip, r1) =>
      let '(frac, r2) := scan_frac r1 in
      let '(expo, r3) := scan_exp r2 in
      match frac, expo with
      | [], [] =>
          Some (JInt (match sign with [] => digits_value ip | _ => - digits_value ip end), r3)
      | _, _ =>
          match py_float (sign ++ ip ++ frac ++ expo) with
          | Ok x => Some (JFloat x, r3)
          | Raise _ => None
          end
      end
  end.

Definition starts_with (p s : list Z) : bool := bool_decide (firstn (length p) s = p).

(** [scan_once_unicode], [_parse_array_unicode] and
    [_parse_object_unicode]; [fuel] bounds the nesting and the number of
    items.  [loads] gives one more than twice the length of the text,
    which is enough: [parse_fuel_enough] shows that more fuel changes
    nothing. *)
Fixpoint parse_value (fuel : nat) (s : list Z) : option (jvalue * list Z) :=
  match fuel with
  | O => None
  | S f =>
      match s with
      | [] => None
      | c :: s' =>
          if c =? 34 then
            match scan_string s' with Some (str, r) => Some (JStr str, r) | None => None end
          else if c =? 123 then
            match skip_ws s' with
            | d :: r =>
                if d =? 125 then Some (JObj [], r)
                else match parse_members f (d :: r) with
                     | Some (kvs, r') => Some (JObj kvs, r')
                     | None => None
                     end
            | [] => None
            end
          else if c =? 91 then
            match skip_ws s' with
            | d :: r =>
                if d =? 93 then Some (JArr [], r)
                else match parse_elems f (d :: r) with
                     | Some (vs, r') => Some (JArr vs, r')
                     | None => None
                     end
            | [] => None
            end
          else if starts_with (lit "null") s then Some (JNull, skipn 4 s)
          else if starts_with (lit "true") s then Some (JBool true, skipn 4 s)
          else if starts_with (lit "false") s then Some (JBool false, skipn 5 s)
          else if starts_with (lit "NaN") s then Some (JFloat S754_nan, skipn 3 s)
          else if starts_with (lit "Infinity") s then Some (JFloat (S754_infinity false), skipn 8 s)
          else if starts_with (lit "-Infinity") s then Some (JFloat (S754_infinity true), skipn 9 s)
          else scan_number s
      end
  end
with parse_elems (fuel : nat) (s : list Z) : option (list jvalue * list Z) :=
  match fuel with
  | O => None
  | S f =>
      match parse_value f s with
      | None => None
      | Some (v, r) =>
          match skip_ws r with
          | c :: r1 =>
              if c =? 93 then Some ([v], r1)
              else if c =? 44 then
                match parse_elems f (skip_ws r1) with
                | Some (vs, r2) => Some (v :: vs, r2)
                | None => None
                end
              else None
          | [] => None
          end
      end
  end
with parse_members (fuel : nat) (s : list Z) : option (list (list Z * jvalue) * list Z) :=
  match fuel with
  | O => None
  | S f =>
      match s with
      | c :: s' =>
          if c =? 34 then
            match scan_string s' with
            | None => None
            | Some (k, r) =>
                match skip_ws r with
                | d :: r1 =>
                    if d =? 58 then
                      match parse_value f (skip_ws r1) with
                      | None => None
                      | Some (v, r2) =>
                          match skip_ws r2 with
                          | e :: r3 =>
                              if e =? 125 then Some ([(k, v)], r3)
                              else if e =? 44 then
                                match parse_members f (skip_ws r3) with
                                | Some (kvs, r4) => Some ((k, v) :: kvs, r4)
                                | None => None
                                end
                              else None
                          | [] => None
                          end
                      end
                    else None
                | [] => None
                end
            end
          else None
      | [] => None
      end
  end.

(** [json.loads(s)] on a given fuel: one value, surrounded by whitespace
    only; a leading byte-order mark is refused. *)
Definition loads_fuel (fuel : nat) (s : list Z) : option jvalue :=
  match s with
  | c :: _ => if c =? 65279 then None else
      match parse_value fuel (skip_ws s) with
      | Some (v, r) => match skip_ws r with [] => Some v | _ => None end
      | None => None
      end
  | [] => None
  end.

(** [json.loads(s)], with one more than twice the length of [s] as fuel.
    CPython's recursion limit ([Py_EnterRecursiveCall] in the scanner) is
    not modelled: the payloads read here nest two levels deep. *)
Definition loads (s : list Z) : option jvalue := loads_fuel (S (2 * length s)) s.

(** ** What the subscriber reads *)

(** The JSON number grammar of the text [float.__repr__] writes. *)
Definition all_digits (l : list Z) : Prop := Forall (fun c => is_digit c = true) l.

Definition int_ok (ip : list Z) : Prop :=
  ip = [48] \/ exists d ds, ip = d :: ds /\ 49 <= d <= 57 /\ all_digits ds.

Definition frac_ok (fr : list Z) : Prop :=
  fr = [] \/ exists ds, fr = 46 :: ds /\ ds <> [] /\ all_digits ds.

Definition exp_ok (ex : list Z) : Prop :=
  ex = [] \/ exists sg ds, ex = 101 :: sg ++ ds /\ (sg = [] \/ sg = [43] \/ sg = [45]) /\
                          ds <> [] /\ all_digits ds.

Definition float_text (t : list Z) : Prop :=
  exists (neg : bool) (ip fr ex : list Z), t = (if neg then [45] else []) ++ ip ++ fr ++ ex /\
    int_ok ip /\ frac_ok fr /\ exp_ok ex /\ fr ++ ex <> [].

(** [stops P r]: the text [r] does not start with a character of [P]. *)
Definition stops (P : Z -> bool) (r : list Z) : Prop :=
  match r with c :: _ => P c = false | [] => True end.

(** The characters that would continue a number. *)
Definition number_char (c : Z) : bool := is_digit c || (c =? 46) || (c =? 101) || (c =? 69).

(** Literals of the source as the lists of code points they denote. *)
Ltac lits :=
  repeat match goal with
  | |- context [lit ?s] => let v := eval vm_compute in (lit s) in change (lit s) with v
  end.

(** [reads n t v]: the text [t] starts with a non-blank and, with fuel
    [n] or more and followed by anything that cannot continue a number,
    parses as [v]. *)
Definition reads (n : nat) (t : list Z) (v : jvalue) : Prop :=
  (exists c0 t', t = c0 :: t' /\ is_ws c0 = false) /\
  forall f rest, (n <= f)%nat -> stops number_char rest ->
    parse_value f (t ++ rest) = Some (v, rest).

(** A dictionary item: the key as a string, the text of the value. *)
Definition item := (list Z * list Z * jvalue)%type.

Definition item_text (i : item) : list Z := let '(k, t, _) := i in encode_item k t.

Definition item_value (i : item) : list Z * jvalue := let '(k, _, v) := i in (k, v).

Definition item_ok (n : nat) (i : item) : Prop :=
  let '(k, t, v) := i in Forall (fun c => Utf8.is_scalar c = true) k /\ reads n t v.

(** The dictionary of line 208 as the subscriber reads it. *)
Definition metric_json (m : metric) : jvalue :=
  JObj [(lit "id", JStr (m_id m)); (lit "descriptor", JStr (m_descriptor m));
        (lit "type", JStr (m_type m)); (lit "value", JFloat (m_value m));
        (lit "description", JStr (m_description m)); (lit "unit", JStr (m_unit m));
        (lit "unit_zabbix", JStr (m_unit_zabbix m))].

(** A metric whose strings are sequences of Unicode scalar values and
    whose value is a well-formed binary64 number. *)
Definition metric_ok (m : metric) : bool :=
  forallb Utf8.is_scalar (m_id m) && forallb Utf8.is_scalar (m_descriptor m) &&
  forallb Utf8.is_scalar (m_type m) && forallb Utf8.is_scalar (m_description m) &&
  forallb Utf8.is_scalar (m_unit m) && forallb Utf8.is_scalar (m_unit_zabbix m) &&
  valid (m_value m).

Definition metric_items (m : metric) : list item :=
  [(lit "id", encode_string (m_id m), JStr (m_id m));
   (lit "descriptor", encode_string (m_descriptor m), JStr (m_descriptor m));
   (lit "type", encode_string (m_type m), JStr (m_type m));
   (lit "value", encode_float (m_value m), JFloat (m_value m));
   (lit "description", encode_string (m_description m), JStr (m_description m));
   (lit "unit", encode_string (m_unit m), JStr (m_unit m));
   (lit "unit_zabbix", encode_string (m_unit_zabbix m), JStr (m_unit_zabbix m))].

(** A character [ensure_ascii] lets through. *)

Definition printable (c : Z) : Prop := 32 <= c <= 126.

(** ** Strings: [scanstring_unicode] undoes [ascii_escape_unichar] *)

Lemma hexval_hexdigit (n : Z) : 0 <= n < 16 -> hexval (hexdigit n) = Some n.
Proof. intros. unfold hexval, hexdigit. zbool; f_equal; lia. Qed.

Lemma hex4_u_escape (n : Z) :
  0 <= n < 65536 ->
  hex4 (hexdigit (n / 4096 mod 16)) (hexdigit (n / 256 mod 16))
       (hexdigit (n / 16 mod 16)) (hexdigit (n mod 16)) = Some n.
Proof.
  intros. unfold hex4. rewrite !hexval_hexdigit by (apply Z.mod_pos_bound; lia).
  f_equal. Z.div_mod_to_equations. lia.
Qed.

Lemma scan_u_escape (n : Z) (rest : list Z) :
  0 <= n < 65536 -> ~ (55296 <= n <= 56319) ->
  scan_string (u_escape n ++ rest) = cons_char n (scan_string rest).
Proof.
  intros Hn Hs. unfold u_escape. cbn [app scan_string].
  cbn [Z.eqb Pos.eqb]. rewrite hex4_u_escape by done. cbv zeta. by zbool.
Qed.

Lemma scan_surrogate_pair (c : Z) (r : Z) (rest : list Z) :
  65536 <= c < 1114112 ->
  scan_string (u_escape (55232 + Z.shiftr c 10) ++ u_escape (56320 + Z.land c 1023) ++ r :: rest)
  = cons_char c (scan_string (r :: rest)).
Proof.
  intros Hc. change 1023 with (Z.ones 10).
  rewrite Z.shiftr_div_pow2, (Z.land_ones c 10) by lia. change (2 ^ 10) with 1024.
  assert (64 <= c / 1024 < 1088) by (split; [apply Z.div_le_lower_bound|apply Z.div_lt_upper_bound]; lia).
  pose proof (Z.mod_pos_bound c 1024 ltac:(lia)).
  set (hi := 55232 + c / 1024). set (lo := 56320 + c mod 1024).
  unfold u_escape at 1. cbn [app scan_string]. cbn [Z.eqb Pos.eqb].
  rewrite hex4_u_escape by (subst hi; lia). cbv zeta.
  unfold u_escape. cbn [app]. cbn [Z.eqb Pos.eqb andb].
  rewrite hex4_u_escape by (subst lo; lia).
  zdecide. cbv beta iota. f_equal. subst hi lo. Z.div_mod_to_equations. lia.
Qed.

Lemma scan_escape_char (c r : Z) (rest : list Z) :
  Utf8.is_scalar c = true ->
  scan_string (escape_char c ++ r :: rest) = cons_char c (scan_string (r :: rest)).
Proof.
  intros Hc%Utf8.is_scalar_spec. remember (r :: rest) as tl eqn:Etl. unfold escape_char.
  zbool; try (cbn [app scan_string]; zbool; subst; done); subst tl.
  - rewrite <- app_assoc. apply scan_surrogate_pair; lia.
  - apply scan_u_escape; lia.
  - apply scan_u_escape; lia.
Qed.

Lemma scan_encoded (s rest : list Z) :
  Forall (fun c => Utf8.is_scalar c = true) s ->
  scan_string (flat_map escape_char s ++ 34 :: rest) = Some (s, rest).
Proof.
  induction 1 as [|c s Hc Hs IH]; [done|].
  cbn [flat_map]. rewrite <- app_assoc.
  destruct (flat_map escape_char s ++ 34 :: rest) as [|r rest'] eqn:E; [by destruct s|].
  by rewrite scan_escape_char, IH.
Qed.

(** ** Numbers: [float.__repr__] writes a JSON number *)

Lemma z_digits_nonempty (c : Z) : z_digits c <> [].
Proof.
  destruct c as [|p|p]; try done. cbn [z_digits].
  pose proof (DecimalPos.Unsigned.to_uint_nonnil p). by destruct (Pos.to_uint p).
Qed.

Lemma exp_text_ok (k : Z) : exp_ok (101 :: exp_text k).
Proof.
  right. exists [if k <? 0 then 45 else 43].
  eexists. split; [reflexivity|]. split; [destruct (k <? 0); auto|].
  pose proof (z_digits_digits (Z.abs k)). pose proof (z_digits_nonempty (Z.abs k)).
  destruct (Z.abs k <? 10); split; try done. by constructor.
Qed.

(** Rocq's decimal digits of a positive number start with a non-zero
    digit. *)
Lemma to_uint_lead (p : positive) : exists d ds, uint_codes (Pos.to_uint p) = d :: ds /\ 49 <= d <= 57.
Proof.
  assert (Hn : Pos.to_uint p = Decimal.unorm (Pos.to_uint p)).
  { rewrite <- DecimalPos.Unsigned.to_of, DecimalPos.Unsigned.of_to. done. }
  pose proof (DecimalPos.Unsigned.to_uint_nonnil p) as Hnil.
  pose proof (DecimalPos.Unsigned.to_uint_nonzero p) as Hz.
  destruct (Pos.to_uint p) as [|u|u|u|u|u|u|u|u|u|u]; try done;
    try (do 2 eexists; split; [reflexivity|lia]).
  exfalso. rewrite DecimalFacts.unorm_D0 in Hn.
  assert (Hu : u <> Decimal.Nil) by (intros ->; done).
  pose proof (DecimalFacts.nb_digits_unorm u Hu). rewrite <- Hn in *. cbn [Decimal.nb_digits] in *. lia.
Qed.

Lemma z_digits_lead (c : Z) : 0 < c -> exists d ds, z_digits c = d :: ds /\ 49 <= d <= 57.
Proof. destruct c as [|p|p]; [lia| |lia]. intros _. apply to_uint_lead. Qed.

Lemma strip_lead (c : Z) :
  0 < c -> exists d ds, strip_trailing_zeros (z_digits c) = d :: ds /\ 49 <= d <= 57 /\ all_digits ds.
Proof.
  intros Hc. destruct (z_digits_lead c Hc) as (d & ds & Hd & Hr).
  destruct (strip_trailing_zeros_spec (z_digits c)) as [j Hj].
  pose proof (z_digits_digits c) as Hdig. rewrite Hj in Hdig. apply Forall_app in Hdig as [Hdig _].
  destruct (strip_trailing_zeros (z_digits c)) as [|d' ds'] eqn:E.
  - rewrite Hd in Hj. destruct j; cbn in Hj; simplify_eq; lia.
  - rewrite Hd in Hj. cbn in Hj. simplify_eq. apply Forall_cons in Hdig as [_ ?]. eauto.
Qed.

Lemma digit_range (d : Z) : 48 <= d <= 57 -> is_digit d = true.
Proof. intros. unfold is_digit. by zdecide. Qed.

Lemma render_float_text (neg : bool) (d : Z) (ds : list Z) (decpt : Z) :
  49 <= d <= 57 -> all_digits ds -> float_text (render neg (d :: ds) decpt).
Proof.
  intros Hd Hds. assert (Hd' : is_digit d = true) by (apply digit_range; lia).
  unfold render, float_text. exists neg.
  destruct ((decpt <=? -4) || (16 <? decpt)).
  { exists [d], (match ds with [] => [] | _ => 46 :: ds end), (101 :: exp_text (decpt - 1)).
    split; [by destruct ds|]. split; [right; exists d, []; split; [done|split; [lia|constructor]]|].
    split; [destruct ds; [by left|right; eexists; done]|]. split; [apply exp_text_ok|].
    by destruct ds. }
  destruct (decpt <=? 0) eqn:H0.
  { exists [48], (46 :: repeat 48 (Z.to_nat (- decpt)) ++ d :: ds), [].
    split; [by rewrite app_nil_r|]. split; [by left|]. split; [|split; [by left|done]].
    right. eexists. split; [done|]. split; [by destruct (Z.to_nat (- decpt))|].
    apply Forall_app. split; [apply zeros_digits|by constructor]. }
  destruct (length (d :: ds) <=? Z.to_nat decpt)%nat eqn:Hl.
  { exists ((d :: ds) ++ repeat 48 (Z.to_nat decpt - length (d :: ds))), [46; 48], [].
    split; [by rewrite app_nil_r, <- app_assoc|]. split; [|split; [right; eexists; split; [done|split; [done|by repeat constructor]]|split; [by left|done]]].
    right. do 2 eexists. split; [done|]. split; [lia|]. apply Forall_app. split; [done|apply zeros_digits]. }
  apply Nat.leb_gt in Hl. destruct (Z.to_nat decpt) as [|k] eqn:Ek.
  { exfalso. apply Z.leb_gt in H0. lia. }
  exists (d :: firstn k ds), (46 :: skipn k ds), [].
  split; [by rewrite app_nil_r|]. split; [right; do 2 eexists; split; [done|]; split; [lia|]; by apply Forall_take|].
  split; [|split; [by left|done]]. right. eexists. split; [done|]. split; [|by apply Forall_drop].
  cbn [length] in Hl. intros E. apply (f_equal length) in E. rewrite length_skipn in E. cbn in E. lia.
Qed.

(** A text of zeros reads as a zero, an empty one not at all: never as a
    finite non-zero value. *)
Lemma render_nil_not_finite (neg : bool) (decpt : Z) (s : bool) (m : positive) (e : Z) :
  py_float (render neg [] decpt) <> Ok (S754_finite s m e).
Proof.
  assert (Hz : forall ip fp, ip <> [] -> all_digits ip -> all_digits fp ->
            digits_value (ip ++ fp) = 0 -> (if neg then [45] else []) ++ ip ++ 46 :: fp <> [] ->
            py_float ((if neg then [45] else []) ++ ip ++ 46 :: fp) <> Ok (S754_finite s m e)).
  { intros ip fp Hip Hd1 Hd2 Hv Hne.
    assert (Hp : Forall (fun c => plain c = true) ((if neg then [45] else []) ++ ip ++ 46 :: fp)).
    { apply Forall_app. split; [by destruct neg; repeat constructor|].
      apply Forall_app. split; [by apply digits_plain|]. constructor; [done|by apply digits_plain]. }
    rewrite (py_float_plain _ _ Hne Hp (scan_decimal_frac_end neg ip fp Hip Hd1 Hd2)).
    rewrite Hv. by destruct neg. }
  unfold render. destruct ((decpt <=? -4) || (16 <? decpt)); [by destruct neg|].
  destruct (decpt <=? 0).
  - change ([48; 46] ++ repeat 48 (Z.to_nat (- decpt)) ++ []) with ([48] ++ 46 :: repeat 48 (Z.to_nat (- decpt)) ++ []).
    apply Hz; [done|by repeat constructor|rewrite app_nil_r; apply zeros_digits| |by destruct neg].
    rewrite app_nil_r. change ([48] ++ repeat 48 (Z.to_nat (- decpt))) with (repeat 48 (S (Z.to_nat (- decpt)))).
    apply digits_value_zeros.
  - cbn [length Nat.leb].
    rewrite app_nil_l, Nat.sub_0_r. destruct (Z.to_nat decpt) as [|k] eqn:Ek.
    + (* no integer digit *) by destruct neg.
    + change [46; 48] with (46 :: [48]). apply Hz; [done|apply zeros_digits|by repeat constructor| |by destruct neg].
      rewrite digits_value_app, digits_value_zeros. done.
Qed.

Lemma render_dec_float_text (neg : bool) (c q : Z) :
  0 < c -> float_text (render_dec neg c q).
Proof.
  intros Hc. unfold render_dec. destruct (strip_lead c Hc) as (d & ds & -> & Hd & Hds).
  by apply render_float_text.
Qed.

(** The text of a finite float is a JSON number with a fraction or an
    exponent. *)
Lemma repr_float_text (x : float) :
  match x with S754_zero _ | S754_finite _ _ _ => True | _ => False end ->
  float_text (repr x).
Proof.
  destruct x as [neg|neg| |neg m e]; try done; intros _.
  { exists neg, [48], [46; 48], []. split; [by destruct neg|]. split; [by left|].
    split; [right; eexists; split; [done|split; [done|by repeat constructor]]|split; [by left|done]]. }
  unfold repr. destruct (search _ _ _ _ _ _ _) as [t|] eqn:Es.
  - apply search_sound in Es as [Hread (c & q & ->)].
    destruct (Z.lt_ge_cases 0 c) as [Hc|Hc]; [by apply render_dec_float_text|].
    exfalso. unfold render_dec in Hread.
    assert (z_digits c = [48]) as Hz by (destruct c; [done|lia|done]).
    rewrite Hz in Hread. by apply render_nil_not_finite in Hread.
  - unfold exact_text. case_match; apply render_dec_float_text; [|apply Z.mul_pos_pos; [lia|apply Z.pow_pos_nonneg; lia]].
    apply Z.mul_pos_pos; [lia|apply Z.pow_pos_nonneg; lia].
Qed.

(** ** Numbers: [_match_number_unicode] reads it whole *)

Lemma take_digits_stops (r : list Z) : stops is_digit r -> take_digits r = ([], r).
Proof. destruct r; [done|apply take_digits_stop]. Qed.

Lemma take_digits_exact (ds r : list Z) :
  all_digits ds -> stops is_digit r -> take_digits (ds ++ r) = (ds, r).
Proof. intros Hd Hr. rewrite take_digits_app, take_digits_stops by done. by rewrite app_nil_r. Qed.

Lemma scan_int_ok (ip r : list Z) : int_ok ip -> stops is_digit r -> scan_int (ip ++ r) = Some (ip, r).
Proof.
  intros [->|(d & ds & -> & Hd & Hds)] Hr; [done|].
  cbn [app scan_int]. zdecide. by rewrite take_digits_exact.
Qed.

Lemma scan_frac_ok (fr r : list Z) :
  frac_ok fr -> stops is_digit r -> (fr = [] -> stops (Z.eqb 46) r) -> scan_frac (fr ++ r) = (fr, r).
Proof.
  intros [->|(ds & -> & Hne & Hds)] Hr Hp.
  - specialize (Hp eq_refl). destruct r as [|p [|d r]]; [done|done|].
    cbn [stops] in Hp. rewrite Z.eqb_sym in Hp. cbn [scan_frac app]. by rewrite Hp.
  - destruct ds as [|d ds]; [done|]. apply Forall_cons in Hds as [Hd Hds].
    cbn [app scan_frac]. rewrite Hd. cbn. by rewrite take_digits_exact.
Qed.

Lemma scan_exp_ok (ex r : list Z) :
  exp_ok ex -> stops is_digit r -> (ex = [] -> stops (fun c => (c =? 101) || (c =? 69)) r) ->
  scan_exp (ex ++ r) = (ex, r).
Proof.
  intros [->|(sg & ds & -> & Hsg & Hne & Hds)] Hr He.
  - specialize (He eq_refl). destruct r as [|c r]; [done|]. cbn [stops] in He. cbn [app scan_exp]. by rewrite He.
  - cbn [app scan_exp Z.eqb Pos.eqb orb]. rewrite <- app_assoc.
    destruct ds as [|d ds']; [done|]. pose proof (Forall_inv Hds) as Hd.
    destruct (digit_not_sign d Hd) as [H45 H43].
    destruct Hsg as [Hs|[Hs|Hs]]; subst sg; cbn [app]; [rewrite H45, H43| |]; cbn [orb Z.eqb Pos.eqb];
      change (d :: ds' ++ r) with ((d :: ds') ++ r); rewrite take_digits_exact by done; done.
Qed.

Lemma stops_number (r : list Z) :
  stops number_char r ->
  stops is_digit r /\ stops (Z.eqb 46) r /\ stops (fun c => (c =? 101) || (c =? 69)) r.
Proof.
  destruct r as [|c r]; [done|]. cbn [stops number_char].
  intros H. repeat (apply orb_false_iff in H as [H ?]).
  rewrite (Z.eqb_sym 46), orb_false_iff. auto.
Qed.

Lemma exp_stops (ex r : list Z) :
  exp_ok ex -> stops is_digit r -> stops is_digit (ex ++ r) /\ stops (Z.eqb 46) (ex ++ r) \/ ex = [].
Proof. intros [->|(sg & ds & -> & _)]; [by right|by left]. Qed.

(** [_match_number_unicode] reads the whole of a number text that has a
    fraction or an exponent, and hands it to [float()]. *)
Lemma scan_number_float (t rest : list Z) :
  float_text t -> stops number_char rest ->
  scan_number (t ++ rest) = match py_float t with Ok x => Some (JFloat x, rest) | Raise _ => None end.
Proof.
  intros (neg & ip & fr & ex & -> & Hip & Hfr & Hex & Hne) (Hd & H46 & He)%stops_number.
  assert (Hr2 : scan_exp (ex ++ rest) = (ex, rest)) by (apply scan_exp_ok; auto).
  assert (Hr1 : scan_frac (fr ++ ex ++ rest) = (fr, ex ++ rest)).
  { apply scan_frac_ok; [done| |intros ->].
    - destruct (exp_stops ex rest Hex Hd) as [[? ?]| ->]; auto.
    - destruct (exp_stops ex rest Hex Hd) as [[? ?]| ->]; [done|by destruct Hne]. }
  assert (Hr0 : scan_int (ip ++ fr ++ ex ++ rest) = Some (ip, fr ++ ex ++ rest)).
  { apply scan_int_ok; [done|]. destruct fr as [|f fr']; [|by destruct Hfr as [|(? & [= -> _] & _)]].
    destruct (exp_stops ex rest Hex Hd) as [[? ?]| ->]; [done|by destruct Hne]. }
  assert (exists i ip', ip = i :: ip' /\ 48 <= i <= 57) as (i & ip' & -> & Hi)
    by (destruct Hip as [->|(d & ds & -> & ? & _)]; do 2 eexists; (split; [done|lia])).
  rewrite <- !app_assoc. unfold scan_number.
  destruct neg; cbn [app Z.eqb Pos.eqb]; [|rewrite (proj2 (Z.eqb_neq i 45)) by lia]; cbv beta iota;
    cbn [app] in Hr0; rewrite Hr0, Hr1, Hr2; destruct fr, ex; try done; cbn [app]; destruct (py_float _); done.
Qed.

Lemma starts_with_cons (q c : Z) (p s : list Z) :
  starts_with (q :: p) (c :: s) = (c =? q) && starts_with p s.
Proof.
  unfold starts_with. cbn [length firstn]. destruct (Z.eqb_spec c q) as [->|Hne]; cbn [andb].
  - apply bool_decide_ext. split; [by intros [=]|by intros ->].
  - apply bool_decide_eq_false_2. by intros [=].
Qed.

Lemma float_text_head (t : list Z) :
  float_text t -> exists i s, 48 <= i <= 57 /\ (t = i :: s \/ t = 45 :: i :: s).
Proof.
  intros (neg & ip & fr & ex & -> & Hip & _).
  destruct Hip as [->|(d & ds & -> & Hd & _)]; [exists 48|exists d]; eexists;
    (split; [lia|]); destruct neg; [right|left|right|left]; done.
Qed.

(** A number does not start like a string, an object, an array or one of
    the named constants, so [scan_once_unicode] hands it to the number
    scanner. *)
Lemma parse_value_number (f : nat) (t rest : list Z) :
  float_text t -> parse_value (S f) (t ++ rest) = scan_number (t ++ rest).
Proof.
  intros (i & s & Hi & [-> | ->])%float_text_head; cbn [app parse_value]; lits;
    rewrite ?starts_with_cons; by zdecide.
Qed.

(** ** Values, dictionaries and lists *)

Lemma reads_string (s : list Z) :
  Forall (fun c => Utf8.is_scalar c = true) s -> reads 1 (encode_string s) (JStr s).
Proof.
  intros Hs. split; [by do 2 eexists|]. intros [|f] rest Hf _; [lia|].
  unfold encode_string. cbn [app parse_value Z.eqb Pos.eqb]. rewrite <- app_assoc.
  cbn [app]. by rewrite scan_encoded.
Qed.

Lemma reads_float (x : float) : valid x = true -> reads 1 (encode_float x) (JFloat x).
Proof.
  intros Hv. destruct x as [neg|neg| |neg m e].
  3: { split; [by do 2 eexists|]. intros [|f] rest Hf _; [lia|]. done. }
  2: { split; [destruct neg; by do 2 eexists|]. intros [|f] rest Hf _; [lia|]. by destruct neg. }
  all: cbn [encode_float]; match goal with |- context [repr ?x] =>
    assert (Ht : float_text (repr x)) by (apply repr_float_text; exact I) end.
  all: split; [destruct (float_text_head _ Ht) as (i & s & Hi & [-> | ->]); do 2 eexists; (split; [done|]);
               unfold is_ws; by zdecide|].
  all: intros [|f] rest Hf Hr; [lia|]; rewrite parse_value_number, scan_number_float by done;
    by rewrite repr_roundtrip.
Qed.

Lemma skip_ws_nonblank (c : Z) (s : list Z) : is_ws c = false -> skip_ws (c :: s) = c :: s.
Proof. intros H. cbn [skip_ws]. by rewrite H. Qed.

Lemma reads_skip_ws (n : nat) (t : list Z) (v : jvalue) (s : list Z) :
  reads n t v -> skip_ws (t ++ s) = t ++ s.
Proof. intros [(c0 & t' & -> & Hc) _]. by apply skip_ws_nonblank. Qed.

Lemma join_with_cons (sep x : list Z) (l : list (list Z)) :
  l <> [] -> join_with sep (x :: l) = x ++ sep ++ join_with sep l.
Proof. by destruct l. Qed.

Lemma items_skip_ws (sep : list Z) (i : item) (items : list item) (s : list Z) :
  skip_ws (join_with sep (map item_text (i :: items)) ++ s)
  = join_with sep (map item_text (i :: items)) ++ s.
Proof.
  destruct i as [[k t] v]. destruct items; cbn [map join_with item_text];
    unfold encode_item, encode_string; rewrite <- !app_assoc; apply skip_ws_nonblank; done.
Qed.

(** [_parse_object_unicode] reads the items of a dictionary back, with
    one unit of fuel per item. *)
Lemma parse_members_items (n : nat) (items : list item) (f : nat) (rest : list Z) :
  items <> [] -> Forall (item_ok n) items -> (n + length items <= f)%nat ->
  parse_members f (join_with (lit ", ") (map item_text items) ++ 125 :: rest)
  = Some (map item_value items, rest).
Proof.
  intros Hne Hok. revert f Hne. induction Hok as [|[[k t] v] items [Hk Hr] Hok IH]; intros f Hne Hf; [done|].
  destruct f as [|f]; [cbn [length] in Hf; lia|].
  assert (Hsep : forall s, parse_members (S f) (item_text (k, t, v) ++ s)
            = match parse_value f (skip_ws (t ++ s)) with
              | None => None
              | Some (v', r2) =>
                  match skip_ws r2 with
                  | e :: r3 => if e =? 125 then Some ([(k, v')], r3)
                               else if e =? 44 then
                                 match parse_members f (skip_ws r3) with
                                 | Some (kvs, r4) => Some ((k, v') :: kvs, r4)
                                 | None => None
                                 end
                               else None
                  | [] => None
                  end
              end).
  { intros s. cbn [item_text]. unfold encode_item, encode_string. lits.
    rewrite <- !app_assoc. cbn [app parse_members Z.eqb Pos.eqb]. rewrite <- app_assoc. cbn [app]. rewrite scan_encoded by done.
    cbn [skip_ws is_ws Z.eqb Pos.eqb orb]. reflexivity. }
  destruct items as [|i2 items'].
  - cbn [map join_with]. rewrite Hsep, (reads_skip_ws _ _ _ _ Hr). destruct Hr as [_ Hr].
    rewrite Hr by (cbn [length] in Hf; lia || done). done.
  - rewrite map_cons, join_with_cons by done.
    rewrite <- app_assoc, Hsep, (reads_skip_ws _ _ _ _ Hr). destruct Hr as [_ Hr].
    lits. rewrite Hr by (cbn [length] in Hf; lia || done).
    cbn [skip_ws app is_ws Z.eqb Pos.eqb orb]. rewrite items_skip_ws, IH by (done || cbn [length] in *; lia).
    done.
Qed.

Lemma join_with_prefix (sep x : list Z) (l : list (list Z)) :
  exists y, join_with sep (x :: l) = x ++ y.
Proof. destruct l; [exists []; by rewrite app_nil_r|by eexists]. Qed.

(** [_parse_array_unicode] reads the elements of a list back, with one
    unit of fuel per element. *)
Lemma parse_elems_items (n : nat) (els : list (list Z * jvalue)) (f : nat) (rest : list Z) :
  els <> [] -> Forall (fun e => reads n e.1 e.2) els -> (n + length els <= f)%nat ->
  parse_elems f (join_with (lit ", ") (map fst els) ++ 93 :: rest) = Some (map snd els, rest).
Proof.
  intros Hne Hok. revert f Hne. induction Hok as [|[t v] els Hr Hok IH]; intros f Hne Hf; [done|].
  destruct f as [|f]; [cbn [length] in Hf; lia|]. cbn [fst snd] in Hr.
  destruct els as [|[t2 v2] els'].
  - cbn [map join_with fst snd parse_elems]. destruct Hr as [_ Hr].
    rewrite Hr by (cbn [length] in Hf; lia || done). done.
  - rewrite map_cons, join_with_cons by done. rewrite <- app_assoc.
    cbn [parse_elems]. pose proof Hr as [_ Hr']. lits.
    rewrite Hr' by (cbn [length] in Hf; lia || done).
    cbn [skip_ws app is_ws Z.eqb Pos.eqb orb].
    pose proof (Forall_inv Hok) as Hr2. cbn [fst snd] in Hr2.
    destruct (join_with_prefix [44; 32] t2 (map fst els')) as [y Hy].
    change (map fst ((t2, v2) :: els')) with (t2 :: map fst els').
    rewrite Hy, <- app_assoc, (reads_skip_ws _ _ _ _ Hr2), app_assoc, <- Hy.
    change (t2 :: map fst els') with (map fst ((t2, v2) :: els')).
    rewrite IH by (done || cbn [length] in *; lia). done.
Qed.

Lemma items_head (sep : list Z) (i : item) (items : list item) :
  exists tl, join_with sep (map item_text (i :: items)) = 34 :: tl.
Proof.
  destruct i as [[k t] v]. destruct (join_with_prefix sep (item_text (k, t, v)) (map item_text items)) as [y Hy].
  rewrite map_cons, Hy. cbn [item_text]. unfold encode_item, encode_string. by eexists.
Qed.

(** A dictionary with at least one item. *)
Lemma reads_object (n : nat) (items : list item) :
  items <> [] -> Forall (item_ok n) items ->
  reads (S (n + length items)) ([123] ++ join_with (lit ", ") (map item_text items) ++ [125])
        (JObj (map item_value items)).
Proof.
  intros Hne Hok. split; [by do 2 eexists|]. intros [|f] rest Hf _; [lia|].
  destruct items as [|i items]; [done|].
  destruct (items_head (lit ", ") i items) as [tl Htl].
  rewrite <- !app_assoc. cbn [app parse_value Z.eqb Pos.eqb].
  rewrite items_skip_ws, Htl. cbn [app Z.eqb Pos.eqb].
  change (34 :: tl ++ 125 :: rest) with ((34 :: tl) ++ 125 :: rest). rewrite <- Htl.
  rewrite (parse_members_items n) by (done || cbn [length] in *; lia). done.
Qed.

(** A list with at least one element, the first not starting with a
    closing bracket. *)
Lemma reads_array (n : nat) (els : list (list Z * jvalue)) :
  els <> [] -> Forall (fun e => reads n e.1 e.2) els ->
  match els with (t, _) :: _ => stops (Z.eqb 93) t | [] => True end ->
  reads (S (n + length els)) ([91] ++ join_with (lit ", ") (map fst els) ++ [93]) (JArr (map snd els)).
Proof.
  intros Hne Hok Hhd. split; [by do 2 eexists|]. intros [|f] rest Hf _; [lia|].
  destruct els as [|[t v] els]; [done|]. pose proof (Forall_inv Hok) as Hr. cbn [fst snd] in Hr.
  destruct Hr as [(c0 & t' & Et & Hc0) _]. subst t. cbn [stops] in Hhd.
  destruct (join_with_prefix (lit ", ") (c0 :: t') (map fst els)) as [y Hy].
  rewrite <- !app_assoc. cbn [app parse_value Z.eqb Pos.eqb].
  change (map fst ((c0 :: t', v) :: els)) with ((c0 :: t') :: map fst els). rewrite Hy.
  cbn [app]. rewrite skip_ws_nonblank by done. rewrite Z.eqb_sym, Hhd.
  change (c0 :: (t' ++ y) ++ 93 :: rest) with (((c0 :: t') ++ y) ++ 93 :: rest). rewrite <- Hy.
  change ((c0 :: t') :: map fst els) with (map fst ((c0 :: t', v) :: els)).
  rewrite (parse_elems_items n) by (done || cbn [length] in *; lia). done.
Qed.

Lemma reads_metric (m : metric) : metric_ok m = true -> reads 9 (encode_metric m) (metric_json m).
Proof.
  unfold metric_ok. intros H. repeat (apply andb_prop in H as [H ?]).
  change (encode_metric m) with ([123] ++ join_with (lit ", ") (map item_text (metric_items m)) ++ [125]).
  change (metric_json m) with (JObj (map item_value (metric_items m))).
  apply (reads_object 1); [done|].
  repeat constructor; (apply reads_string, forallb_Forall || apply reads_float); done.
Qed.

Lemma length_join_with (k : nat) (sep : list Z) (xs : list (list Z)) :
  Forall (fun x => k <= length x)%nat xs -> (k * length xs <= length (join_with sep xs))%nat.
Proof.
  induction 1 as [|x xs Hx Hxs IH]; cbn [length]; [lia|].
  destruct xs as [|y xs]; [cbn [join_with length]; lia|].
  rewrite join_with_cons by done. rewrite !length_app. cbn [length] in *. nia.
Qed.

Lemma length_encode_metric (m : metric) : (10 <= length (encode_metric m))%nat.
Proof.
  change (encode_metric m) with ([123] ++ join_with (lit ", ") (map item_text (metric_items m)) ++ [125]).
  cbn [metric_items map]. match goal with |- context [join_with ?s (?x :: ?l)] =>
    destruct (join_with_prefix s x l) as [y ->] end.
  cbn [item_text]. unfold encode_item, encode_string. lits. rewrite !length_app. cbn [length]. rewrite !length_app.
  assert (length (flat_map escape_char [105; 100]) = 2%nat) by reflexivity. cbn [length] in *. lia.
Qed.

Lemma dumps_elements (ms : list metric) :
  dumps ms = [91] ++ join_with (lit ", ") (map fst (map (fun m => (encode_metric m, metric_json m)) ms)) ++ [93].
Proof. unfold dumps. by rewrite map_map. Qed.

(** ** The payload reads back *)

Lemma loads_dumps_metrics (ms : list metric) :
  Forall (fun m => metric_ok m = true) ms -> loads (dumps ms) = Some (JArr (map metric_json ms)).
Proof.
  intros Hok. destruct ms as [|m ms']; [done|].
  set (els := map (fun m => (encode_metric m, metric_json m)) (m :: ms')).
  assert (Hr : reads (S (9 + length els)) (dumps (m :: ms')) (JArr (map snd els))).
  { rewrite dumps_elements. apply reads_array; [done| |by subst els].
    apply Forall_map. eapply Forall_impl; [exact Hok|]. intros x Hx. by apply reads_metric. }
  assert (Hl : (S (9 + length els) <= S (2 * length (dumps (m :: ms'))))%nat).
  { pose proof (length_join_with 10 (lit ", ") (map fst els)) as Hj.
    rewrite dumps_elements, !length_app. subst els. rewrite !length_map in *.
    assert (Forall (fun x => 10 <= length x)%nat (map fst (map (fun m => (encode_metric m, metric_json m)) (m :: ms')))).
    { rewrite map_map. apply Forall_map. apply Forall_forall. intros x _. apply length_encode_metric. }
    specialize (Hj H). cbn [length] in *. lia. }
  destruct Hr as [_ Hr]. specialize (Hr _ [] Hl I). rewrite app_nil_r in Hr.
  unfold loads, loads_fuel. assert (E : dumps (m :: ms') = 91 :: tail (dumps (m :: ms'))) by done.
  rewrite E. cbn [Z.eqb Pos.eqb]. rewrite skip_ws_nonblank, <- E, Hr by done.
  subst els. by rewrite map_map.
Qed.

(** C36: What the worker publishes reads back: [json.loads] of the
    payload [json.dumps(allmetrics)] is the list of the dictionaries of
    line 208, in order, with every string and every float (signed zeros,
    infinities and NaN included) as the worker built it. *)
Theorem loads_dumps (ms : list metric) :
  forallb metric_ok ms = true -> loads (dumps ms) = Some (JArr (map metric_json ms)).
Proof. intros Hok%forallb_Forall. by apply loads_dumps_metrics. Qed.

(** A metric whose strings hold scalar values and whose value is valid
    passes [metric_ok]. *)
Lemma metric_ok_intro (m : metric) :
  metric_chars (fun c => Utf8.is_scalar c = true) m -> valid (m_value m) = true -> metric_ok m = true.
Proof.
  intros (H1 & H2 & H3 & H4 & H5 & H6) Hv. unfold metric_ok.
  rewrite !Forall_forallb by done. by rewrite Hv.
Qed.

(** ** [ensure_ascii] *)

Lemma u_escape_printable (n : Z) : Forall printable (u_escape n).
Proof.
  assert (H : forall k, 0 <= k < 16 -> printable (hexdigit k))
    by (intros k Hk; unfold printable, hexdigit; zbool; lia).
  unfold u_escape. repeat constructor; try apply H; try (apply Z.mod_pos_bound; lia); unfold printable; lia.
Qed.

Lemma escape_char_printable (c : Z) : Forall printable (escape_char c).
Proof.
  unfold escape_char. zbool; try (repeat constructor; unfold printable; lia);
    try apply u_escape_printable. apply Forall_app. split; apply u_escape_printable.
Qed.

Lemma encode_string_printable (s : list Z) : Forall printable (encode_string s).
Proof.
  unfold encode_string. constructor; [unfold printable; lia|]. apply Forall_app. split.
  - apply Forall_flat_map. apply Forall_forall. intros c _. apply escape_char_printable.
  - repeat constructor; unfold printable; lia.
Qed.

Lemma encode_float_printable (x : float) : Forall printable (encode_float x).
Proof.
  assert (Hr : Forall printable (repr x)).
  { eapply Forall_impl; [apply repr_printable|]. intros c (? & _). unfold printable; lia. }
  destruct x as [[]|[]| |]; cbn [encode_float]; try done; lits; repeat constructor; unfold printable; lia.
Qed.

Lemma join_with_printable (sep : list Z) (xs : list (list Z)) :
  Forall printable sep -> Forall (Forall printable) xs -> Forall printable (join_with sep xs).
Proof.
  intros Hs. induction 1 as [|x xs Hx Hxs IH]; [constructor|].
  destruct xs; [done|]. rewrite join_with_cons by done. by repeat (apply Forall_app; split).
Qed.

(** C37: The payload is printable ASCII: [json.dumps] with its default
    [ensure_ascii=True] escapes every control character and every
    character beyond U+007E, whatever the strings of the metrics hold. *)
Theorem dumps_ascii (ms : list metric) : Forall (fun c => 32 <= c <= 126) (dumps ms).
Proof.
  assert (Hsep : Forall printable (lit ", ")) by (lits; repeat constructor; unfold printable; lia).
  assert (Hb : forall c, 32 <= c <= 126 -> Forall printable [c]) by (intros c Hc; constructor; [exact Hc|constructor]).
  unfold dumps. apply Forall_app. split; [by apply Hb; lia|]. apply Forall_app. split; [|by apply Hb; lia].
  apply join_with_printable; [done|]. apply Forall_map. apply Forall_forall. intros m _.
  unfold encode_metric. apply Forall_app. split; [by apply Hb; lia|]. apply Forall_app. split; [|by apply Hb; lia].
  apply join_with_printable; [done|].
  assert (Hi : forall k v, Forall printable k -> Forall printable v -> Forall printable (encode_item k v)).
  { intros k v Hk Hv. unfold encode_item. repeat (apply Forall_app; split); [apply encode_string_printable| |done].
    lits. repeat constructor; unfold printable; lia. }
  repeat (apply Forall_cons_2; [apply Hi|]); try apply Forall_nil;
    try apply encode_string_printable; try apply encode_float_printable; lits; repeat constructor; unfold printable; lia.
Qed.

(** ** Termination of the decoder: every step consumes text *)

Lemma skip_ws_length (s : list Z) : (length (skip_ws s) <= length s)%nat.
Proof. induction s as [|c s IH]; cbn [skip_ws]; [done|]. case_match; cbn [length]; lia. Qed.

Lemma cons_char_some (c : Z) (o : option (list Z * list Z)) (str r : list Z) :
  cons_char c o = Some (str, r) -> exists str', o = Some (str', r).
Proof. destruct o as [[? ?]|]; cbn; [intros [= <- ->]; eauto|done]. Qed.

Lemma scan_string_step (c : Z) (tl str r : list Z) :
  scan_string (c :: tl) = Some (str, r) ->
  r = tl \/ exists y str', (length y < S (length tl))%nat /\ scan_string y = Some (str', r).
Proof.
  intros Hs. cbn [scan_string] in Hs. repeat case_match; subst; try discriminate;
    try (left; congruence);
    (right; apply cons_char_some in Hs as [str' Hs]; eexists _, str'; split; [|exact Hs]; cbn [length]; lia).
Qed.

Lemma scan_string_length (s str r : list Z) :
  scan_string s = Some (str, r) -> (length r < length s)%nat.
Proof.
  revert str r. induction s as [s IH] using list_length_ind. intros str r Hs.
  destruct s as [|c tl]; [done|]. cbn [length] in *.
  destruct (scan_string_step c tl str r Hs) as [->|(y & str' & Hy & Hs')]; [lia|].
  specialize (IH y Hy _ _ Hs'). lia.
Qed.

Lemma take_digits_length (s ds r : list Z) : take_digits s = (ds, r) -> (length r <= length s)%nat.
Proof.
  revert ds r. induction s as [|c s IH]; intros ds r; cbn [take_digits]; [by intros [= <- <-]|].
  case_match; [destruct (take_digits s) as [ds' r'] eqn:E; intros [= <- <-]; specialize (IH _ _ eq_refl); cbn [length]; lia|].
  by intros [= <- <-].
Qed.

Lemma scan_int_length (s ip r : list Z) : scan_int s = Some (ip, r) -> (length r < length s)%nat.
Proof.
  destruct s as [|c s]; cbn [scan_int]; [done|]. case_match; [|case_match; [intros [= <- <-]; cbn [length]; lia|done]].
  destruct (take_digits s) as [ds r1] eqn:E. intros [= <- <-]. apply take_digits_length in E. cbn [length]. lia.
Qed.

Lemma scan_frac_length (s fr r : list Z) : scan_frac s = (fr, r) -> (length r <= length s)%nat.
Proof.
  unfold scan_frac. destruct s as [|p [|d s]]; try (intros [= <- <-]; done).
  case_match; [|intros [= <- <-]; done].
  destruct (take_digits s) as [ds r1] eqn:E. intros [= <- <-]. apply take_digits_length in E. cbn [length]. lia.
Qed.

Lemma scan_exp_length (s ex r : list Z) : scan_exp s = (ex, r) -> (length r <= length s)%nat.
Proof.
  unfold scan_exp. destruct s as [|e s]; [by intros [= <- <-]|]. case_match; [|by intros [= <- <-]].
  destruct (match s with x :: r2 => if (x =? 45) || (x =? 43) then ([x], r2) else ([], s) | [] => ([], []) end)
    as [sg r1] eqn:E1.
  assert (Hl : (length r1 <= length s)%nat) by (destruct s; [by injection E1 as <- <-|case_match; injection E1 as <- <-; cbn; lia]).
  destruct (take_digits r1) as [[|d ds] r3] eqn:E; intros [= <- <-]; [done|].
  apply take_digits_length in E. cbn [length]. lia.
Qed.

Lemma scan_number_length (s r : list Z) (v : jvalue) :
  scan_number s = Some (v, r) -> (length r < length s)%nat.
Proof.
  unfold scan_number. intros Hs.
  destruct (match s with c :: s' => if c =? 45 then ([45], s') else ([], s) | [] => ([], []) end)
    as [sign s1] eqn:E1.
  assert (Hl : (length s1 <= length s)%nat)
    by (destruct s as [|c s']; [by injection E1 as <- <-|destruct (c =? 45); injection E1 as <- <-; cbn; lia]).
  destruct (scan_int s1) as [[ip r1]|] eqn:E2; [|done]. apply scan_int_length in E2.
  destruct (scan_frac r1) as [fr r2] eqn:E3. apply scan_frac_length in E3.
  destruct (scan_exp r2) as [ex r3] eqn:E4. apply scan_exp_length in E4.
  assert (r = r3) as -> by (repeat case_match; congruence). lia.
Qed.

(** Each of the three mutually recursive parsers returns a strict
    suffix of its input. *)
Lemma parse_progress (f : nat) :
  (forall s v r, parse_value f s = Some (v, r) -> (length r < length s)%nat) /\
  (forall s vs r, parse_elems f s = Some (vs, r) -> (length r < length s)%nat) /\
  (forall s kvs r, parse_members f s = Some (kvs, r) -> (length r < length s)%nat).
Proof.
  induction f as [|f (IHv & IHe & IHm)]; [done|]. split; [|split].
  - intros s v r Hs. destruct s as [|c s']; [done|]. cbn [parse_value] in Hs.
    pose proof (skip_ws_length s'). cbn [length].
    destruct (c =? 34).
    { destruct (scan_string s') as [[str r1]|] eqn:E; [|done]. injection Hs as <- <-.
      apply scan_string_length in E. lia. }
    destruct (c =? 123).
    { destruct (skip_ws s') as [|d r1] eqn:E; [done|]. destruct (d =? 125); [injection Hs as <- <-; cbn [length] in *; lia|].
      destruct (parse_members f (d :: r1)) as [[kvs r2]|] eqn:E2; [|done]. injection Hs as <- <-.
      apply IHm in E2. lia. }
    destruct (c =? 91).
    { destruct (skip_ws s') as [|d r1] eqn:E; [done|]. destruct (d =? 93); [injection Hs as <- <-; cbn [length] in *; lia|].
      destruct (parse_elems f (d :: r1)) as [[vs r2]|] eqn:E2; [|done]. injection Hs as <- <-.
      apply IHe in E2. lia. }
    repeat match type of Hs with (if ?b then _ else _) = _ =>
      destruct b; [injection Hs as <- <-; rewrite length_skipn; lia|] end.
    apply scan_number_length in Hs. done.
  - intros s vs r Hs. cbn [parse_elems] in Hs.
    destruct (parse_value f s) as [[v r0]|] eqn:E; [|done]. apply IHv in E.
    pose proof (skip_ws_length r0). destruct (skip_ws r0) as [|c r1]; [done|]. cbn [length] in *.
    destruct (c =? 93); [injection Hs as <- <-; lia|]. destruct (c =? 44); [|done].
    destruct (parse_elems f (skip_ws r1)) as [[vs' r2]|] eqn:E2; [|done]. injection Hs as <- <-.
    apply IHe in E2. pose proof (skip_ws_length r1). lia.
  - intros s kvs r Hs. destruct s as [|c s']; [done|]. cbn [parse_members] in Hs. cbn [length].
    destruct (c =? 34); [|done].
    destruct (scan_string s') as [[k r0]|] eqn:E; [|done]. apply scan_string_length in E.
    pose proof (skip_ws_length r0). destruct (skip_ws r0) as [|d r1]; [done|]. cbn [length] in *.
    destruct (d =? 58); [|done]. pose proof (skip_ws_length r1).
    destruct (parse_value f (skip_ws r1)) as [[v r2]|] eqn:E2; [|done]. apply IHv in E2.
    pose proof (skip_ws_length r2). destruct (skip_ws r2) as [|e r3]; [done|]. cbn [length] in *.
    destruct (e =? 125); [injection Hs as <- <-; lia|]. destruct (e =? 44); [|done].
    destruct (parse_members f (skip_ws r3)) as [[kvs' r4]|] eqn:E3; [|done]. injection Hs as <- <-.
    apply IHm in E3. pose proof (skip_ws_length r3). lia.
Qed.

(** Fuel beyond twice the length of the text changes nothing: each of
    the three parsers spends one unit per call and each call that
    recurses has consumed a character since the previous one. *)
Lemma parse_fuel_mono (f : nat) :
  (forall s f', (2 * length s < f)%nat -> (f <= f')%nat -> parse_value f s = parse_value f' s) /\
  (forall s f', (2 * length s + 1 < f)%nat -> (f <= f')%nat -> parse_elems f s = parse_elems f' s) /\
  (forall s f', (2 * length s + 1 < f)%nat -> (f <= f')%nat -> parse_members f s = parse_members f' s).
Proof.
  induction f as [|f (IHv & IHe & IHm)]; [split; [|split]; intros; lia|].
  split; [|split]; intros s [|f'] Hs Hf; try lia.
  - destruct s as [|c s']; [done|]. cbn [parse_value]. cbn [length] in Hs.
    pose proof (skip_ws_length s').
    destruct (c =? 34); [done|]. destruct (c =? 123).
    { destruct (skip_ws s') as [|d r] eqn:E; [done|]. destruct (d =? 125); [done|].
      rewrite (IHm (d :: r) f'); [done|cbn [length] in *; lia|lia]. }
    destruct (c =? 91); [|done].
    destruct (skip_ws s') as [|d r] eqn:E; [done|]. destruct (d =? 93); [done|].
    rewrite (IHe (d :: r) f'); [done|cbn [length] in *; lia|lia].
  - cbn [parse_elems]. rewrite (IHv s f') by lia.
    destruct (parse_value f' s) as [[v r0]|] eqn:E; [|done].
    apply (proj1 (parse_progress f')) in E.
    pose proof (skip_ws_length r0). destruct (skip_ws r0) as [|c r1]; [done|].
    destruct (c =? 93); [done|]. destruct (c =? 44); [|done].
    pose proof (skip_ws_length r1). cbn [length] in *.
    by rewrite (IHe (skip_ws r1) f') by lia.
  - destruct s as [|c s']; [done|]. cbn [parse_members]. cbn [length] in Hs.
    destruct (c =? 34); [|done].
    destruct (scan_string s') as [[k r0]|] eqn:E; [|done]. apply scan_string_length in E.
    pose proof (skip_ws_length r0). destruct (skip_ws r0) as [|d r1]; [done|].
    destruct (d =? 58); [|done]. pose proof (skip_ws_length r1). cbn [length] in *.
    rewrite (IHv (skip_ws r1) f') by lia.
    destruct (parse_value f' (skip_ws r1)) as [[v r2]|] eqn:E2; [|done].
    apply (proj1 (parse_progress f')) in E2.
    pose proof (skip_ws_length r2). destruct (skip_ws r2) as [|e r3]; [done|].
    destruct (e =? 125); [done|]. destruct (e =? 44); [|done].
    pose proof (skip_ws_length r3). cbn [length] in *.
    by rewrite (IHm (skip_ws r3) f') by lia.
Qed.

(** The parser has reached its result on one more than twice the length
    of the text: any larger fuel gives the same result. *)
Lemma parse_fuel_enough (s : list Z) (f : nat) :
  (2 * length s < f)%nat -> parse_value f s = parse_value (S (2 * length s)) s.
Proof. intros Hf. symmetry. apply (proj1 (parse_fuel_mono _)); lia. Qed.

(** [json.loads] terminates within the fuel the model gives it: the
    recursive descent of the C scanner (a value, an array's elements, an
    object's members) is done within one more than twice the length of
    the text, so running it on any larger fuel gives the same answer and
    the fuel bound never cuts a parse short. *)
Theorem loads_terminates (s : list Z) (f : nat) :
  (2 * length s < f)%nat -> loads_fuel f s = loads s.
Proof.
  intros Hf. unfold loads, loads_fuel. destruct s as [|c s']; [done|].
  case_match; [done|]. pose proof (skip_ws_length (c :: s')).
  rewrite (parse_fuel_enough _ f), (parse_fuel_enough _ (S (2 * length (c :: s')))) by lia.
  done.
Qed.

(** ** Witnesses *)

(** The payload of the sample row of the device, read back. *)
Lemma loads_dumps_witness :
  forallb metric_ok [sample_metric] = true /\
  loads (dumps [sample_metric]) = Some (JArr [metric_json sample_metric]).
Proof. split; [vm_compute; reflexivity|apply loads_dumps; vm_compute; reflexivity]. Defined.

End Json.
