(* ===== verification/Publisher.v ===== *)
(** * The MQTT publisher (src/app.py, lines 124-139 and 213-218)

    The worker keeps [self.mqtt_client] and [self.mqtt_connected].
    [mqtt_connect] makes a new [mqtt.Client()], tries to connect it to the
    broker on port 1883 with keep-alive 60, and sets the flag to whether
    [connect] returned or raised.  [publish_or_reconnect] is lines
    214-218: publish the metrics when the flag is set, otherwise warn and
    call [mqtt_connect] again.  Nothing else reads or writes the flag.

    The broker is the environment: each connect attempt has an outcome
    ([connect_outcome]) given as an input.  The events record what the
    code does towards the network and the log, in order. *)

From S2P Require Import Prelude PyText PyFloat Normalize Parser Json.

(** The outcome of [self.mqtt_client.connect(host, 1883, 60)]: it
    returns, or raises an exception whose [str] is [error]. *)
Inductive connect_outcome :=
| ConnectOk
| ConnectFails (error : list Z).

(** The worker's MQTT attributes: the flag, and how many clients
    [mqtt.Client()] has made (the current one is the last). *)
Record mqtt_state := mkMqtt {
  mqtt_connected : bool;
  mqtt_clients : nat
}.

(** What the worker does towards the network and the log. *)
Inductive event :=
| EvConnect (host : list Z) (port : Z) (keepalive : Z)   (** line 131 *)
| EvConnectError (error : list Z)                      (** line 133 *)
| EvPublish (topic : list Z) (payload : list Z)        (** line 215 *)
| EvPublished (result : Z)                             (** line 127 *)
| EvNotConnected                                       (** line 217 *)
| EvFetch (url : list Z) (user password : list Z)      (** lines 157-159 *)
| EvFetchError (error : list Z)                        (** line 161 *)
| EvProcessed (count : nat)                            (** line 211 *)
| EvSleep (seconds : Z)                                (** line 145 *)
| EvTaskException (e : exn).                           (** line 150 *)

(** Lines 124-137. *)
Definition mqtt_connect (cfg : config) (st : mqtt_state) (out : connect_outcome)
    : mqtt_state * list event :=
  let attempt := EvConnect (mqtt_host cfg) 1883 60 in
  let clients := S (mqtt_clients st) in
  match out with
  | ConnectOk => (mkMqtt true clients, [attempt])
  | ConnectFails error => (mkMqtt false clients, [attempt; EvConnectError error])
  end.

(** Lines 214-218.  The worker never starts paho-mqtt's network loop,
    so [publish] (paho-mqtt 1.x, QoS 0) writes the packet itself: for
    every PUBLISH packet it finishes writing during the call (this
    one, or earlier ones still queued), it calls [on_publish] (line
    126) with the packet's message id, which logs on line 127.  Which
    ids these are is the socket's answer, [published]. *)
Definition publish_or_reconnect (cfg : config) (st : mqtt_state) (metrics : list metric)
    (out : connect_outcome) (published : list Z) : mqtt_state * list event :=
  if mqtt_connected st
  then (st, EvPublish (mqtt_topic cfg) (Json.dumps metrics) :: map EvPublished published)
  else let '(st', evs) := mqtt_connect cfg st out in (st', EvNotConnected :: evs).

(** ** Properties *)

Definition is_publish (ev : event) : bool :=
  match ev with EvPublish _ _ => true | _ => false end.

Definition is_connect (ev : event) : bool :=
  match ev with EvConnect _ _ _ => true | _ => false end.

(** The callbacks' records are neither publishes nor connects. *)
Lemma filter_publish_published (l : list Z) : List.filter is_publish (map EvPublished l) = [].
Proof. by induction l. Qed.

Lemma forallb_connect_published (l : list Z) :
  forallb (fun ev => negb (is_connect ev)) (map EvPublished l) = true.
Proof. by induction l. Qed.

#[export] Hint Rewrite filter_publish_published forallb_connect_published : pyrw.

(** With the flag set, the metrics are published once, to the
    configured topic, followed by the callbacks of the packets written,
    and the MQTT state is left as it is. *)
Theorem publish_connected (cfg : config) (st : mqtt_state) (ms : list metric)
    (out : connect_outcome) (published : list Z) :
  mqtt_connected st = true ->
  publish_or_reconnect cfg st ms out published =
    (st, EvPublish (mqtt_topic cfg) (Json.dumps ms) :: map EvPublished published).
Proof. intros H. unfold publish_or_reconnect. by rewrite H. Qed.

(** C16: With the flag clear, nothing is published, a warning is logged and
    one connect attempt is made on a new client; the flag becomes the
    outcome of that attempt (the metrics of this cycle are dropped). *)
Theorem publish_skip (cfg : config) (st : mqtt_state) (ms : list metric)
    (out : connect_outcome) (published : list Z) :
  mqtt_connected st = false ->
  let '(st', evs) := publish_or_reconnect cfg st ms out published in
  forallb (fun ev => negb (is_publish ev)) evs = true /\
  length (List.filter is_connect evs) = 1%nat /\
  head evs = Some EvNotConnected /\
  mqtt_connected st' = (if out is ConnectOk then true else false) /\
  mqtt_clients st' = S (mqtt_clients st).
Proof. intros H. unfold publish_or_reconnect. rewrite H. by destruct out. Qed.

(** The flag is never cleared by the publish step. *)
Lemma publish_keeps_flag (cfg : config) (st : mqtt_state) (ms : list metric)
    (out : connect_outcome) (published : list Z) :
  mqtt_connected st = true ->
  mqtt_connected (fst (publish_or_reconnect cfg st ms out published)) = true.
Proof. intros H. by rewrite publish_connected. Qed.

(** A configuration for concrete runs. *)
Definition sample_cfg : config :=
  mkConfig (lit "192.168.178.50") (lit "admin") (lit "secret")
           (lit "broker.local") (lit "solar/benning") 60.

Lemma publish_skip_witness :
  mqtt_connected (mkMqtt false 1) = false /\
  let '(st', evs) := publish_or_reconnect sample_cfg (mkMqtt false 1) [] ConnectOk [1] in
  forallb (fun ev => negb (is_publish ev)) evs = true /\
  length (List.filter is_connect evs) = 1%nat /\
  head evs = Some EvNotConnected /\
  mqtt_connected st' = true /\
  mqtt_clients st' = 2%nat.
Proof. split; [reflexivity | exact (publish_skip sample_cfg (mkMqtt false 1) [] ConnectOk [1] eq_refl)]. Defined.
