(* ===== verification/Scheduler.v ===== *)
(** * The scheduler [every] (src/app.py, lines 141-152)

    [every(delay, task)] starts with [next_time = time.time()] and loops
    forever: sleep [max(0, next_time - time.time())], call [task()] inside
    [try/except Exception] (the exception is logged, not re-raised), then
    [next_time += (time.time() - next_time) // delay * delay + delay],
    outside the [try].

    The scheduler is generic in its task through the class [Task]: the
    task's state [S], the inputs [I] of one iteration (which hold the two
    clock readings, class [Clock]) and the events [E] it emits.  The
    readings of [time.time()] are whole seconds; [//] is [Z.div], which
    floors as Python does.  [time.sleep] and line 152 raise as CPython
    3.11 does: OverflowError or OSError for a sleep beyond 2^63
    nanoseconds, OverflowError for an [int] interval no [float] holds,
    ZeroDivisionError for 0. *)

From S2P Require Import Prelude.

(** What the scheduler needs of its task: run it once on a state and an
    iteration's inputs; it returns the new state, its events, and
    whether it raised. *)
Class Task (S I E : Type) := task_run : S -> I -> S * list E * result unit.

(** The readings of [time.time()] on line 145 and on line 152, in whole
    seconds, and the reading of CLOCK_MONOTONIC, in nanoseconds, that
    [time.sleep] makes on line 145. *)
Class Clock (I : Type) := {
  clock_before : I -> Z;
  clock_after : I -> Z;
  clock_monotonic : I -> Z
}.

(** The scheduler's own events: the sleep of line 145 and the
    [logging.exception] of line 150. *)
Class SchedLog (E : Type) := {
  ev_sleep : Z -> E;
  ev_exception : exn -> E
}.

Record every_state (S : Type) := mkEvery {
  next_time : Z;
  task_state : S
}.
Arguments mkEvery {S} next_time task_state.
Arguments next_time {S} _.
Arguments task_state {S} _.

(** Line 145: the argument of [time.sleep]. *)
Definition sleep_time (nt now : Z) : Z := Z.max 0 (nt - now).

(** [time.sleep(secs)] of CPython 3.11 on Linux, for [secs >= 0] whole
    seconds and the CLOCK_MONOTONIC reading [mono] in nanoseconds:
    [_PyTime_FromSecondsObject] makes [secs] a signed 64-bit count of
    nanoseconds (OverflowError from 2^63 on); [pysleep] adds it to the
    monotonic clock, a sum from 2^63 on wraps negative, and
    [clock_nanosleep] rejects it (OSError, EINVAL). *)
Definition py_sleep (mono secs : Z) : result unit :=
  let ns := secs * 10 ^ 9 in
  if 2 ^ 63 <=? ns then Raise OverflowError
  else if 2 ^ 63 <=? mono + ns then Raise OSError
  else Ok tt.

(** [PyLong_AsDouble], which [float // int] calls on line 152 for the
    [int] interval: it rounds to nearest even and raises OverflowError
    when the result is infinite, from 2^1024 - 2^970 on in magnitude. *)
Definition int_to_float_overflows (n : Z) : bool := 2 ^ 1024 - 2 ^ 970 <=? Z.abs n.

Section Every.
Context {S I E : Type} `{!Task S I E} `{!Clock I} `{!SchedLog E}.
Context (delay : Z).

(** Line 152: OverflowError for an interval no [float] holds,
    [ZeroDivisionError] for 0. *)
Definition advance (nt now : Z) : result Z :=
  if int_to_float_overflows delay then Raise OverflowError
  else if Z.eqb delay 0 then Raise ZeroDivisionError
  else Ok (nt + (now - nt) / delay * delay + delay).

(** One iteration of the [while True] loop, lines 145-152: the events
    it emits, and the next state or the exception that leaves [every].
    The sleep and the update are outside the [try]. *)
Definition every_iter (st : every_state S) (i : I) : list E * result (every_state S) :=
  let nt := next_time st in
  let secs := sleep_time nt (clock_before i) in
  match py_sleep (clock_monotonic i) secs with
  | Raise e => ([], Raise e)
  | Ok _ =>
      let '(s', evs, r) := task_run (task_state st) i in
      let logged := match r with Ok _ => [] | Raise e => [ev_exception e] end in
      let evs' := ev_sleep secs :: evs ++ logged in
      match advance nt (clock_after i) with
      | Ok nt' => (evs', Ok (mkEvery nt' s'))
      | Raise e => (evs', Raise e)
      end
  end.

(** The iterations on a list of inputs, until one raises. *)
Fixpoint every_run (st : every_state S) (inputs : list I) : list E * result (every_state S) :=
  match inputs with
  | [] => ([], Ok st)
  | i :: rest =>
      let '(evs, r) := every_iter st i in
      match r with
      | Ok st' => let '(evs', r') := every_run st' rest in (evs ++ evs', r')
      | Raise e => (evs, Raise e)
      end
  end.

(** Line 143: [next_time = time.time()]. *)
Definition every_start (now : Z) (s : S) : every_state S := mkEvery now s.

(** The loop as a transition relation. *)
Definition every_step (st st' : every_state S) : Prop :=
  exists i evs, every_iter st i = (evs, Ok st').

(** The clock as the loop meets it from the reading [t] on: each
    [time.time()] of line 145 is not earlier than the reading before
    it, and CLOCK_MONOTONIC leaves room below 2^63 nanoseconds for a
    sleep of one interval. *)
Fixpoint clock_ok (t : Z) (inputs : list I) : bool :=
  match inputs with
  | [] => true
  | i :: rest =>
      (t <=? clock_before i) && (0 <=? clock_monotonic i) &&
      (clock_monotonic i + Z.max 0 delay * 10 ^ 9 <? 2 ^ 63) &&
      clock_ok (clock_after i) rest
  end.
End Every.

(** ** The skip-ahead arithmetic of line 152 *)

Section Advance.
Context (delay : Z).

(** The next fire time, in closed form. *)
Lemma advance_closed (nt now : Z) :
  delay <> 0 -> int_to_float_overflows delay = false ->
  advance delay nt now = Ok (now + delay - (now - nt) mod delay).
Proof.
  intros H Ho. unfold advance. rewrite Ho, (proj2 (Z.eqb_neq _ _) H). f_equal.
  pose proof (Z.div_mod (now - nt) delay H). lia.
Qed.

(** What an update that did not raise computed. *)
Lemma advance_ok_inv (nt now nt' : Z) :
  advance delay nt now = Ok nt' ->
  delay <> 0 /\ int_to_float_overflows delay = false /\ nt' = now + delay - (now - nt) mod delay.
Proof.
  unfold advance. destruct (int_to_float_overflows delay) eqn:Ho; [done|].
  destruct (Z.eqb_spec delay 0) as [|Hd]; [done|]. intros [= <-].
  split; [done|]. split; [done|]. pose proof (Z.div_mod (now - nt) delay Hd). lia.
Qed.

(** C8: With a positive interval, the next fire time lies strictly after
    the clock reading of line 152 and at most one interval after it,
    and it stays on the grid of the first fire time. *)
Theorem advance_bounds (nt now nt' : Z) :
  0 < delay -> advance delay nt now = Ok nt' ->
  now < nt' <= now + delay /\ (nt' - nt) mod delay = 0.
Proof.
  intros Hd Ha. apply advance_ok_inv in Ha as (_ & _ & ->).
  pose proof (Z.mod_pos_bound (now - nt) delay Hd).
  split; [lia|].
  replace (now + delay - (now - nt) mod delay - nt)
    with (((now - nt) / delay + 1) * delay)
    by (pose proof (Z.div_mod (now - nt) delay ltac:(lia)); lia).
  apply Z.mod_mul. lia.
Qed.


(** C19: With a negative interval the next fire time is already past
    (within one interval before the clock reading), so the loop runs
    the task again without sleeping. *)
Theorem advance_negative (nt now nt' : Z) :
  delay < 0 -> advance delay nt now = Ok nt' -> now + delay <= nt' < now.
Proof.
  intros Hd Ha. apply advance_ok_inv in Ha as (_ & _ & ->).
  pose proof (Z.mod_neg_bound (now - nt) delay Hd). lia.
Qed.

(** With any interval a [float] holds and that is not 0, the next fire
    time is at most [max 0 delay] after the clock reading. *)
Lemma advance_le (nt now nt' : Z) :
  advance delay nt now = Ok nt' -> nt' <= now + Z.max 0 delay.
Proof.
  intros Ha. apply advance_ok_inv in Ha as (Hd & _ & ->).
  destruct (Z.lt_trichotomy delay 0) as [Hn|[Hz|Hp]]; [|done|].
  - pose proof (Z.mod_neg_bound (now - nt) delay Hn). lia.
  - pose proof (Z.mod_pos_bound (now - nt) delay ltac:(lia)). lia.
Qed.
End Advance.

(** ** [time.sleep] *)

(** A sleep of at most [max 0 delay] seconds succeeds when the monotonic
    clock leaves room for one interval. *)
Lemma py_sleep_ok (mono secs delay : Z) :
  0 <= secs <= Z.max 0 delay -> 0 <= mono -> mono + Z.max 0 delay * 10 ^ 9 < 2 ^ 63 ->
  py_sleep mono secs = Ok tt.
Proof.
  intros Hs Hm Hb. unfold py_sleep.
  assert (secs * 10 ^ 9 <= Z.max 0 delay * 10 ^ 9) by (apply Z.mul_le_mono_nonneg_r; lia).
  rewrite (proj2 (Z.leb_gt _ _)) by lia. by rewrite (proj2 (Z.leb_gt _ _)) by lia.
Qed.

(** A sleep of 0 seconds succeeds on any count of nanoseconds a
    monotonic clock reading has. *)
Lemma py_sleep_zero (mono nt now : Z) :
  nt <= now -> mono < 2 ^ 63 -> py_sleep mono (sleep_time nt now) = Ok tt.
Proof.
  intros Hn Hm. unfold py_sleep, sleep_time. rewrite Z.max_l, Z.mul_0_l, Z.add_0_r by lia.
  change (2 ^ 63) with 9223372036854775808 in *. cbn.
  by rewrite (proj2 (Z.leb_gt _ _)) by lia.
Qed.

(** ** The loop *)

Section Loop.
Context {S I E : Type} `{!Task S I E} `{!Clock I} `{!SchedLog E}.

(** One iteration whose sleep succeeds runs the task once; whatever the
    task raised is logged, and the loop continues whenever the interval
    is not 0 and a [float] holds it. *)
Lemma every_iter_spec (delay : Z) (st : every_state S) (i : I) :
  delay <> 0 -> int_to_float_overflows delay = false ->
  py_sleep (clock_monotonic i) (sleep_time (next_time st) (clock_before i)) = Ok tt ->
  let '(s', evs, r) := task_run (task_state st) i in
  every_iter delay st i =
    (ev_sleep (sleep_time (next_time st) (clock_before i))
       :: evs ++ match r with Ok _ => [] | Raise e => [ev_exception e] end,
     Ok (mkEvery (clock_after i + delay - (clock_after i - next_time st) mod delay) s')).
Proof.
  intros Hd Ho Hs. unfold every_iter. rewrite Hs.
  destruct (task_run (task_state st) i) as [[s' evs] r].
  by rewrite advance_closed.
Qed.

(** An iteration that returned a state slept, ran the task and moved
    the fire time by [advance]. *)
Lemma every_iter_ok_inv (delay : Z) (st st' : every_state S) (i : I) (evs : list E) :
  every_iter delay st i = (evs, Ok st') ->
  advance delay (next_time st) (clock_after i) = Ok (next_time st') /\
  task_state st' = fst (fst (task_run (task_state st) i)).
Proof.
  unfold every_iter. destruct (py_sleep _ _); [|done].
  destruct (task_run (task_state st) i) as [[s' evs'] r].
  destruct (advance delay (next_time st) (clock_after i)); [|done]. by intros [= _ <-].
Qed.

(** With an interval of 0 an iteration whose sleep succeeds runs the
    task and then raises ZeroDivisionError on line 152, outside the
    [try]: the exception leaves [every] and ends the worker. *)
Lemma every_zero_delay (st : every_state S) (i : I) :
  py_sleep (clock_monotonic i) (sleep_time (next_time st) (clock_before i)) = Ok tt ->
  snd (every_iter 0 st i) = Raise ZeroDivisionError.
Proof.
  intros Hs. unfold every_iter. rewrite Hs. by destruct (task_run (task_state st) i) as [[s' evs] r].
Qed.

(** C33: With an [int] interval too large for a [float] (2^1024 - 2^970
    or more in magnitude), every iteration whose sleep succeeds runs
    the task, logs what it raised, and then raises OverflowError on
    line 152, outside the [try]: the exception leaves [every]. *)
Theorem every_overflow_delay (delay : Z) (st : every_state S) (i : I) :
  int_to_float_overflows delay = true ->
  py_sleep (clock_monotonic i) (sleep_time (next_time st) (clock_before i)) = Ok tt ->
  let '(s', evs, r) := task_run (task_state st) i in
  every_iter delay st i =
    (ev_sleep (sleep_time (next_time st) (clock_before i))
       :: evs ++ match r with Ok _ => [] | Raise e => [ev_exception e] end,
     Raise OverflowError).
Proof.
  intros Ho Hs. unfold every_iter, advance. rewrite Hs, Ho.
  by destruct (task_run (task_state st) i) as [[s' evs] r].
Qed.

(** An interval of 0 or too large for a [float] stops every iteration. *)
Lemma every_iter_stops (delay : Z) (st st' : every_state S) (i : I) (evs : list E) :
  delay = 0 \/ int_to_float_overflows delay = true -> every_iter delay st i <> (evs, Ok st').
Proof.
  intros Hd H. apply every_iter_ok_inv in H as [Ha _].
  apply advance_ok_inv in Ha as (? & ? & _). destruct Hd; congruence.
Qed.

(** One iteration on a clock as [clock_ok] describes it: the sleep
    succeeds, no exception leaves [every], and the next fire time is at
    most [max 0 delay] after the last reading. *)
Lemma every_iter_clock (delay t : Z) (st : every_state S) (i : I) :
  delay <> 0 -> int_to_float_overflows delay = false ->
  next_time st <= t + Z.max 0 delay -> t <= clock_before i -> 0 <= clock_monotonic i ->
  clock_monotonic i + Z.max 0 delay * 10 ^ 9 < 2 ^ 63 ->
  exists evs st', every_iter delay st i = (evs, Ok st') /\
    next_time st' <= clock_after i + Z.max 0 delay.
Proof.
  intros Hd Ho Hn Ht Hm Hb.
  assert (Hs : py_sleep (clock_monotonic i) (sleep_time (next_time st) (clock_before i)) = Ok tt)
    by (apply (py_sleep_ok _ _ delay); unfold sleep_time; lia).
  pose proof (every_iter_spec delay st i Hd Ho Hs) as H.
  destruct (task_run (task_state st) i) as [[s' evs] r].
  eexists _, _. split; [exact H|]. cbn.
  apply (advance_le delay (next_time st)). by apply advance_closed.
Qed.

(** With a non-zero interval a [float] holds, no exception leaves
    [every] on a clock as [clock_ok] describes it: whatever the task
    raises on any sequence of iterations, the loop is still running
    after all of them. *)
Lemma every_run_never_raises (delay t : Z) (st : every_state S) (inputs : list I) :
  delay <> 0 -> int_to_float_overflows delay = false ->
  next_time st <= t + Z.max 0 delay -> clock_ok delay t inputs = true ->
  exists st', snd (every_run delay st inputs) = Ok st'.
Proof.
  intros Hd Ho. revert st t. induction inputs as [|i rest IH]; intros st t Hn Hc; simpl; [eauto|].
  cbn in Hc. apply andb_prop in Hc as [Hc Hrest]. repeat rewrite andb_true_iff in Hc.
  destruct Hc as [[Ht Hm] Hb]. apply Z.leb_le in Ht. apply Z.leb_le in Hm. apply Z.ltb_lt in Hb.
  destruct (every_iter_clock delay t st i Hd Ho Hn Ht Hm Hb) as (evs & st' & -> & Hn').
  destruct (every_run delay st' rest) as [evs' r'] eqn:Erun.
  destruct (IH st' (clock_after i) Hn' Hrest) as [st'' H]. rewrite Erun in H. simpl in *. eauto.
Qed.

(** The clock can read any time, and CLOCK_MONOTONIC any count of
    nanoseconds from 0 to 2^63. *)
Definition clock_any : Prop :=
  forall t, exists i : I, clock_before i = t /\ 0 <= clock_monotonic i < 2 ^ 63.

(** From every state the loop can go on when the interval is not 0 and
    a [float] holds it: the clock may read the fire time, so the sleep
    is 0. *)
Lemma every_step_total (delay : Z) (st : every_state S) :
  clock_any -> delay <> 0 -> int_to_float_overflows delay = false ->
  exists st', every_step delay st st'.
Proof.
  intros Hany Hd Ho. destruct (Hany (next_time st)) as (i & Hb & Hm).
  assert (Hs : py_sleep (clock_monotonic i) (sleep_time (next_time st) (clock_before i)) = Ok tt).
    by (apply (py_sleep_ok _ _ 0); unfold sleep_time; lia).
  pose proof (every_iter_spec delay st i Hd Ho Hs) as H.
  destruct (task_run (task_state st) i) as [[s' evs] r].
  eexists _, i, _. exact H.
Qed.

(** C18: When the clock can read any time, the loop has an infinite run
    from every state with a non-zero interval that a [float] holds: it
    never stops. *)
Theorem every_forever (delay : Z) (st : every_state S) :
  clock_any -> delay <> 0 -> int_to_float_overflows delay = false ->
  infseq (every_step delay) st.
Proof. intros Hany Hd Ho. apply infseq_total. intros st1. by apply every_step_total. Qed.

(** C40: When the clock can read any time, the loop terminates on every
    path, its step relation being well founded, exactly when the
    interval is 0 or too large for a [float]: then no iteration reaches
    the next one (ZeroDivisionError or OverflowError on line 152); with
    any other interval some run never ends. *)
Theorem every_terminates (delay : Z) (st0 : every_state S) :
  clock_any ->
  well_founded (fun st' st => every_step delay st st') <->
  delay = 0 \/ int_to_float_overflows delay = true.
Proof.
  intros Hany. split.
  - intros Hwf. destruct (Z.eq_dec delay 0) as [|Hd]; [by left|]. right.
    destruct (int_to_float_overflows delay) eqn:Ho; [done|]. exfalso.
    apply (acc_not_infseq (every_step delay) st0 (Hwf st0)).
    apply infseq_total. intros st1. by apply every_step_total.
  - intros Hd st. constructor. intros st' (i & evs & H).
    exfalso. exact (every_iter_stops delay st st' i evs Hd H).
Qed.

(** C20: When the clock reading after the task is not before the fire
    time (it slept until then), the next fire time is at least one
    interval later: the task never runs twice for one grid slot. *)
Theorem fire_times_increase (delay : Z) (st st' : every_state S) (i : I) (evs : list E) :
  0 < delay -> next_time st <= clock_after i ->
  every_iter delay st i = (evs, Ok st') ->
  next_time st + delay <= next_time st'.
Proof.
  intros Hd Hc Hi. apply every_iter_ok_inv in Hi as [Ha _].
  apply advance_ok_inv in Ha as (_ & _ & ->).
  pose proof (Z.mod_pos_bound (clock_after i - next_time st) delay Hd).
  assert (Hnn : 0 <= clock_after i - next_time st) by lia.
  pose proof (Z.mod_le _ _ Hnn Hd). lia.
Qed.
End Loop.

(** Interval 10, first fire at 0, the task overran to 25: the fires at
    10 and 20 are skipped and the next one is 30. *)
Lemma advance_bounds_witness :
  advance 10 0 25 = Ok 30 /\ (25 < 30 <= 25 + 10 /\ (30 - 0) mod 10 = 0).
Proof.
  split; [reflexivity|]. apply (advance_bounds 10 0 25 30); [lia | reflexivity].
Defined.


Lemma advance_negative_witness :
  advance (-10) 0 25 = Ok 20 /\ 25 + -10 <= 20 < 25.
Proof.
  split; [reflexivity|]. apply (advance_negative (-10) 0 25 20); [lia | reflexivity].
Defined.
