(* ===== verification/Worker.v ===== *)
(** * The worker (src/app.py, lines 119-224)

    [do_repeat] (lines 154-221) is the task the scheduler runs: it logs
    and performs the HTTP GET of the device table; a [ConnectionError] is
    logged and ends the cycle normally; another exception of
    [requests.get] and a non-200 status (which raises [Error]) leave the
    task; the body of a 200 response is decoded ([Utf8.decode]), parsed
    ([Parser.parse_body]) and published or followed by a reconnect
    ([Publisher.publish_or_reconnect]).
    [worker_init] is [__init__] up to the loop (lines 120-122 and 143),
    [worker_run] the whole worker on a list of iterations.

    The instances of this file make [do_repeat] the [Task] of the
    scheduler: the scheduler's theorems apply to the worker as they are.
    The network is the environment: an iteration's inputs ([tick]) are
    the two clock readings and the monotonic clock at the sleep, the
    outcome of the GET (for a response: its status, its bytes, and the
    text requests decodes when the code has not chosen the encoding),
    the outcome of a connect attempt if one is made, and the message ids
    of the packets paho-mqtt finishes writing during a publish. *)

From S2P Require Import Prelude PyText Utf8 PyFloat Response Normalize Parser Json Publisher Scheduler.

(** The outcome of [requests.get(url, auth=auth)]: a [ConnectionError]
    with its [str], another exception, or a response: its status, its
    body as bytes ([res.content]), its [Content-Type] header if any, and
    what the environment decides about decoding it (the guess of
    [apparent_encoding], other codecs; Response.v). *)
Inductive fetch_outcome :=
| FetchConnectionError (error : list Z)
| FetchOtherError
| FetchResponse (status : Z) (content : list Z) (content_type : option (list Z)) (guess : Requests.text_env).

(** The inputs of one iteration of [every]. *)
Record tick := mkTick {
  tk_before : Z;
  tk_after : Z;
  tk_fetch : fetch_outcome;
  tk_connect : connect_outcome;
  tk_monotonic : Z;
  tk_published : list Z
}.

(** Line 155. *)
Definition fetch_url (cfg : config) : list Z :=
  lit "http://" ++ benning_host cfg ++ lit "/getallentries.cgi?firstOid=10000&lastOid=20000".

(** Line 221: the message of [Error]. *)
Definition fetch_error_message (text : list Z) : list Z := lit "error fetching data: " ++ text.

(** Lines 154-221.  [requests.get] sets the response's encoding from
    its headers, which raises on a bare [charset] parameter; on a 200
    answer the body is [res.text] with [res.encoding = 'UTF-8'] (lines
    165 and 174); otherwise [res.text] with the encoding requests found
    goes into the message of [Error] (line 221). *)
Definition do_repeat (cfg : config) (st : mqtt_state) (i : tick)
    : mqtt_state * list event * result unit :=
  let fetch := EvFetch (fetch_url cfg) (benning_username cfg) (benning_password cfg) in
  match tk_fetch i with
  | FetchConnectionError error => (st, [fetch; EvFetchError error], Ok tt)
  | FetchOtherError => (st, [fetch], Raise RequestError)
  | FetchResponse status content content_type guess =>
      match Requests.get_encoding_from_headers content_type with
      | Raise e => (st, [fetch], Raise e)
      | Ok encoding =>
          if Z.eqb status 200 then
            match Requests.response_text (Some (lit "UTF-8")) content guess with
            | Raise e => (st, [fetch], Raise e)
            | Ok text =>
                match parse_body text with
                | Raise e => (st, [fetch], Raise e)
                | Ok (ms, n) =>
                    let '(st', evs) := publish_or_reconnect cfg st ms (tk_connect i) (tk_published i) in
                    (st', fetch :: EvProcessed n :: evs, Ok tt)
                end
            end
          else
            match Requests.response_text encoding content guess with
            | Raise e => (st, [fetch], Raise e)
            | Ok text => (st, [fetch], Raise (AppError (fetch_error_message text)))
            end
      end
  end.

#[export] Instance worker_clock : Clock tick :=
  {| clock_before := tk_before; clock_after := tk_after; clock_monotonic := tk_monotonic |}.

#[export] Instance worker_log : SchedLog event :=
  {| ev_sleep := EvSleep; ev_exception := EvTaskException |}.

(** [self.do_repeat] as the scheduler's task. *)
Definition worker_task (cfg : config) : Task mqtt_state tick event := do_repeat cfg.

(** Before [__init__] runs, no client exists. *)
Definition mqtt_initial : mqtt_state := mkMqtt false 0.

(** Lines 120-122 and 143: connect, then start [every] at time [now]. *)
Definition worker_init (cfg : config) (out : connect_outcome) (now : Z)
    : every_state mqtt_state * list event :=
  let '(m, evs) := mqtt_connect cfg mqtt_initial out in (every_start now m, evs).

(** One iteration of the worker's loop. *)
Definition worker_iter (cfg : config) (st : every_state mqtt_state) (i : tick)
    : list event * result (every_state mqtt_state) :=
  @every_iter _ _ _ (worker_task cfg) _ _ (cfg_repeat cfg) st i.

(** [main()]: the worker on a list of iterations. *)
Definition worker_run (cfg : config) (out : connect_outcome) (now : Z) (ticks : list tick)
    : list event * result (every_state mqtt_state) :=
  let '(st, evs) := worker_init cfg out now in
  let '(evs', r) := @every_run _ _ _ (worker_task cfg) _ _ (cfg_repeat cfg) st ticks in
  (evs ++ evs', r).

(** The worker's loop as a transition relation. *)
Definition worker_step (cfg : config) : every_state mqtt_state -> every_state mqtt_state -> Prop :=
  @every_step _ _ _ (worker_task cfg) _ _ (cfg_repeat cfg).

(** ** One cycle of [do_repeat] *)

(** The publish events of a cycle, as the specification states them. *)
Definition cycle_publishes (cfg : config) (st : mqtt_state) (i : tick) : list event :=
  match tk_fetch i with
  | FetchResponse status content content_type _ =>
      match Requests.get_encoding_from_headers content_type with
      | Raise _ => []
      | Ok _ =>
          if Z.eqb status 200 then
            match parse_body (Utf8.decode content) with
            | Ok (ms, _) => if mqtt_connected st then [EvPublish (mqtt_topic cfg) (Json.dumps ms)] else []
            | Raise _ => []
            end
          else []
      end
  | _ => []
  end.

(** C1: A cycle publishes at most once: exactly when the GET answered 200,
    every line of the body parsed and the connected flag was set; the
    payload is then the parsed metrics and the topic the configured one. *)
Theorem do_repeat_publish (cfg : config) (st : mqtt_state) (i : tick) :
  List.filter is_publish (snd (fst (do_repeat cfg st i))) = cycle_publishes cfg st i.
Proof.
  unfold do_repeat, cycle_publishes.
  destruct (tk_fetch i) as [err| |status content ct g]; [done|done|].
  destruct (Requests.get_encoding_from_headers ct) as [enc|e]; [|done].
  destruct (Z.eqb status 200);
    [rewrite Requests.response_text_utf8|by destruct (Requests.response_text enc content g)].
  destruct (parse_body (Utf8.decode content)) as [[ms n]|e]; [|done].
  unfold publish_or_reconnect.
  destruct (mqtt_connected st); [cbn; by rewrite filter_publish_published|]. by destruct (tk_connect i).
Qed.

(** The payload the device sends: rows ended by a newline, encoded. *)
Definition table_bytes (rows : list (list Z)) : list Z :=
  Utf8.encode (concat (map (fun l => l ++ [10]) rows)).

(** C2: End to end, a cycle in which the device answers 200 with the
    UTF-8 encoding of N newline-terminated rows that each parse, while the
    flag is set, logs the fetch, counts N lines and publishes exactly the
    N metrics of the rows, in row order, to the configured topic, after
    which paho-mqtt's callback logs the packets written; the MQTT state
    is unchanged and the task returns normally. *)
Theorem do_repeat_rows (cfg : config) (st : mqtt_state) (i : tick)
    (rows : list (list Z)) (ms : list metric) (ct enc : option (list Z)) (g : Requests.text_env) :
  mqtt_connected st = true ->
  tk_fetch i = FetchResponse 200 (table_bytes rows) ct g ->
  Requests.get_encoding_from_headers ct = Ok enc ->
  Forall (Forall (fun c => Utf8.is_scalar c = true)) rows ->
  Forall StrFacts.no_linebreak rows ->
  Forall2 (fun l m => parse_line l = Ok m) rows ms ->
  do_repeat cfg st i =
    (st, EvFetch (fetch_url cfg) (benning_username cfg) (benning_password cfg)
         :: EvProcessed (length rows) :: EvPublish (mqtt_topic cfg) (Json.dumps ms)
         :: map EvPublished (tk_published i), Ok tt).
Proof.
  intros Hc Hf He Hs Hl Hm. unfold do_repeat. rewrite Hf, He, Z.eqb_refl, Requests.response_text_utf8.
  cbn iota. unfold table_bytes.
  rewrite <- (app_nil_r (Utf8.encode _)), Utf8.decode_encode_app, app_nil_r.
  2:{ apply Forall_concat, Forall_map. eapply Forall_impl; [exact Hs|].
      intros l Hl'. apply Forall_app; split; [done|by repeat constructor]. }
  rewrite (parse_body_rows rows ms Hl Hm). by rewrite publish_connected.
Qed.

(** C38: Whatever bytes the device sends, a payload the worker
    publishes is JSON that a subscriber's [json.loads] reads back as the
    metrics the parser built from the decoded body, in order, every
    string and every float as built; the topic is the configured one. *)
Theorem published_payload_reads_back (cfg : config) (st : mqtt_state) (i : tick)
    (status : Z) (content : list Z) (ct : option (list Z)) (g : Requests.text_env) (topic payload : list Z) :
  tk_fetch i = FetchResponse status content ct g ->
  Forall (fun b => Utf8.is_byte b = true) content ->
  In (EvPublish topic payload) (snd (fst (do_repeat cfg st i))) ->
  topic = mqtt_topic cfg /\
  exists ms n, parse_body (Utf8.decode content) = Ok (ms, n) /\
    Json.loads payload = Some (Json.JArr (map Json.metric_json ms)).
Proof.
  intros Hf Hb Hin. unfold do_repeat in Hin. rewrite Hf in Hin.
  destruct (Requests.get_encoding_from_headers ct) as [enc|e]; [|by destruct Hin as [?|[]]].
  destruct (Z.eqb status 200);
    [rewrite Requests.response_text_utf8 in Hin
    |by destruct (Requests.response_text enc content g); destruct Hin as [?|[]]].
  destruct (parse_body (Utf8.decode content)) as [[ms n]|e] eqn:Ep; [|by destruct Hin as [?|[]]].
  unfold publish_or_reconnect in Hin. destruct (mqtt_connected st);
    [|by destruct (tk_connect i); repeat destruct Hin as [?|Hin]].
  destruct Hin as [?|[?|[[= <- <-]|Hin]]]; [done|done| |by apply in_map_iff in Hin as (? & ? & _)].
  split; [done|]. exists ms, n. split; [done|].
  apply Json.loads_dumps_metrics.
  assert (Hc : Forall (metric_chars (fun c => Utf8.is_scalar c = true)) ms).
  { refine (parse_body_chars _ _ _ _ _ (Utf8.decode_scalar_chars _ Hb) Ep).
    intros c Hc. apply Utf8.is_scalar_spec. lia. }
  assert (Hv : Forall (fun m => valid (m_value m) = true) ms).
  { apply parse_body_ok in Ep as [_ Hm2]. eapply Forall2_Forall_r; [exact Hm2|].
    apply Forall_forall. intros l _ m. apply parse_line_valid. }
  eapply Forall_impl; [apply Forall_and; split; [exact Hc|exact Hv]|].
  intros m [? ?]. by apply Json.metric_ok_intro.
Qed.

(** C25: A non-200 answer whose [Content-Type] names a [text] type
    without parameters makes [do_repeat] raise [Error] with the body
    read byte by byte as ISO-8859-1, requests' default for text: a
    UTF-8 character of the body appears as two or more characters of
    the message. *)
Theorem non200_text_latin1 (cfg : config) (st : mqtt_state) (i : tick)
    (status : Z) (content t : list Z) (g : Requests.text_env) :
  tk_fetch i = FetchResponse status content (Some t) g -> status <> 200 ->
  59 ∉ t -> Requests.contains (lit "text") (Requests.strip_by FloatParse.is_unicode_space t) = true ->
  do_repeat cfg st i =
    (st, [EvFetch (fetch_url cfg) (benning_username cfg) (benning_password cfg)],
     Raise (AppError (fetch_error_message content))).
Proof.
  intros Hf Hs Ht Hc. unfold do_repeat. rewrite Hf, Requests.get_encoding_text by done.
  cbn iota. rewrite (proj2 (Z.eqb_neq _ _) Hs), Requests.response_text_latin1. done.
Qed.

(** C27: A [Content-Type] whose last parameter is a bare [charset]
    (no [=]) makes [requests.get] raise [AttributeError] while it builds
    the response, whatever the status: even a 200 answer with a table
    that parses is dropped, and [every] logs the exception. *)
Theorem bare_charset_raises (cfg : config) (st : mqtt_state) (i : tick)
    (status : Z) (content t : list Z) (g : Requests.text_env) :
  tk_fetch i = FetchResponse status content (Some (t ++ lit "; charset")) g -> 59 ∉ t ->
  do_repeat cfg st i =
    (st, [EvFetch (fetch_url cfg) (benning_username cfg) (benning_password cfg)], Raise AttributeError).
Proof.
  intros Hf Ht. unfold do_repeat. by rewrite Hf, Requests.get_encoding_bare_charset.
Qed.

(** The MQTT state only changes by a reconnect of a cycle whose GET
    answered 200 and whose body parsed, while the flag was clear. *)
Lemma do_repeat_connected (cfg : config) (st : mqtt_state) (i : tick) :
  mqtt_connected st = true ->
  fst (fst (do_repeat cfg st i)) = st /\
  forallb (fun ev => negb (is_connect ev)) (snd (fst (do_repeat cfg st i))) = true.
Proof.
  intros Hc. unfold do_repeat, publish_or_reconnect. rewrite Hc.
  repeat case_match; simplify_eq/=; autorewrite with pyrw; done.
Qed.

(** Any exception of [do_repeat] is raised before it touches the MQTT
    state. *)
Lemma do_repeat_raise_state (cfg : config) (st : mqtt_state) (i : tick) (e : exn) :
  snd (do_repeat cfg st i) = Raise e -> fst (fst (do_repeat cfg st i)) = st.
Proof.
  unfold do_repeat. intros H. repeat case_match; simplify_eq/=; done.
Qed.

(** ** The worker's loop *)

Section Loop.
Context (cfg : config).

Lemma worker_iter_spec (st : every_state mqtt_state) (i : tick) :
  cfg_repeat cfg <> 0 -> int_to_float_overflows (cfg_repeat cfg) = false ->
  py_sleep (tk_monotonic i) (sleep_time (next_time st) (tk_before i)) = Ok tt ->
  let '(m', evs, r) := do_repeat cfg (task_state st) i in
  worker_iter cfg st i =
    (EvSleep (sleep_time (next_time st) (tk_before i))
       :: evs ++ match r with Ok _ => [] | Raise e => [EvTaskException e] end,
     Ok (mkEvery (tk_after i + cfg_repeat cfg - (tk_after i - next_time st) mod cfg_repeat cfg) m')).
Proof. intros Hd Ho Hs. exact (@every_iter_spec _ _ _ (worker_task cfg) _ _ _ st i Hd Ho Hs). Qed.

(** C10: A non-200 answer of the device raises [Error] inside the task,
    and [every] catches it (line 148): the exception is logged, the MQTT
    state is kept and the loop goes on, so the worker does not stop
    (when the sleep before the task and the update after it succeed). *)
Theorem non200_contained (st : every_state mqtt_state) (i : tick) (status : Z) (content : list Z)
    (ct enc : option (list Z)) (g : Requests.text_env) (text : list Z) :
  cfg_repeat cfg <> 0 -> int_to_float_overflows (cfg_repeat cfg) = false ->
  py_sleep (tk_monotonic i) (sleep_time (next_time st) (tk_before i)) = Ok tt ->
  tk_fetch i = FetchResponse status content ct g -> status <> 200 ->
  Requests.get_encoding_from_headers ct = Ok enc -> Requests.response_text enc content g = Ok text ->
  exists st', worker_iter cfg st i =
    ([EvSleep (sleep_time (next_time st) (tk_before i));
      EvFetch (fetch_url cfg) (benning_username cfg) (benning_password cfg);
      EvTaskException (AppError (fetch_error_message text))], Ok st') /\
    task_state st' = task_state st.
Proof.
  intros Hd Ho Hsl Hf Hs He Ht. pose proof (worker_iter_spec st i Hd Ho Hsl) as H.
  unfold do_repeat in H. rewrite Hf, He in H. cbn iota in H. rewrite (proj2 (Z.eqb_neq _ _) Hs), Ht in H.
  rewrite H. eexists. split; reflexivity.
Qed.

Lemma worker_iter_connected (st : every_state mqtt_state) (i : tick) :
  mqtt_connected (task_state st) = true ->
  forallb (fun ev => negb (is_connect ev)) (fst (worker_iter cfg st i)) = true /\
  forall st', snd (worker_iter cfg st i) = Ok st' -> task_state st' = task_state st.
Proof.
  intros Hc. destruct (do_repeat_connected cfg (task_state st) i Hc) as [Hst Hev].
  unfold worker_iter, every_iter, task_run, worker_task.
  destruct (py_sleep _ _); [|split; [done|discriminate]].
  destruct (do_repeat cfg (task_state st) i) as [[m evs] r]. simpl in *. subst m.
  destruct (advance (cfg_repeat cfg) (next_time st) (tk_after i)); simpl;
    (split; [rewrite forallb_app, Hev; by destruct r|]); intros st' [= <-]; done.
Qed.

(** C11: Once the connected flag is set, it stays set and no connect is
    ever attempted again, whatever the device and the broker do: the
    flag records the last connect call, not the connection, so a broker
    that drops the connection is never reconnected. *)
Theorem connected_never_reconnects (st : every_state mqtt_state) (ticks : list tick) :
  mqtt_connected (task_state st) = true ->
  let '(evs, r) := @every_run _ _ _ (worker_task cfg) _ _ (cfg_repeat cfg) st ticks in
  forallb (fun ev => negb (is_connect ev)) evs = true /\
  forall st', r = Ok st' -> task_state st' = task_state st.
Proof.
  revert st. induction ticks as [|i ticks IH]; intros st Hc; simpl; [by split; [|intros ? [= <-]]|].
  destruct (worker_iter_connected st i Hc) as [Hev Hst].
  unfold worker_iter in *.
  destruct (every_iter (cfg_repeat cfg) st i) as [evs [st1|e]]; simpl in *; [|split; [done|discriminate]].
  specialize (Hst st1 eq_refl).
  specialize (IH st1 ltac:(by rewrite Hst)).
  destruct (every_run (cfg_repeat cfg) st1 ticks) as [evs' r'].
  destruct IH as [IHev IHst]. split; [by rewrite forallb_app, Hev, IHev|].
  intros st' Hr. rewrite IHst by done. done.
Qed.
End Loop.

(** ** Reachable states and the whole worker *)

(** The states of the loop [__init__] can reach. *)
Inductive reachable (cfg : config) : every_state mqtt_state -> Prop :=
| reach_init (out : connect_outcome) (now : Z) :
    reachable cfg (fst (worker_init cfg out now))
| reach_step (st st' : every_state mqtt_state) :
    reachable cfg st -> worker_step cfg st st' -> reachable cfg st'.

Lemma worker_step_state (cfg : config) (st st' : every_state mqtt_state) :
  worker_step cfg st st' ->
  exists i, task_state st' = fst (fst (do_repeat cfg (task_state st) i)).
Proof.
  intros (i & evs & H). exists i. revert H.
  unfold every_iter, task_run, worker_task.
  destruct (do_repeat cfg (task_state st) i) as [[m evs'] r].
  intros Heq. repeat case_match; simplify_eq; done.
Qed.

Lemma do_repeat_clients (cfg : config) (st : mqtt_state) (i : tick) :
  (mqtt_clients st <= mqtt_clients (fst (fst (do_repeat cfg st i))))%nat.
Proof.
  unfold do_repeat, publish_or_reconnect, mqtt_connect.
  repeat case_match; simplify_eq/=; lia.
Qed.

(** C17: In every reachable state a client exists ([self.mqtt_client] and
    [self.mqtt_connected] are set before the loop and never removed), so
    [do_repeat] never reads a missing attribute. *)
Theorem reachable_has_client (cfg : config) (st : every_state mqtt_state) :
  reachable cfg st -> (1 <= mqtt_clients (task_state st))%nat.
Proof.
  induction 1 as [out now|st st' _ IH Hstep].
  - unfold worker_init, mqtt_connect. by destruct out.
  - destruct (worker_step_state cfg st st' Hstep) as [i ->].
    pose proof (do_repeat_clients cfg (task_state st) i). lia.
Qed.

(** C9: With a non-zero [repeat] that a [float] holds, the worker never
    ends on its own while the clock behaves ([time.time()] never goes
    back and CLOCK_MONOTONIC leaves room below 2^63 nanoseconds for a
    sleep of one interval): after any sequence of iterations, whatever
    the device, the parser and the broker did, the loop is still
    running. *)
Theorem worker_never_stops (cfg : config) (out : connect_outcome) (now : Z) (ticks : list tick) :
  cfg_repeat cfg <> 0 -> int_to_float_overflows (cfg_repeat cfg) = false ->
  clock_ok (cfg_repeat cfg) now ticks = true ->
  exists st, snd (worker_run cfg out now ticks) = Ok st.
Proof.
  intros Hd Ho Hc. unfold worker_run, worker_init.
  destruct (mqtt_connect cfg mqtt_initial out) as [m evs].
  destruct (@every_run_never_raises _ _ _ (worker_task cfg) _ _ (cfg_repeat cfg) now
              (every_start now m) ticks Hd Ho ltac:(cbn; lia) Hc) as [st' H].
  destruct (every_run (cfg_repeat cfg) (every_start now m) ticks) as [evs' r]. simpl in *. eauto.
Qed.

(** C12: With [repeat] 0 in the configuration the worker fetches and
    publishes once and then dies with ZeroDivisionError (when the clock
    has not gone back before the first sleep). *)
Theorem worker_zero_repeat (cfg : config) (out : connect_outcome) (now : Z) (i : tick) (ticks : list tick) :
  cfg_repeat cfg = 0 -> now <= tk_before i -> tk_monotonic i < 2 ^ 63 ->
  snd (worker_run cfg out now (i :: ticks)) = Raise ZeroDivisionError.
Proof.
  intros Hd Hn Hm. unfold worker_run, worker_init. destruct (mqtt_connect cfg mqtt_initial out) as [st evs].
  simpl. pose proof (@every_zero_delay _ _ _ (worker_task cfg) _ _ (every_start now st) i
                       (py_sleep_zero _ _ _ Hn Hm)) as H.
  rewrite <- Hd in H. destruct (every_iter (cfg_repeat cfg) (every_start now st) i) as [evs1 r1].
  simpl in H. subst r1. reflexivity.
Qed.

(** C29: A [repeat] of 9223372037 seconds or more (beyond the clock
    readings of the first iteration) kills the worker with OverflowError
    outside the [try]: the sleep of the second iteration is 2^63
    nanoseconds or more, which [time.sleep] refuses; an interval too
    large for a [float] raises the same exception already on line 152
    of the first iteration. *)
Theorem worker_huge_repeat (cfg : config) (out : connect_outcome) (now : Z) (i1 i2 : tick)
    (ticks : list tick) :
  now <= tk_before i1 <= tk_after i1 -> tk_after i1 <= tk_before i2 -> tk_monotonic i1 < 2 ^ 63 ->
  tk_before i2 - now + 9223372037 <= cfg_repeat cfg ->
  snd (worker_run cfg out now (i1 :: i2 :: ticks)) = Raise OverflowError.
Proof.
  intros [Hb1 Ha1] Hb2 Hm Hr. unfold worker_run, worker_init.
  destruct (mqtt_connect cfg mqtt_initial out) as [st evs]. cbn [every_run].
  unfold every_iter at 1. cbn [next_time task_state every_start].
  change (@task_run _ _ _ (worker_task cfg)) with (do_repeat cfg).
  change (@clock_after _ worker_clock) with tk_after.
  change (@clock_before _ worker_clock) with tk_before.
  change (@clock_monotonic _ worker_clock) with tk_monotonic.
  rewrite (py_sleep_zero _ _ _ Hb1 Hm).
  destruct (do_repeat cfg st i1) as [[s1 evs1] r1].
  destruct (advance (cfg_repeat cfg) now (tk_after i1)) as [nt'|e] eqn:Ha.
  2:{ unfold advance in Ha. destruct (int_to_float_overflows (cfg_repeat cfg));
      [injection Ha as <-; reflexivity|].
      rewrite (proj2 (Z.eqb_neq _ _)) in Ha by lia. discriminate. }
  apply advance_ok_inv in Ha as (_ & _ & ->).
  rewrite (Z.mod_small (tk_after i1 - now)) by lia.
  unfold every_iter. cbn [next_time].
  change (@clock_before _ worker_clock) with tk_before.
  unfold py_sleep, sleep_time. rewrite Z.max_r by lia.
  rewrite (proj2 (Z.leb_le (2 ^ 63) _)).
  - reflexivity.
  - change (2 ^ 63) with 9223372036854775808. change (10 ^ 9) with 1000000000. lia.
Qed.

(** The worker's clock can read any time, and the monotonic clock
    any count below 2^63. *)
Lemma tick_clock_any : @clock_any tick worker_clock.
Proof. intros t. exists (mkTick t t FetchOtherError ConnectOk 0 []). split; [done|]. cbn. lia. Qed.

(** ** Witnesses *)

(** No guess, no other codec. *)
Definition sample_guess : Requests.text_env := Requests.mkTextEnv None Requests.NoSuchCodec.

(** An iteration in which the device answers with the sample row as
    [text/plain]. *)
Definition sample_tick (status : Z) : tick :=
  mkTick 0 25 (FetchResponse status (sample_row ++ [10]) (Some (lit "text/plain")) sample_guess) ConnectOk 3600000000000 [1].

(** The same answer in an iteration that starts at [t]. *)
Definition sample_tick_at (t status : Z) : tick :=
  mkTick t (t + 25) (FetchResponse status (sample_row ++ [10]) (Some (lit "text/plain")) sample_guess)
    ConnectOk 3600000000000 [1].

Lemma non200_contained_witness :
  exists st', worker_iter sample_cfg (mkEvery 0 (mkMqtt true 1)) (sample_tick 503) =
    ([EvSleep (sleep_time 0 0);
      EvFetch (fetch_url sample_cfg) (benning_username sample_cfg) (benning_password sample_cfg);
      EvTaskException (AppError (fetch_error_message (sample_row ++ [10])))], Ok st') /\
    task_state st' = mkMqtt true 1.
Proof.
  apply (non200_contained sample_cfg (mkEvery 0 (mkMqtt true 1)) (sample_tick 503) 503
           (sample_row ++ [10]) (Some (lit "text/plain")) (Some (lit "ISO-8859-1")) sample_guess
           (sample_row ++ [10]));
    [discriminate | reflexivity | reflexivity | reflexivity | discriminate
    | vm_compute; reflexivity | vm_compute; reflexivity].
Defined.

Lemma do_repeat_rows_witness :
  do_repeat sample_cfg (mkMqtt true 1)
    (mkTick 0 25 (FetchResponse 200 (table_bytes [sample_row]) None sample_guess) ConnectOk 3600000000000 [1]) =
    (mkMqtt true 1, [EvFetch (fetch_url sample_cfg) (benning_username sample_cfg) (benning_password sample_cfg);
          EvProcessed (length [sample_row]); EvPublish (mqtt_topic sample_cfg) (Json.dumps [sample_metric]);
          EvPublished 1], Ok tt).
Proof.
  apply (do_repeat_rows sample_cfg (mkMqtt true 1)
           (mkTick 0 25 (FetchResponse 200 (table_bytes [sample_row]) None sample_guess) ConnectOk 3600000000000 [1])
           [sample_row] [sample_metric] None None sample_guess); [reflexivity | reflexivity | reflexivity | | |].
  - repeat constructor.
  - unfold StrFacts.no_linebreak. repeat constructor.
  - constructor; [vm_compute; reflexivity | constructor].
Defined.

Lemma published_payload_reads_back_witness :
  tk_fetch (sample_tick 200) = FetchResponse 200 (sample_row ++ [10]) (Some (lit "text/plain")) sample_guess /\
  Forall (fun b => Utf8.is_byte b = true) (sample_row ++ [10]) /\
  In (EvPublish (mqtt_topic sample_cfg) (Json.dumps [sample_metric]))
     (snd (fst (do_repeat sample_cfg (mkMqtt true 1) (sample_tick 200)))) /\
  (mqtt_topic sample_cfg = mqtt_topic sample_cfg /\
   exists ms n, parse_body (Utf8.decode (sample_row ++ [10])) = Ok (ms, n) /\
     Json.loads (Json.dumps [sample_metric]) = Some (Json.JArr (map Json.metric_json ms))).
Proof.
  assert (Hb : Forall (fun b => Utf8.is_byte b = true) (sample_row ++ [10]))
    by (apply forallb_Forall; vm_compute; reflexivity).
  assert (Hin : In (EvPublish (mqtt_topic sample_cfg) (Json.dumps [sample_metric]))
     (snd (fst (do_repeat sample_cfg (mkMqtt true 1) (sample_tick 200))))) by (vm_compute; auto).
  split; [reflexivity|]. split; [exact Hb|]. split; [exact Hin|].
  exact (published_payload_reads_back sample_cfg (mkMqtt true 1) (sample_tick 200) 200
           (sample_row ++ [10]) (Some (lit "text/plain")) sample_guess _ _ eq_refl Hb Hin).
Defined.

Lemma connected_never_reconnects_witness :
  let '(evs, r) := @every_run _ _ _ (worker_task sample_cfg) _ _ 60 (mkEvery 0 (mkMqtt true 1))
                     [sample_tick 200; sample_tick 500] in
  forallb (fun ev => negb (is_connect ev)) evs = true /\
  forall st', r = Ok st' -> task_state st' = mkMqtt true 1.
Proof.
  exact (connected_never_reconnects sample_cfg (mkEvery 0 (mkMqtt true 1))
           [sample_tick 200; sample_tick 500] eq_refl).
Defined.

Lemma reachable_has_client_witness :
  (1 <= mqtt_clients (task_state (fst (worker_init sample_cfg (ConnectFails (lit "[Errno 111] Connection refused")) 0))))%nat.
Proof. apply (reachable_has_client sample_cfg). apply reach_init. Defined.

Lemma worker_never_stops_witness :
  exists st, snd (worker_run sample_cfg (ConnectFails (lit "[Errno 111] Connection refused")) 0 [sample_tick 200; sample_tick_at 60 404]) = Ok st.
Proof. apply worker_never_stops; [discriminate | reflexivity | reflexivity]. Defined.

Lemma worker_zero_repeat_witness :
  snd (worker_run (mkConfig (lit "h") (lit "u") (lit "p") (lit "b") (lit "t") 0) ConnectOk 0
         (sample_tick 200 :: [])) = Raise ZeroDivisionError.
Proof. apply worker_zero_repeat; [reflexivity | cbn; lia | reflexivity]. Defined.

Lemma every_forever_witness :
  infseq (worker_step sample_cfg) (mkEvery 0 (mkMqtt false 1)).
Proof.
  apply (@every_forever _ _ _ (worker_task sample_cfg) _ _ 60);
    [exact tick_clock_any | discriminate | reflexivity].
Defined.

(** With an interval of 0 every run of the loop ends. *)
Lemma every_terminates_witness :
  well_founded (fun st' st => @every_step _ _ _ (worker_task sample_cfg) _ _ 0 st st').
Proof.
  apply (proj2 (@every_terminates _ _ _ (worker_task sample_cfg) _ _ 0 (mkEvery 0 (mkMqtt false 1))
                  tick_clock_any)).
  by left.
Defined.

(** An interval of 2^1024 seconds: the 200 cycle runs, then line 152
    raises. *)
Lemma every_overflow_delay_witness :
  int_to_float_overflows (2 ^ 1024) = true /\
  py_sleep (tk_monotonic (sample_tick 200)) (sleep_time 0 (tk_before (sample_tick 200))) = Ok tt /\
  (let '(s', evs, r) := do_repeat sample_cfg (mkMqtt true 1) (sample_tick 200) in
   @every_iter _ _ _ (worker_task sample_cfg) _ _ (2 ^ 1024) (mkEvery 0 (mkMqtt true 1)) (sample_tick 200) =
     (EvSleep (sleep_time 0 (tk_before (sample_tick 200)))
        :: evs ++ match r with Ok _ => [] | Raise e => [EvTaskException e] end,
      Raise OverflowError)).
Proof.
  split; [reflexivity|]. split; [vm_compute; reflexivity|].
  exact (@every_overflow_delay _ _ _ (worker_task sample_cfg) worker_clock worker_log (2 ^ 1024) (mkEvery 0 (mkMqtt true 1))
           (sample_tick 200) eq_refl ltac:(vm_compute; reflexivity)).
Defined.

(** A [repeat] of 10^10 seconds: the first cycle runs, the second sleep
    raises. *)
Lemma worker_huge_repeat_witness :
  snd (worker_run (mkConfig (lit "h") (lit "u") (lit "p") (lit "b") (lit "t") (10 ^ 10)) ConnectOk 0
         [sample_tick 200; sample_tick_at 60 200]) = Raise OverflowError.
Proof. apply worker_huge_repeat; cbn; lia. Defined.

Lemma fire_times_increase_witness :
  exists evs st', worker_iter sample_cfg (mkEvery 0 (mkMqtt true 1)) (sample_tick 200) = (evs, Ok st') /\
  0 + 60 <= next_time st'.
Proof.
  destruct (worker_iter sample_cfg (mkEvery 0 (mkMqtt true 1)) (sample_tick 200)) as [evs [st'|e]] eqn:E;
    [|vm_compute in E; discriminate].
  exists evs, st'. split; [reflexivity|].
  apply (@fire_times_increase _ _ _ (worker_task sample_cfg) _ _ 60 (mkEvery 0 (mkMqtt true 1)) st' (sample_tick 200) evs);
    [lia | simpl; lia | exact E].
Defined.

(** A 503 answer of [text/html] with a UTF-8 [é] (C3 A9). *)
Lemma non200_text_latin1_witness :
  tk_fetch (mkTick 0 25 (FetchResponse 503 [67; 195; 169] (Some (lit "text/html")) sample_guess) ConnectOk 3600000000000 [1])
    = FetchResponse 503 [67; 195; 169] (Some (lit "text/html")) sample_guess /\
  do_repeat sample_cfg (mkMqtt true 1)
    (mkTick 0 25 (FetchResponse 503 [67; 195; 169] (Some (lit "text/html")) sample_guess) ConnectOk 3600000000000 [1]) =
  (mkMqtt true 1, [EvFetch (fetch_url sample_cfg) (benning_username sample_cfg) (benning_password sample_cfg)],
   Raise (AppError (fetch_error_message [67; 195; 169]))).
Proof.
  split; [reflexivity|].
  apply (non200_text_latin1 sample_cfg (mkMqtt true 1) _ 503 [67; 195; 169] (lit "text/html") sample_guess);
    [reflexivity|discriminate|vm_compute; by apply not_elem_of_forallb|vm_compute; reflexivity].
Defined.

(** The sample row answered 200 as [text/plain; charset]. *)
Lemma bare_charset_raises_witness :
  tk_fetch (mkTick 0 25 (FetchResponse 200 (sample_row ++ [10]) (Some (lit "text/plain" ++ lit "; charset")) sample_guess) ConnectOk 3600000000000 [1])
    = FetchResponse 200 (sample_row ++ [10]) (Some (lit "text/plain" ++ lit "; charset")) sample_guess /\
  do_repeat sample_cfg (mkMqtt true 1)
    (mkTick 0 25 (FetchResponse 200 (sample_row ++ [10]) (Some (lit "text/plain" ++ lit "; charset")) sample_guess) ConnectOk 3600000000000 [1]) =
  (mkMqtt true 1, [EvFetch (fetch_url sample_cfg) (benning_username sample_cfg) (benning_password sample_cfg)],
   Raise AttributeError).
Proof.
  split; [reflexivity|].
  apply (bare_charset_raises sample_cfg (mkMqtt true 1) _ 200 (sample_row ++ [10]) (lit "text/plain") sample_guess);
    [reflexivity|vm_compute; by apply not_elem_of_forallb].
Defined.
