(* ===== verification/Startup.v ===== *)
(** * Process start-up (src/app.py, lines 43-113 and 226-236)

    What runs before the worker: [parse_arguments] (lines 48-57, with the
    default path of [find_default_config_path], lines 60-62),
    [set_up_logging] (lines 75-113), [read_config] (lines 65-72) and the
    [__main__] block (lines 226-236), which ends in [main()], the worker
    of Worker.v.

    The program's state here is the module global [loglevel] (line 43)
    and the root logger of the [logging] module; the computation is a
    state monad over them that can also stop the process ([sys.exit] or
    an uncaught exception).  What the process reads from outside is an
    [environ]: the outcome of [argparse] on [sys.argv], the current
    directory and [__file__], [sys.platform], [sys.stdin.isatty()], the
    host and user names, [os.path.isfile] and the result of
    [yaml.load]. *)

From S2P Require Import Prelude PyText OsPath Publisher Scheduler Worker.

(** ** The [logging] module, as far as the program configures it *)
Module Logging.

Definition DEBUG : Z := 10.
Definition INFO : Z := 20.
Definition WARNING : Z := 30.
Definition ERROR : Z := 40.

(** [SysLogHandler.LOG_USER]. *)
Definition LOG_USER : Z := 1.

(** A [StreamHandler] on [sys.stderr] with its formatter's format, or a
    [SysLogHandler] with its address, facility, format and date format. *)
Inductive handler :=
| StreamHandler (fmt : list Z)
| SysLogHandler (address : list Z) (facility : Z) (fmt datefmt : list Z).

(** The [ContextFilter] of lines 81-88, with the class attributes
    [hostname] and [username] it copies into every record. *)
Inductive log_filter :=
| ContextFilter (hostname username : list Z).

(** The root logger: its level, handlers and filters. *)
Record logger := mkLogger {
  level : Z;
  handlers : list handler;
  filters : list log_filter
}.

(** The root logger when the program starts: [WARNING], nothing attached. *)
Definition root_initial : logger := mkLogger WARNING [] [].

(** [logging.BASIC_FORMAT]. *)
Definition BASIC_FORMAT : list Z := lit "%(levelname)s:%(name)s:%(message)s".

(** [logging.basicConfig(level=..., format=...)]: nothing when the root
    already has a handler; otherwise a [StreamHandler] on stderr with the
    format is attached and the level, when one is given, set. *)
Definition basicConfig (lvl : option Z) (fmt : list Z) (r : logger) : logger :=
  match handlers r with
  | [] => mkLogger (default (level r) lvl) [StreamHandler fmt] (filters r)
  | _ :: _ => r
  end.

Definition setLevel (lvl : Z) (r : logger) : logger :=
  mkLogger lvl (handlers r) (filters r).

(** [addFilter] and [addHandler] append the object unless it is already
    there; the program always passes a new object. *)
Definition addFilter (f : log_filter) (r : logger) : logger :=
  mkLogger (level r) (handlers r) (filters r ++ [f]).

Definition addHandler (h : handler) (r : logger) : logger :=
  mkLogger (level r) (handlers r ++ [h]) (filters r).

(** A record as a handler receives it. *)
Record record := mkRecord {
  rec_handler : handler;
  rec_level : Z;
  rec_msg : list Z
}.

(** The root logger handles a record of level [lvl]: it passes when
    [lvl] is at least the logger's level, the filters pass it (the only
    filter the program attaches, [ContextFilter.filter], returns [True])
    and every handler receives it. *)
Definition emit (r : logger) (lvl : Z) (msg : list Z) : list record :=
  if level r <=? lvl then map (fun h => mkRecord h lvl msg) (handlers r) else [].

(** The module-level [logging.info] and [logging.error]: [basicConfig()]
    when the root has no handler, then the root logs. *)
Definition module_log (lvl : Z) (msg : list Z) (r : logger) : logger * list record :=
  let r' := basicConfig None BASIC_FORMAT r in (r', emit r' lvl msg).

End Logging.

(** ** The start-up as a computation *)
Module Startup.
Import Logging.

(** How the process goes on: normally with a value, through
    [sys.exit(code)], or through an uncaught exception (the interpreter
    prints the traceback and exits with status 1). *)
Inductive outcome (A : Type) :=
| Normal (a : A)
| Exited (code : Z)
| Crashed.
Arguments Normal {A} a.
Arguments Exited {A} code.
Arguments Crashed {A}.

(** The state: the global [loglevel], the root logger and the records
    its handlers have received, in order. *)
Record proc := mkProc {
  loglevel : Z;
  root : logger;
  records : list record
}.

(** Line 43: [loglevel = logging.INFO]. *)
Definition proc_initial : proc := mkProc INFO root_initial [].

Definition M (A : Type) : Type := proc -> outcome A * proc.

Definition ret {A} (a : A) : M A := fun p => (Normal a, p).

Definition bind {A B} (m : M A) (k : A -> M B) : M B := fun p =>
  match m p with
  | (Normal a, p') => k a p'
  | (Exited c, p') => (Exited c, p')
  | (Crashed, p') => (Crashed, p')
  end.

Declare Scope startup_scope.
Delimit Scope startup_scope with startup.
Notation "x <- m ;; k" := (bind m (fun x => k))
  (at level 60, m at next level, right associativity) : startup_scope.
Notation "m ;;; k" := (bind m (fun _ => k))
  (at level 60, right associativity) : startup_scope.
Open Scope startup_scope.

Definition get : M proc := fun p => (Normal p, p).

Definition sys_exit {A} (code : Z) : M A := fun p => (Exited code, p).

Definition crash {A} : M A := fun p => (Crashed, p).

Definition set_loglevel (l : Z) : M unit := fun p =>
  (Normal tt, mkProc l (root p) (records p)).

Definition update_root (f : logger -> logger) : M unit := fun p =>
  (Normal tt, mkProc (loglevel p) (f (root p)) (records p)).

(** [logging.info(msg)], [logging.error(msg)]. *)
Definition log (lvl : Z) (msg : list Z) : M unit := fun p =>
  let '(r, recs) := module_log lvl msg (root p) in
  (Normal tt, mkProc (loglevel p) r (records p ++ recs)).

(** ** What the process reads from outside *)

(** [parser.parse_args()]: the [-d] flag and the [-c] value when given,
    or an exit of [argparse] itself ([-h] exits 0, a bad option 2). *)
Inductive parse_args_outcome :=
| ArgsOk (debug : bool) (config : option (list Z))
| ArgsExit (code : Z).

Record environ := mkEnv {
  env_args : parse_args_outcome;
  env_cwd : list Z;
  env_file : list Z;
  env_platform : list Z;
  env_isatty : bool;
  env_hostname : list Z;
  env_username : list Z;
  env_isfile : list Z -> bool;
  env_yaml : list Z -> option config
}.

(** The namespace [parse_args] returns. *)
Record args := mkArgs {
  args_debug : bool;
  args_config : list Z
}.

(** ** The program's functions *)

(** Lines 48-57: the [-c] default is [find_default_config_path('config.yaml')],
    computed when the option is declared; [--debug] sets the global
    [loglevel] to [DEBUG]. *)
Definition default_config_path (e : environ) : list Z :=
  find_default_config_path (env_cwd e) (env_file e) (lit "config.yaml").

Definition parse_arguments (e : environ) : M args :=
  let default_path := default_config_path e in
  match env_args e with
  | ArgsExit code => sys_exit code
  | ArgsOk debug config =>
      (if debug then set_loglevel DEBUG else ret tt) ;;;
      ret (mkArgs debug (default default_path config))
  end.

(** Line 77: the console format. *)
Definition console_format : list Z := lit "%(asctime)s %(levelname)s:%(message)s".

(** Line 101 and the date format of line 111. *)
Definition syslog_format_string : list Z := lit "[%(process)d]: [%(levelname)s][%(funcName)s] %(message)s".
Definition syslog_datefmt : list Z := lit "%b %d %H:%M:%S".

(** Lines 75-113.  In the foreground, [basicConfig] with the level and
    the console format.  Otherwise the root logger gets the level, a
    [ContextFilter] and a [SysLogHandler] on [/dev/log] ([/var/run/syslog]
    on macOS) whose format starts with the program name, by default the
    base name of [__file__]. *)
Definition set_up_logging (e : environ) (lvl : Z) (log_to_foreground : bool)
    (program_name : option (list Z)) : M unit :=
  if log_to_foreground then update_root (basicConfig (Some lvl) console_format)
  else
    let syslog_socket :=
      if str_eqb (lit "darwin") (env_platform e) then lit "/var/run/syslog" else lit "/dev/log" in
    let name := default (PosixPath.basename (env_file e)) program_name in
    update_root (setLevel lvl) ;;;
    update_root (addFilter (ContextFilter (env_hostname e) (env_username e))) ;;;
    update_root (addHandler (SysLogHandler syslog_socket LOG_USER
                               (name ++ [32] ++ syslog_format_string) syslog_datefmt)).

(** Lines 65-72: log, exit with 254 when the path is not a regular file,
    otherwise the YAML document.  [env_yaml] gives [None] when [open] or
    [yaml.load] raises, an uncaught exception; it also gives [None] for
    a document without the fields the worker reads (an empty file loads
    as [None]), which ends the process in the same way a little later,
    with a [TypeError] or [KeyError] from [config['repeat']] in
    [__init__]: the model stops it here. *)
Definition read_config (e : environ) (config_path : list Z) : M config :=
  log INFO (lit "reading configuration file " ++ config_path) ;;;
  if negb (env_isfile e config_path) then
    log ERROR (lit "config file " ++ config_path ++ lit " does not exist") ;;;
    sys_exit 254
  else
    match env_yaml e config_path with
    | Some c => ret c
    | None => crash
    end.

(** [__version__]. *)
Definition version : list Z := lit "0.2.0".

(** Lines 227-235: everything the [__main__] block does before [main()].
    [log_to_foreground] is [True] on both paths; on a terminal a level at
    or above [INFO] is lowered to [INFO]. *)
Definition startup (e : environ) : M config :=
  a <- parse_arguments e ;;
  let log_to_foreground := true in
  (if env_isatty e then
     p <- get ;;
     if INFO <=? loglevel p then set_loglevel INFO else ret tt
   else ret tt) ;;;
  p <- get ;;
  set_up_logging e (loglevel p) log_to_foreground None ;;;
  log INFO (lit "starting benningsolarvalues version " ++ version) ;;;
  read_config e (args_config a).

(** The whole process: the start-up, then [sys.exit(main())] with the
    worker of Worker.v on the loaded configuration, given the connect
    outcome of [__init__], the clock and the iterations of its loop. *)
Definition process (e : environ) (out : connect_outcome) (now : Z) (ticks : list tick)
    : proc * outcome (list event * result (every_state mqtt_state)) :=
  match startup e proc_initial with
  | (Normal cfg, p) => (p, Normal (worker_run cfg out now ticks))
  | (Exited c, p) => (p, Exited c)
  | (Crashed, p) => (p, Crashed)
  end.

End Startup.

(** ** Theorems *)
Module StartupFacts.
Import Logging Startup.

(** The records that one message sends to the console handler. *)
Definition console (lvl : Z) (msg : list Z) : record :=
  mkRecord (StreamHandler console_format) lvl msg.

Lemma log_console (lvl l : Z) (msg : list Z) (recs : list record) :
  l <= lvl ->
  log lvl msg (mkProc l (mkLogger l [StreamHandler console_format] []) recs) =
  (Normal tt, mkProc l (mkLogger l [StreamHandler console_format] []) (recs ++ [console lvl msg])).
Proof. intros Hl. unfold log, module_log, emit. cbn. by rewrite (proj2 (Z.leb_le _ _) Hl). Qed.

Section Started.
Context (e : environ) (debug : bool) (path : option (list Z)).
Hypothesis Hargs : env_args e = ArgsOk debug path.

(** The level the start-up settles on. *)
Let lvl : Z := if debug then DEBUG else INFO.

(** The path [read_config] is given. *)
Let config_path : list Z := default (default_config_path e) path.

Let console_root : logger := mkLogger lvl [StreamHandler console_format] [].

Let start_msg : list Z := lit "starting benningsolarvalues version " ++ version.

(** Up to [read_config]: the level, the console handler and the start
    message, whatever the terminal and the platform. *)
Lemma startup_prefix :
  startup e proc_initial = read_config e config_path (mkProc lvl console_root [console INFO start_msg]).
Proof.
  unfold startup, parse_arguments. rewrite Hargs.
  subst lvl console_root start_msg config_path.
  destruct debug, (env_isatty e); reflexivity.
Qed.

Lemma lvl_le_info : lvl <= INFO.
Proof. subst lvl. destruct debug; unfold DEBUG, INFO; lia. Qed.

Lemma read_config_console (recs : list record) :
  read_config e config_path (mkProc lvl console_root recs) =
  let p := mkProc lvl console_root (recs ++ [console INFO (lit "reading configuration file " ++ config_path)]) in
  if negb (env_isfile e config_path) then
    (Exited 254, mkProc lvl console_root
       (records p ++ [console ERROR (lit "config file " ++ config_path ++ lit " does not exist")]))
  else match env_yaml e config_path with Some c => (Normal c, p) | None => (Crashed, p) end.
Proof.
  pose proof lvl_le_info.
  unfold read_config, bind at 1. subst console_root. rewrite log_console by done.
  destruct (negb _); [|by destruct (env_yaml e config_path)].
  unfold bind. rewrite log_console; [done|].
  unfold ERROR, INFO in *. lia.
Qed.

(** C22: The process always logs to the console, never to syslog: once
    the arguments are parsed, the root logger ends up with the level
    [DEBUG] under [--debug] and [INFO] otherwise, one [StreamHandler]
    with the console format and no filter, whatever [sys.stdin.isatty()]
    and the platform say and whether the configuration loads. *)
Theorem startup_logs_to_console :
  root (snd (startup e proc_initial)) =
  mkLogger (if debug then DEBUG else INFO) [StreamHandler console_format] [].
Proof.
  rewrite startup_prefix, read_config_console. cbn zeta.
  destruct (negb _); [done|]. by destruct (env_yaml _ _).
Qed.

(** C28: When the configuration path (the [-c] value, or [config.yaml]
    beside the script) is not a file, the process exits with status 254
    after three console records: the start message, the reading message
    and the error naming the path. *)
Theorem missing_config_exits :
  env_isfile e (default (default_config_path e) path) = false ->
  startup e proc_initial =
  (Exited 254, mkProc (if debug then DEBUG else INFO)
     (mkLogger (if debug then DEBUG else INFO) [StreamHandler console_format] [])
     [console INFO (lit "starting benningsolarvalues version " ++ version);
      console INFO (lit "reading configuration file " ++ default (default_config_path e) path);
      console ERROR (lit "config file " ++ default (default_config_path e) path ++ lit " does not exist")]).
Proof.
  intros Hf. rewrite startup_prefix, read_config_console. cbn zeta.
  subst config_path. by rewrite Hf.
Qed.

(** C23: When the configuration loads, the process runs the worker of
    Worker.v on it, with two console records logged before: the start
    message and the reading message. *)
Theorem process_runs_worker (cfg : config) (out : connect_outcome) (now : Z) (ticks : list tick) :
  env_isfile e (default (default_config_path e) path) = true ->
  env_yaml e (default (default_config_path e) path) = Some cfg ->
  process e out now ticks =
  (mkProc (if debug then DEBUG else INFO)
     (mkLogger (if debug then DEBUG else INFO) [StreamHandler console_format] [])
     [console INFO (lit "starting benningsolarvalues version " ++ version);
      console INFO (lit "reading configuration file " ++ default (default_config_path e) path)],
   Normal (worker_run cfg out now ticks)).
Proof.
  intros Hf Hy. unfold process. rewrite startup_prefix, read_config_console. cbn zeta.
  subst config_path. by rewrite Hf, Hy.
Qed.

End Started.
End StartupFacts.

(** ** Witnesses *)
Module StartupSamples.
Import Logging Startup StartupFacts.

(** A process started as [bsv/app.py] from [/srv] on Linux, with
    [/srv/bsv/config.yaml] present or not. *)
Definition sample_env (a : parse_args_outcome) (tty present : bool) : environ :=
  mkEnv a (lit "/srv") (lit "bsv/app.py") (lit "linux") tty (lit "pv") (lit "pi")
    (fun p => present && str_eqb p (lit "/srv/bsv/config.yaml")) (fun _ => Some sample_cfg).

Lemma startup_logs_to_console_witness :
  env_args (sample_env (ArgsOk true None) false true) = ArgsOk true None /\
  root (snd (startup (sample_env (ArgsOk true None) false true) proc_initial)) =
  mkLogger DEBUG [StreamHandler console_format] [].
Proof.
  split; [reflexivity|].
  apply (startup_logs_to_console (sample_env (ArgsOk true None) false true) true None).
  reflexivity.
Defined.

Lemma missing_config_exits_witness :
  env_args (sample_env (ArgsOk false None) true false) = ArgsOk false None /\
  env_isfile (sample_env (ArgsOk false None) true false) (lit "/srv/bsv/config.yaml") = false /\
  fst (startup (sample_env (ArgsOk false None) true false) proc_initial) = Exited 254.
Proof.
  split; [reflexivity|]. split; [reflexivity|].
  rewrite (missing_config_exits (sample_env (ArgsOk false None) true false) false None);
    [reflexivity|reflexivity|vm_compute; reflexivity].
Defined.

Lemma process_runs_worker_witness :
  env_args (sample_env (ArgsOk false None) true true) = ArgsOk false None /\
  env_isfile (sample_env (ArgsOk false None) true true) (lit "/srv/bsv/config.yaml") = true /\
  snd (process (sample_env (ArgsOk false None) true true) ConnectOk 0 [])
  = Normal (worker_run sample_cfg ConnectOk 0 []).
Proof.
  split; [reflexivity|]. split; [vm_compute; reflexivity|].
  rewrite (process_runs_worker (sample_env (ArgsOk false None) true true) false None
             ltac:(reflexivity) sample_cfg ConnectOk 0 []);
    [reflexivity|vm_compute; reflexivity|reflexivity].
Defined.

End StartupSamples.
