(* ===== verification/Logs.v ===== *)
(** * The log of the process (src/app.py, log calls of lines 133-217)

    The worker's log calls ([logging.info] on lines 157 and 211,
    [logging.warning] on 217, [logging.error] on 133 and 161,
    [logging.exception] on 150) go through the root logger that
    [set_up_logging] configured at start-up (Startup.v).  Worker.v keeps
    them as events, and so the [logging.info] of the callback
    [on_publish] (lines 126-127), which paho-mqtt calls inside [publish]
    for every packet it finishes writing; [event_log] gives the level
    and message of the call each event stands for, [log_events] hands
    them to the root logger, and [process_log] is everything the process
    logs: the start-up's records, then the worker's.  The text that
    [logging.exception] adds after the message (the traceback) is
    formatting, not modelled. *)

From S2P Require Import Prelude PyText FloatRepr Publisher Scheduler Worker Startup.

Module Logs.
Import Logging Startup StartupFacts StartupSamples.





(** ** Lemmas *)




(** ** The log of a run *)


(** ** Witness *)


End Logs.
